(** * Thread-title synchronisation engine of openclaw: a shallow embedding

    The development follows the TypeScript sources:
    - [conversation-title.ts] (two snapshots: the one that keeps attachment
      names through [normalizeAttachmentTokens], and the one that only strips
      placeholders through [stripMediaPlaceholderTokens]);
    - [thread-title.ts] ([applyThreadTitle] and the in-memory state store);
    - [thread-title-manager.ts] ([resolveRetryDelayMs], [markRenameAttempt],
      [markRenameResult], [classifyRenameError], the remembered titles,
      [sanitizeAiTitle] and [maybeGenerateAiThreadTitle]);
    - [thread-title-llm.ts] ([resolveThreadTitleLlmSettings] and the two
      snapshots of [generateThreadTitleViaLLM]);
    - [thread-title-provider.ts] of Slack and of Telegram (the classifiers
      of errors, the retry hooks, the keys and [setTitle] of Slack).

    JavaScript strings are modelled as Rocq strings whose characters stand for
    the UTF-16 code units below 256; JavaScript numbers that hold timestamps,
    delays and counters are modelled as integers ([Z]). *)

From Stdlib Require Import ZArith List String Ascii Bool Lia DecimalString.
Import ListNotations.
Local Open Scope string_scope.
Local Open Scope Z_scope.

(* ===================================================================== *)
(** * JavaScript string primitives *)
(* ===================================================================== *)

Module Js.

Definition code (c : ascii) : N := N_of_ascii c.

Definition in_range (lo hi c : ascii) : bool :=
  ((code lo <=? code c) && (code c <=? code hi))%N.

Definition dquote : ascii := "034"%char.
Definition backslash : ascii := "092"%char.

(** WhiteSpace and LineTerminator code units below 256: TAB, LF, VT, FF,
    CR, SPACE and NBSP. This is the set used by [trim] and by [\s]. *)
Definition is_space (c : ascii) : bool :=
  let n := code c in
  (((9 <=? n) && (n <=? 13)) || (n =? 32) || (n =? 160))%N.

(** [.] of a regular expression excludes the line terminators. *)
Definition is_line_terminator (c : ascii) : bool :=
  let n := code c in ((n =? 10) || (n =? 13))%N.

Definition is_digit (c : ascii) : bool := in_range "0" "9" c.

(** [\w]: used by [\b]. *)
Definition is_word (c : ascii) : bool :=
  in_range "a" "z" c || in_range "A" "Z" c || is_digit c || (c =? "_")%char.

(** [toLowerCase] on one code unit below 256. *)
Definition lower (c : ascii) : ascii :=
  let n := code c in
  if (((65 <=? n) && (n <=? 90))
      || ((192 <=? n) && (n <=? 222) && negb (n =? 215)))%N
  then ascii_of_N (n + 32) else c.

(** The simple upper-case mapping that stays below 256; it is the
    [Canonicalize] of a case-insensitive regular expression. *)
Definition upper (c : ascii) : ascii :=
  let n := code c in
  if (((97 <=? n) && (n <=? 122))
      || ((224 <=? n) && (n <=? 254) && negb (n =? 247)))%N
  then ascii_of_N (n - 32) else c.

Fixpoint toLowerCase (s : string) : string :=
  match s with
  | EmptyString => EmptyString
  | String c s' => String (lower c) (toLowerCase s')
  end.

Fixpoint trimStart (s : string) : string :=
  match s with
  | EmptyString => EmptyString
  | String c s' => if is_space c then trimStart s' else s
  end.

(** [trimEnd] drops the trailing white space: a character is kept when
    something that is not white space follows or when it is not white
    space itself. *)
Fixpoint trimEnd (s : string) : string :=
  match s with
  | EmptyString => EmptyString
  | String c s' =>
      match trimEnd s' with
      | EmptyString => if is_space c then EmptyString else String c EmptyString
      | t => String c t
      end
  end.

Definition trim (s : string) : string := trimEnd (trimStart s).

(** Truthiness of a string: the empty string is falsy. *)
Definition truthy (s : string) : bool :=
  match s with EmptyString => false | _ => true end.

(** Truthiness of [string | undefined]. *)
Definition truthy_opt (o : option string) : bool :=
  match o with Some s => truthy s | None => false end.

(** [x || undefined] for a string [x]. *)
Definition or_undefined (s : string) : option string :=
  if truthy s then Some s else None.

Definition len (s : string) : Z := Z.of_nat (String.length s).

(** [s.slice(0, n)] for an integer [n >= 0]. *)
Definition slice0 (n : Z) (s : string) : string :=
  substring 0 (Z.to_nat n) s.

(** [s.includes(t)]. *)
Fixpoint includes (t s : string) : bool :=
  if prefix t s then true
  else match s with
       | EmptyString => false
       | String _ s' => includes t s'
       end.

(** [s.split(sep)] for a one-character separator. *)
Fixpoint split_on (sep : ascii) (s : string) : list string :=
  match s with
  | EmptyString => [EmptyString]
  | String c s' =>
      match split_on sep s' with
      | [] => [EmptyString]
      | h :: t => if (c =? sep)%char then EmptyString :: h :: t
                  else String c h :: t
      end
  end.

(** [parts.join(sep)]. *)
Fixpoint join (sep : string) (parts : list string) : string :=
  match parts with
  | [] => EmptyString
  | [p] => p
  | p :: ps => p ++ sep ++ join sep ps
  end.

(** [String(n)] for an integer [n]. *)
Definition string_of_Z (n : Z) : string := NilZero.string_of_int (Z.to_int n).

(** [set.has(s)] for a [Set] of strings. *)
Definition set_has (set : list string) (s : string) : bool :=
  existsb (String.eqb s) set.

End Js.

(* ===================================================================== *)
(** * Regular expressions: a backtracking matcher

    The matcher follows the ECMAScript semantics of the constructs the
    sources use: greedy quantifiers, ordered alternation, [^], [$], [\b],
    character classes, one capturing group, and the [i] flag (characters are
    compared through their upper-case canonical form). *)
(* ===================================================================== *)

Module Re.

Inductive item : Type :=
| IChar (c : ascii)
| IRange (lo hi : ascii)
| ISpace
| IDigit.

Inductive re : Type :=
| Eps
| Chr (c : ascii)
| Cls (neg : bool) (items : list item)
| Dot
| Seq (a b : re)
| Alt (a b : re)
| Star (a : re)
| Bol
| Eol
| WordB
| Group (a : re).

Definition plus (a : re) : re := Seq a (Star a).
Definition opt (a : re) : re := Alt a Eps.

Fixpoint lit (s : string) : re :=
  match s with
  | EmptyString => Eps
  | String c EmptyString => Chr c
  | String c s' => Seq (Chr c) (lit s')
  end.

Fixpoint seqs (rs : list re) : re :=
  match rs with
  | [] => Eps
  | [r] => r
  | r :: rs' => Seq r (seqs rs')
  end.

Fixpoint alts (rs : list re) : re :=
  match rs with
  | [] => Eps
  | [r] => r
  | r :: rs' => Alt r (alts rs')
  end.

Definition space : re := Cls false [ISpace].
Definition digit : re := Cls false [IDigit].
Definition one_of (s : string) : re := Cls false (map IChar (list_ascii_of_string s)).
Definition none_of (s : string) : re := Cls true (map IChar (list_ascii_of_string s)).

Definition chr_eq (ic : bool) (p c : ascii) : bool :=
  if ic then (Js.upper p =? Js.upper c)%char else (p =? c)%char.

Definition item_mem (ic : bool) (it : item) (c : ascii) : bool :=
  match it with
  | IChar p => chr_eq ic p c
  | IRange lo hi =>
      Js.in_range lo hi c
      || (ic && (Js.in_range lo hi (Js.upper c) || Js.in_range lo hi (Js.lower c)))
  | ISpace => Js.is_space c
  | IDigit => Js.is_digit c
  end.

Definition cls_mem (ic : bool) (neg : bool) (items : list item) (c : ascii) : bool :=
  xorb neg (existsb (fun it => item_mem ic it c) items).

(** A position in the subject: the character before it (none at index 0),
    the text that remains, and the text of the capturing group. *)
Record pos : Type := mkPos {
  prev : option ascii;
  rest : string;
  cap : option string
}.

Definition next_char (s : string) : option ascii :=
  match s with EmptyString => None | String c _ => Some c end.

Definition word_opt (o : option ascii) : bool :=
  match o with Some c => Js.is_word c | None => false end.

Definition consumed (from to : string) : string :=
  substring 0 (String.length from - String.length to) from.

Definition step_char (p : ascii -> bool) (st : pos) (k : pos -> option pos) : option pos :=
  match rest st with
  | EmptyString => None
  | String c s' => if p c then k (mkPos (Some c) s' (cap st)) else None
  end.

(** The greedy loop of [a*]: one more turn of [a] when it consumes
    something, else the continuation. [turn] is the matcher of [a]. *)
Fixpoint star_loop (turn : pos -> (pos -> option pos) -> option pos)
  (k : pos -> option pos) (fuel : nat) (st : pos) {struct fuel} : option pos :=
  match fuel with
  | O => k st
  | S fuel' =>
      match turn st
              (fun st' =>
                 if (String.length (rest st') <? String.length (rest st))%nat
                 then star_loop turn k fuel' st' else None) with
      | Some res => Some res
      | None => k st
      end
  end.

Fixpoint rmatch (ic : bool) (r : re) (st : pos) (k : pos -> option pos) {struct r}
  : option pos :=
  match r with
  | Eps => k st
  | Chr p => step_char (chr_eq ic p) st k
  | Cls neg items => step_char (cls_mem ic neg items) st k
  | Dot => step_char (fun c => negb (Js.is_line_terminator c)) st k
  | Seq a b => rmatch ic a st (fun st' => rmatch ic b st' k)
  | Alt a b =>
      match rmatch ic a st k with
      | Some res => Some res
      | None => rmatch ic b st k
      end
  | Star a => star_loop (rmatch ic a) k (String.length (rest st)) st
  | Bol => match prev st with None => k st | Some _ => None end
  | Eol => match rest st with EmptyString => k st | _ => None end
  | WordB =>
      if xorb (word_opt (prev st)) (word_opt (next_char (rest st)))
      then k st else None
  | Group a =>
      rmatch ic a st
        (fun st' => k (mkPos (prev st') (rest st') (Some (consumed (rest st) (rest st')))))
  end.

(** One attempt at the position [(p, s)]. *)
Definition match_at (ic : bool) (r : re) (p : option ascii) (s : string) : option pos :=
  rmatch ic r (mkPos p s None) Some.

(** [re.test(s)]: is there a match at some index? *)
Fixpoint test_from (ic : bool) (r : re) (p : option ascii) (s : string) : bool :=
  match match_at ic r p s with
  | Some _ => true
  | None =>
      match s with
      | EmptyString => false
      | String c s' => test_from ic r (Some c) s'
      end
  end.

Definition test (ic : bool) (r : re) (s : string) : bool := test_from ic r None s.

(** [s.replace(re, f)] without the [g] flag: the leftmost match only.
    [f] receives the matched text and the capture. *)
Fixpoint replace_first_from (ic : bool) (r : re) (f : string -> option string -> string)
  (p : option ascii) (s : string) : string :=
  match match_at ic r p s with
  | Some st' => f (consumed s (rest st')) (cap st') ++ rest st'
  | None =>
      match s with
      | EmptyString => EmptyString
      | String c s' => String c (replace_first_from ic r f (Some c) s')
      end
  end.

Definition replace_first ic r f (s : string) : string :=
  replace_first_from ic r f None s.

(** [s.replace(re, f)] with the [g] flag: every match, left to right; after
    an empty match the scan moves on by one character. *)
Fixpoint replace_all_from (fuel : nat) (ic : bool) (r : re)
  (f : string -> option string -> string) (p : option ascii) (s : string) : string :=
  match fuel with
  | O => s
  | S fuel' =>
      match match_at ic r p s with
      | Some st' =>
          let m := consumed s (rest st') in
          match m with
          | EmptyString =>
              match s with
              | EmptyString => f m (cap st')
              | String c s' =>
                  f m (cap st') ++ String c (replace_all_from fuel' ic r f (Some c) s')
              end
          | _ => f m (cap st') ++ replace_all_from fuel' ic r f (prev st') (rest st')
          end
      | None =>
          match s with
          | EmptyString => EmptyString
          | String c s' => String c (replace_all_from fuel' ic r f (Some c) s')
          end
      end
  end.

Definition replace_all ic r f (s : string) : string :=
  replace_all_from (S (String.length s)) ic r f None s.

(** Replacement by a constant string. *)
Definition const (t : string) : string -> option string -> string := fun _ _ => t.

(** Every character of [s] satisfies [P]. *)
Fixpoint all_chars (P : ascii -> bool) (s : string) : bool :=
  match s with
  | EmptyString => true
  | String c s' => P c && all_chars P s'
  end.

(** The character before the position reached after [x], from a position
    whose previous character is [p]. *)
Fixpoint last_prev (p : option ascii) (x : string) : option ascii :=
  match x with
  | EmptyString => p
  | String c x' => last_prev (Some c) x'
  end.

(** [s] is empty or its first character does not satisfy [P]. *)
Definition head_not (P : ascii -> bool) (s : string) : Prop :=
  match s with
  | EmptyString => True
  | String c _ => P c = false
  end.

End Re.

(* ===================================================================== *)
(** * conversation-title.ts, the snapshot with [normalizeAttachmentTokens] *)
(* ===================================================================== *)

Module ConversationTitle.
Import Re.

(** [/^\/[a-z0-9_]+(?:\s|$)/i] *)
Definition SLASH_COMMAND_RE : re :=
  seqs [Bol; Chr "/"; plus (Cls false [IRange "a" "z"; IRange "0" "9"; IChar "_"]);
        Alt space Eol].

(** [/^(?:hi|hello|hey|yo|ok|okay|test|ping)$/i] *)
Definition LOW_SIGNAL_RE : re :=
  seqs [Bol;
        alts (map lit ["hi"; "hello"; "hey"; "yo"; "ok"; "okay"; "test"; "ping"]);
        Eol].

(** [/^\[Sticker(?: [^\]]+)?\](?:\s+.*THEN)?$/i], where THEN stands for nothing:
    the star and the closing parenthesis are adjacent in the source. *)
Definition STICKER_PLACEHOLDER_RE : re :=
  seqs [Bol; lit "[Sticker"; opt (Seq (Chr " ") (plus (none_of "]"))); Chr "]";
        opt (Seq (plus space) (Star Dot)); Eol].

(** [/<media:[^>]+>(?:\s* \( [^)]* \) )?/gi] (spaces added between the parts
    of the optional group) *)
Definition ATTACHMENT_PLACEHOLDER_TOKEN_RE : re :=
  seqs [lit "<media:"; plus (none_of ">"); Chr ">";
        opt (seqs [Star space; Chr "("; Star (none_of ")"); Chr ")"])].

Definition attachment_words : re := alts (map lit ["Slack file"; "Forwarded image"; "attached"]).

(** [/\[(?:Slack file|Forwarded image|attached)(?::\s* [^\]]+)?\]/gi] (space added after the star) *)
Definition SLACK_ATTACHMENT_PLACEHOLDER_TOKEN_RE : re :=
  seqs [Chr "["; attachment_words;
        opt (seqs [Chr ":"; Star space; plus (none_of "]")]); Chr "]"].

(** [/\[(?:Image|Audio|Video)(?:\s+\d+\/\d+)?\]/gi] *)
Definition ATTACHMENT_SECTION_TOKEN_RE : re :=
  seqs [Chr "["; alts (map lit ["Image"; "Audio"; "Video"]);
        opt (seqs [plus space; plus digit; Chr "/"; plus digit]); Chr "]"].

(** [/\b(?:User text|Description|Transcript):/gi] *)
Definition ATTACHMENT_SECTION_LABEL_RE : re :=
  seqs [WordB; alts (map lit ["User text"; "Description"; "Transcript"]); Chr ":"].

(** [/<file\b[^>]* \bname=Q([^Q]+)Q[^>]* >/gi], where Q is the double quote
    (spaces added after the stars) *)
Definition FILE_OPEN_TAG_RE : re :=
  seqs [lit "<file"; WordB; Star (none_of ">"); WordB; lit "name="; Chr Js.dquote;
        Group (plus (Cls true [IChar Js.dquote])); Chr Js.dquote;
        Star (none_of ">"); Chr ">"].

(** [/<\/file>/gi] *)
Definition FILE_CLOSE_TAG_RE : re := lit "</file>".

(** [/\[(?:media|attachment) attached:\s* \d+\s+files\]/gi] (space added after the star) *)
Definition ATTACHMENT_NOTE_HEADER_RE : re :=
  seqs [Chr "["; alts (map lit ["media"; "attachment"]); lit " attached:";
        Star space; plus digit; plus space; lit "files]"].

(** [/\[(?:media|attachment) attached(?: \d+\/\d+)?:\s* ([^\]|]+)(?:\s* \([^)]+\) )?(?:\s* \|[^\]]+)?\]/gi]
    (spaces added after the stars and before a closing parenthesis that follows
    an escaped one) *)
Definition ATTACHMENT_NOTE_ENTRY_RE : re :=
  seqs [Chr "["; alts (map lit ["media"; "attachment"]); lit " attached";
        opt (seqs [Chr " "; plus digit; Chr "/"; plus digit]);
        Chr ":"; Star space; Group (plus (none_of "]|"));
        opt (seqs [Star space; Chr "("; plus (none_of ")"); Chr ")"]);
        opt (seqs [Star space; Chr "|"; plus (none_of "]")]);
        Chr "]"].

(** [/\[(?:Slack file|Forwarded image|attached):\s* ([^\]]+)\]/gi] (space added after the star) *)
Definition SLACK_ATTACHMENT_NAME_TOKEN_RE : re :=
  seqs [Chr "["; attachment_words; Chr ":"; Star space;
        Group (plus (none_of "]")); Chr "]"].

(** The regular expressions that the loop body of
    [deriveConversationTitle] writes in place. *)

(** [/<@[^>]+>/g] *)
Definition MENTION_RE : re := seqs [lit "<@"; plus (none_of ">"); Chr ">"].

(** [/\[[^\]]* message id:[^\]]* \]/gi] (spaces added after the stars) *)
Definition MESSAGE_ID_RE : re :=
  seqs [Chr "["; Star (none_of "]"); lit "message id:"; Star (none_of "]"); Chr "]"].

(** [/\s+/g] *)
Definition WHITESPACE_RE : re := plus space.

(** [/^slack thread\s+/i] *)
Definition SLACK_THREAD_PREFIX_RE : re := seqs [Bol; lit "slack thread"; plus space].

(** [/^[\s\-:;,.!?]+/] *)
Definition LEADING_PUNCTUATION_RE : re :=
  Seq Bol (plus (Cls false (ISpace :: map IChar (list_ascii_of_string "-:;,.!?")))).

Definition DEFAULT_THREAD_PLACEHOLDERS : list string :=
  ["new conversation"; "new thread"; "new chat"; "untitled"; "general"; "no title"].

(** [/[;:,.!?]+$/] *)
Definition TRAILING_PUNCTUATION_RE : re := Seq (plus (one_of ";:,.!?")) Eol.

(** The trailing run of punctuation is removed, then [trim]. *)
Definition stripTrailingPunctuation (value : string) : string :=
  Js.trim (replace_first false TRAILING_PUNCTUATION_RE (const "") value).

Definition quotes : re := Cls false [IChar "'"; IChar Js.dquote; IChar "`"].

Definition pickAttachmentName (value : string) : option string :=
  let trimmed := Js.trim value in
  if negb (Js.truthy trimmed) then None
  else
    (* the head: the first part of trimmed.split on the bar, trimmed, with a trailing
       parenthesised note removed: \s+ \( [^)]+ \) \s* $ *)
    let head :=
      replace_all false
        (seqs [plus space; Chr "("; plus (none_of ")"); Chr ")"; Star space; Eol])
        (const "")
        (match Js.split_on "|" trimmed with
         | h :: _ => Js.trim h
         | [] => trimmed
         end) in
    (* every backslash of head becomes a slash *)
    let normalizedPath := replace_all false (Chr Js.backslash) (const "/") head in
    (* the last part of normalizedPath.split on the slash, trimmed, or head when it is empty *)
    let name :=
      let last_part := Js.trim (last (Js.split_on "/" normalizedPath) EmptyString) in
      if Js.truthy last_part then last_part else head in
    (* leading and trailing quote characters of name removed, then trim *)
    let withoutQuotes :=
      Js.trim (replace_all false (Alt (Seq Bol (plus quotes)) (Seq (plus quotes) Eol))
                 (const "") name) in
    let candidate := stripTrailingPunctuation withoutQuotes in
    Js.or_undefined candidate.

Definition decodeXmlEntities (value : string) : string :=
  replace_all false (lit "&amp;") (const "&")
    (replace_all false (lit "&apos;") (const "'")
       (replace_all false (lit "&quot;") (const (String Js.dquote EmptyString))
          (replace_all false (lit "&gt;") (const ">")
             (replace_all false (lit "&lt;") (const "<") value)))).

(** The replacement: the candidate between two spaces, or one space when
    there is no candidate. *)
Definition spaced (candidate : option string) : string :=
  match candidate with
  | Some c => if Js.truthy c then " " ++ c ++ " " else " "
  | None => " "
  end.

Definition capture_text (g : option string) : string :=
  match g with Some t => t | None => EmptyString end.

Definition normalizeAttachmentTokens (value : string) : string :=
  let trimmed := Js.trim value in
  if negb (Js.truthy trimmed) then EmptyString
  else if test true STICKER_PLACEHOLDER_RE trimmed then EmptyString
  else
    let s1 := replace_all true FILE_OPEN_TAG_RE
                (fun _ g =>
                   let decoded := decodeXmlEntities (capture_text g) in
                   spaced (match pickAttachmentName decoded with
                           | Some c => Some c
                           | None => Some (Js.trim decoded)
                           end)) trimmed in
    let s2 := replace_all true FILE_CLOSE_TAG_RE (const " ") s1 in
    let s3 := replace_all true ATTACHMENT_SECTION_TOKEN_RE (const " ") s2 in
    let s4 := replace_all true ATTACHMENT_SECTION_LABEL_RE (const " ") s3 in
    let s5 := replace_all true ATTACHMENT_NOTE_HEADER_RE (const " ") s4 in
    let s6 := replace_all true ATTACHMENT_NOTE_ENTRY_RE
                (fun _ g => spaced (pickAttachmentName (capture_text g))) s5 in
    let s7 := replace_all true SLACK_ATTACHMENT_NAME_TOKEN_RE
                (fun _ g => spaced (pickAttachmentName (capture_text g))) s6 in
    let s8 := replace_all true ATTACHMENT_PLACEHOLDER_TOKEN_RE (const " ") s7 in
    let s9 := replace_all true SLACK_ATTACHMENT_PLACEHOLDER_TOKEN_RE (const " ") s8 in
    Js.trim (replace_all false WHITESPACE_RE (const " ") s9).

(** The common head of the loop body of [deriveConversationTitle]: mentions
    and message-id annotations removed, white space collapsed. *)
Definition cleanSource (source : string) : string :=
  Js.trim
    (replace_all false WHITESPACE_RE (const " ")
       (replace_all true MESSAGE_ID_RE (const " ")
          (replace_all false MENTION_RE (const " ") source))).

(** The prefix [SLACK_THREAD_PREFIX_RE] is removed, then the leading run of
    [LEADING_PUNCTUATION_RE], then [trim]. *)
Definition dropLeading (title : string) : string :=
  Js.trim
    (replace_first false LEADING_PUNCTUATION_RE (const "")
       (replace_first true SLACK_THREAD_PREFIX_RE (const "") title)).

Section WithCommandDetection.

(** [isControlCommandMessage] comes from [auto-reply/command-detection],
    which is outside the files at hand: it is a parameter. *)
Variable isControlCommandMessage : string -> bool.

(** One turn of the [for (const source of sources)] loop, up to the
    normalisation of the attachment tokens and the first
    [stripTrailingPunctuation]: [None] is a [continue]. *)
Definition normalizedTitle (normalize : string -> string) (source : option string)
  : option string :=
  match source with
  | None => None
  | Some source =>
      if negb (Js.truthy (Js.trim source)) then None
      else
        let title := cleanSource source in
        if negb (Js.truthy title) then None
        else if test true SLASH_COMMAND_RE title then None
        else
          let title := dropLeading title in
          if negb (Js.truthy title) || test true LOW_SIGNAL_RE title then None
          else Some (stripTrailingPunctuation (normalize title))
  end.

(** The rest of the turn: the command check, the truncation and the length
    check; [Some title] is the [return title]. *)
Definition finishTitle (maxChars : Z) (title : string) : option string :=
  if negb (Js.truthy title) || isControlCommandMessage title then None
  else
    let title :=
      if Js.len title >? maxChars
      then Js.trim (Js.slice0 maxChars title) else title in
    let title := stripTrailingPunctuation title in
    if Js.len title <? 3 then None
    else Some title.

Definition candidateTitle (normalize : string -> string) (maxChars : Z)
  (source : option string) : option string :=
  match normalizedTitle normalize source with
  | Some title => finishTitle maxChars title
  | None => None
  end.

Fixpoint firstCandidate (normalize : string -> string) (maxChars : Z)
  (sources : list (option string)) : option string :=
  match sources with
  | [] => None
  | source :: more =>
      match candidateTitle normalize maxChars source with
      | Some title => Some title
      | None => firstCandidate normalize maxChars more
      end
  end.

Definition deriveConversationTitle (primaryText fallbackText : option string)
  (maxChars : Z) : option string :=
  let maxChars := Z.max 1 maxChars in
  firstCandidate normalizeAttachmentTokens maxChars [primaryText; fallbackText].

End WithCommandDetection.

(** [isDefaultThreadPlaceholder(value?)] *)
Definition isDefaultThreadPlaceholder (value : option string) : bool :=
  match value with
  | None => true
  | Some v =>
      if negb (Js.truthy v) then true
      else Js.set_has DEFAULT_THREAD_PLACEHOLDERS (Js.toLowerCase (Js.trim v))
  end.

End ConversationTitle.

(* ===================================================================== *)
(** * conversation-title.ts, the snapshot with [stripMediaPlaceholderTokens] *)
(* ===================================================================== *)

Module ConversationTitleStrip.
Import Re.

Definition MEDIA_PLACEHOLDER_TOKEN_RE : re :=
  ConversationTitle.ATTACHMENT_PLACEHOLDER_TOKEN_RE.
Definition SLACK_MEDIA_PLACEHOLDER_TOKEN_RE : re :=
  ConversationTitle.SLACK_ATTACHMENT_PLACEHOLDER_TOKEN_RE.

Definition stripMediaPlaceholderTokens (value : string) : string :=
  let trimmed := Js.trim value in
  if negb (Js.truthy trimmed) then EmptyString
  else if test true ConversationTitle.STICKER_PLACEHOLDER_RE trimmed then EmptyString
  else
    Js.trim
      (replace_all false ConversationTitle.WHITESPACE_RE (const " ")
         (replace_all true SLACK_MEDIA_PLACEHOLDER_TOKEN_RE (const " ")
            (replace_all true MEDIA_PLACEHOLDER_TOKEN_RE (const " ") trimmed))).

(** The loop of this snapshot is the same text as the other one, with
    [stripMediaPlaceholderTokens] in the place of
    [normalizeAttachmentTokens]. *)
Definition deriveConversationTitle (isControlCommandMessage : string -> bool)
  (primaryText fallbackText : option string) (maxChars : Z) : option string :=
  let maxChars := Z.max 1 maxChars in
  ConversationTitle.firstCandidate isControlCommandMessage
    stripMediaPlaceholderTokens maxChars [primaryText; fallbackText].

End ConversationTitleStrip.

(* ===================================================================== *)
(** * Outcomes of calls that may throw or reject *)
(* ===================================================================== *)

(** A thrown value: the sources only ever read its message. *)
Definition JsError : Type := string.

(** The completion of a call: a value, or a thrown exception (a rejected
    promise, for an awaited call). *)
Inductive Completion (A : Type) : Type :=
| Returned (a : A)
| Thrown (e : JsError).

Arguments Returned {A} a.
Arguments Thrown {A} e.

(* ===================================================================== *)
(** * thread-title.ts: the state store and [applyThreadTitle] *)
(* ===================================================================== *)

Module ThreadTitle.

Inductive ThreadTitleErrorClass : Type :=
| permission | rate_limit | not_found | unknown.

Inductive Status : Type :=
| pending | applied | disabled | retry_after.

Definition Status_eqb (a b : Status) : bool :=
  match a, b with
  | pending, pending | applied, applied
  | disabled, disabled | retry_after, retry_after => true
  | _, _ => false
  end.

Definition ErrorClass_eqb (a b : ThreadTitleErrorClass) : bool :=
  match a, b with
  | permission, permission | rate_limit, rate_limit
  | not_found, not_found | unknown, unknown => true
  | _, _ => false
  end.

Record ThreadTitleState : Type := mkState {
  threadKey : string;
  status : Status;
  attempts : option Z;
  lastAttemptAt : option Z;
  appliedAt : option Z;
  appliedTitle : option string;
  lastProposedTitle : option string;
  retryAfter : option Z;
  lastErrorClass : option ThreadTitleErrorClass
}.

(** [threadId?: string | number] *)
Inductive ThreadId : Type :=
| TidString (s : string)
| TidNumber (n : Z).

Record ThreadTitleTarget : Type := mkTarget {
  channel : string;
  accountId : option string;
  conversationId : option string;
  threadId : option ThreadId;
  to : option string
}.

(** The provider of a channel. Its asynchronous methods act on the
    platform, whose state has type [W]: they return a completion and the
    next state of the platform. *)
Record ThreadTitleProvider (W : Type) : Type := mkProvider {
  providerChannel : string;
  resolveThreadKey : option (ThreadTitleTarget -> option string);
  getCurrentTitle : option (ThreadTitleTarget -> W -> Completion (option string) * W);
  setTitle : ThreadTitleTarget -> string -> W -> Completion unit * W;
  classifyError : option (JsError -> ThreadTitleErrorClass);
  retryAfterMs : option (JsError -> ThreadTitleErrorClass -> option Z)
}.

Arguments providerChannel {W} _.
Arguments resolveThreadKey {W} _.
Arguments getCurrentTitle {W} _.
Arguments setTitle {W} _.
Arguments classifyError {W} _.
Arguments retryAfterMs {W} _.

(** [ThreadTitleStateStore]: the interface of a store. *)
Class ThreadTitleStateStore (S : Type) : Type := {
  store_get : S -> string -> option ThreadTitleState;
  store_set : S -> string -> ThreadTitleState -> S
}.

Inductive Outcome : Type :=
| outcome_applied | outcome_skipped | outcome_failed.

Record ThreadTitleResult : Type := mkResult {
  outcome : Outcome;
  reason : string;
  title : option string;
  resultThreadKey : option string;
  errorClass : option ThreadTitleErrorClass
}.

Definition DEFAULT_MAX_ENTRIES : Z := 5000.

Definition String_of_ThreadId (t : ThreadId) : string :=
  match t with
  | TidString s => s
  | TidNumber n => Js.string_of_Z n
  end.

Definition resolveDefaultThreadKey (target : ThreadTitleTarget) : option string :=
  let channel := Js.toLowerCase (Js.trim (channel target)) in
  let conversationId :=
    match conversationId target with
    | Some c => Js.trim c
    | None => match to target with
              | Some t => Js.trim t
              | None => EmptyString
              end
    end in
  let threadId :=
    match threadId target with
    | Some t => Js.trim (String_of_ThreadId t)
    | None => EmptyString
    end in
  if negb (Js.truthy channel) || negb (Js.truthy conversationId)
     || negb (Js.truthy threadId)
  then None
  else Some (channel ++ ":" ++ conversationId ++ ":" ++ threadId).

Definition setStoreState {S} `{ThreadTitleStateStore S} (store : S)
  (state : ThreadTitleState) : S :=
  if negb (Js.truthy (threadKey state)) then store
  else store_set store (threadKey state) state.

(** ** The in-memory store

    A JavaScript [Map] keeps its keys in insertion order: it is a list of
    bindings with distinct keys, oldest first. *)
Record InMemoryStore : Type := mkStore {
  stateMap : list (string * ThreadTitleState);
  maxEntries : Z
}.

Definition map_get (m : list (string * ThreadTitleState)) (k : string)
  : option ThreadTitleState :=
  match find (fun kv => String.eqb (fst kv) k) m with
  | Some kv => Some (snd kv)
  | None => None
  end.

Definition map_delete (m : list (string * ThreadTitleState)) (k : string)
  : list (string * ThreadTitleState) :=
  filter (fun kv => negb (String.eqb (fst kv) k)) m.

(** No binding of [m] has the key [k]. *)
Definition keys_differ (k : string) (m : list (string * ThreadTitleState)) : Prop :=
  Forall (fun kv => String.eqb (fst kv) k = false) m.

(** [while (stateMap.size > maxEntries)]: the oldest key goes, unless it is
    falsy, which ends the loop. *)
Fixpoint evict (maxEntries : Z) (m : list (string * ThreadTitleState))
  : list (string * ThreadTitleState) :=
  match m with
  | [] => []
  | (oldestKey, v) :: more =>
      if Z.of_nat (List.length m) >? maxEntries
      then if negb (Js.truthy oldestKey) then m else evict maxEntries more
      else m
  end.

Definition createInMemoryThreadTitleStateStore (maxEntries : Z) : InMemoryStore :=
  mkStore [] maxEntries.

Definition inMemory_get (s : InMemoryStore) (k : string) : option ThreadTitleState :=
  map_get (stateMap s) k.

Definition inMemory_set (s : InMemoryStore) (k : string) (state : ThreadTitleState)
  : InMemoryStore :=
  mkStore (evict (maxEntries s) (map_delete (stateMap s) k ++ [(k, state)]))
          (maxEntries s).

#[export] Instance InMemory : ThreadTitleStateStore InMemoryStore := {
  store_get := inMemory_get;
  store_set := inMemory_set
}.

Definition defaultStateStore : InMemoryStore :=
  createInMemoryThreadTitleStateStore DEFAULT_MAX_ENTRIES.

(** ** [applyThreadTitle] *)

(** The calls made on the provider and the writes made to the store,
    oldest first. *)
Inductive Call : Type :=
| CallGetCurrentTitle (target : ThreadTitleTarget)
| CallSetTitle (target : ThreadTitleTarget) (title : string)
| CallStoreSet (threadKey : string) (state : ThreadTitleState).

Definition is_setTitle (c : Call) : bool :=
  match c with CallSetTitle _ _ => true | _ => false end.

Definition is_getCurrentTitle (c : Call) : bool :=
  match c with CallGetCurrentTitle _ => true | _ => false end.

(** How often [setTitle] was called. *)
Definition count_setTitle (cs : list Call) : nat :=
  List.length (filter is_setTitle cs).

(** What a call of [applyThreadTitle] acts on: the store, the platform and
    the log of provider calls. *)
Record Run (S W : Type) : Type := mkRun {
  store : S;
  world : W;
  calls : list Call
}.

Arguments mkRun {S W} _ _ _.
Arguments store {S W} _.
Arguments world {S W} _.
Arguments calls {S W} _.

Record Params (W : Type) : Type := mkParams {
  provider : ThreadTitleProvider W;
  target : ThreadTitleTarget;
  primaryText : option string;
  fallbackText : option string;
  maxChars : Z;
  (** the value of [params.nowMs?.() ?? Date.now()] *)
  now : Z
}.

Arguments provider {W} _.
Arguments target {W} _.
Arguments primaryText {W} _.
Arguments fallbackText {W} _.
Arguments maxChars {W} _.
Arguments now {W} _.

Definition skipped (reason : string) (key : option string) : ThreadTitleResult :=
  mkResult outcome_skipped reason None key None.

Definition status_of (s : option ThreadTitleState) : option Status :=
  match s with Some st => Some (status st) | None => None end.

Definition is_status (s : option ThreadTitleState) (x : Status) : bool :=
  match s with Some st => Status_eqb (status st) x | None => false end.

(** [existingState?.status === "retry_after" &&
     typeof existingState.retryAfter === "number" &&
     existingState.retryAfter > now] *)
Definition in_cooldown (s : option ThreadTitleState) (now : Z) : bool :=
  match s with
  | Some st =>
      Status_eqb (status st) retry_after
      && match retryAfter st with Some r => r >? now | None => false end
  | None => false
  end.

Definition opt_bind {A B} (o : option A) (f : A -> option B) : option B :=
  match o with Some a => f a | None => None end.

(** The states that [applyThreadTitle] writes after [baseState]: each one is
    the spread of [baseState] with the fields it overrides. *)
Definition appliedState (baseState : ThreadTitleState) (now : Z) (title : string)
  : ThreadTitleState :=
  mkState (threadKey baseState) applied (attempts baseState)
    (lastAttemptAt baseState) (Some now) (Some title)
    (lastProposedTitle baseState) None None.

Definition disabledOnError (baseState : ThreadTitleState)
  (errorClass : ThreadTitleErrorClass) : ThreadTitleState :=
  mkState (threadKey baseState) disabled (attempts baseState)
    (lastAttemptAt baseState) (appliedAt baseState) (appliedTitle baseState)
    (lastProposedTitle baseState) (retryAfter baseState) (Some errorClass).

Definition retryAfterState (baseState : ThreadTitleState) (now retryAfterMs : Z)
  (errorClass : ThreadTitleErrorClass) : ThreadTitleState :=
  mkState (threadKey baseState) retry_after (attempts baseState)
    (lastAttemptAt baseState) (appliedAt baseState) (appliedTitle baseState)
    (lastProposedTitle baseState) (Some (now + Z.max 1000 retryAfterMs))
    (Some errorClass).

Definition disabledOnExistingTitle (baseState : ThreadTitleState) (now : Z)
  (currentTitle : string) : ThreadTitleState :=
  mkState (threadKey baseState) disabled (attempts baseState)
    (lastAttemptAt baseState) (Some now) (Some currentTitle)
    (lastProposedTitle baseState) (retryAfter baseState)
    (lastErrorClass baseState).

Section Apply.

Context {S W : Type} `{ThreadTitleStateStore S}.
Variable isControlCommandMessage : string -> bool.

(** [setStoreState(stateStore, state)] within a run: the write is logged
    when the store is written, that is when the key is truthy. *)
Definition storeState (state : ThreadTitleState) (st : Run S W) : Run S W :=
  mkRun (setStoreState (store st) state) (world st)
    (if Js.truthy (ThreadTitle.threadKey state)
     then calls st ++ [CallStoreSet (ThreadTitle.threadKey state) state]
     else calls st).

(** [params.provider.classifyError?.(error) ?? "unknown"] *)
Definition classify (p : ThreadTitleProvider W) (error : JsError)
  : ThreadTitleErrorClass :=
  match classifyError p with
  | Some f => f error
  | None => unknown
  end.

(** [params.provider.retryAfterMs?.(error, errorClass) ??
     (errorClass === "rate_limit" ? 60_000 : 15_000)] *)
Definition retryDelay (p : ThreadTitleProvider W) (error : JsError)
  (errorClass : ThreadTitleErrorClass) : Z :=
  match opt_bind (retryAfterMs p) (fun f => f error errorClass) with
  | Some ms => ms
  | None => if ErrorClass_eqb errorClass rate_limit then 60000 else 15000
  end.

(** The state that the [catch (error)] block writes. *)
Definition failureState (p : ThreadTitleProvider W) (baseState : ThreadTitleState)
  (now : Z) (error : JsError) : ThreadTitleState :=
  let errorClass := classify p error in
  let retryAfterMs := retryDelay p error errorClass in
  if ErrorClass_eqb errorClass permission || ErrorClass_eqb errorClass not_found
  then disabledOnError baseState errorClass
  else retryAfterState baseState now retryAfterMs errorClass.

(** The [catch (error)] block after [setTitle]. *)
Definition onSetTitleError (p : ThreadTitleProvider W) (baseState : ThreadTitleState)
  (now : Z) (title threadKey : string) (error : JsError) (st : Run S W)
  : ThreadTitleResult * Run S W :=
  (mkResult outcome_failed "set_title_failed" (Some title) (Some threadKey)
     (Some (classify p error)),
   storeState (failureState p baseState now error) st).

(** The [try] block around [setTitle] and its [catch]. *)
Definition trySetTitle (p : ThreadTitleProvider W) (target : ThreadTitleTarget)
  (baseState : ThreadTitleState) (now : Z) (title threadKey : string) (st : Run S W)
  : ThreadTitleResult * Run S W :=
  let '(completion, w') := setTitle p target title (world st) in
  let st := mkRun (store st) w' (calls st ++ [CallSetTitle target title]) in
  match completion with
  | Returned _ =>
      (mkResult outcome_applied "applied" (Some title) (Some threadKey) None,
       storeState (appliedState baseState now title) st)
  | Thrown error => onSetTitleError p baseState now title threadKey error st
  end.

(** What a call to the platform leaves behind: the completion of
    [setTitle], the result, and the state written. *)
Definition resultOf (p : ThreadTitleProvider W) (title k : string)
  (completion : Completion unit) : ThreadTitleResult :=
  match completion with
  | Returned _ => mkResult outcome_applied "applied" (Some title) (Some k) None
  | Thrown e =>
      mkResult outcome_failed "set_title_failed" (Some title) (Some k)
        (Some (classify p e))
  end.

Definition writtenOf (p : ThreadTitleProvider W) (base : ThreadTitleState)
  (now : Z) (title : string) (completion : Completion unit) : ThreadTitleState :=
  match completion with
  | Returned _ => appliedState base now title
  | Thrown e => failureState p base now e
  end.

(** The part of [applyThreadTitle] after [baseState] is stored: the
    optional look at the current title, then [setTitle]. *)
Definition checkCurrentTitleThenSet (p : ThreadTitleProvider W)
  (target : ThreadTitleTarget) (baseState : ThreadTitleState) (now : Z)
  (title threadKey : string) (st : Run S W) : ThreadTitleResult * Run S W :=
  match getCurrentTitle p with
  | Some getCurrentTitle =>
      let '(completion, w') := getCurrentTitle target (world st) in
      let st := mkRun (store st) w' (calls st ++ [CallGetCurrentTitle target]) in
      match completion with
      | Returned (Some currentTitle) =>
          if Js.truthy currentTitle
             && negb (ConversationTitle.isDefaultThreadPlaceholder (Some currentTitle))
          then
            (skipped "existing_title_present" (Some threadKey),
             storeState (disabledOnExistingTitle baseState now currentTitle) st)
          else trySetTitle p target baseState now title threadKey st
      | Returned None => trySetTitle p target baseState now title threadKey st
      | Thrown _ =>
          (* Best-effort current-title check. *)
          trySetTitle p target baseState now title threadKey st
      end
  | None => trySetTitle p target baseState now title threadKey st
  end.

(** The guard [!channel || channel !== providerChannel], negated. *)
Definition channelsMatch (params : Params W) : bool :=
  let channel := Js.toLowerCase (Js.trim (channel (target params))) in
  let providerChannel :=
    Js.toLowerCase (Js.trim (providerChannel (provider params))) in
  negb (negb (Js.truthy channel) || negb (String.eqb channel providerChannel)).

(** [(params.provider.resolveThreadKey ?? resolveDefaultThreadKey)(params.target)] *)
Definition threadKeyOf (params : Params W) : option string :=
  let resolveThreadKey :=
    match resolveThreadKey (provider params) with
    | Some f => f
    | None => resolveDefaultThreadKey
    end in
  resolveThreadKey (target params).

(** [baseState], stored before any call to the platform. *)
Definition baseStateOf (existingState : option ThreadTitleState)
  (threadKey title : string) (now : Z) : ThreadTitleState :=
  let attempts :=
    match opt_bind existingState attempts with
    | Some n => n
    | None => 0
    end + 1 in
  mkState threadKey pending (Some attempts) (Some now)
    (opt_bind existingState appliedAt)
    (opt_bind existingState appliedTitle)
    (Some title)
    (opt_bind existingState retryAfter)
    (opt_bind existingState lastErrorClass).

Definition applyThreadTitle (params : Params W) (st : Run S W)
  : ThreadTitleResult * Run S W :=
  if negb (channelsMatch params)
  then (skipped "provider_mismatch" None, st)
  else
    match threadKeyOf params with
    | None => (skipped "unsupported_target" None, st)
    | Some threadKey =>
        if negb (Js.truthy threadKey) then (skipped "unsupported_target" None, st)
        else
          let now := now params in
          let existingState := store_get (store st) threadKey in
          if is_status existingState disabled
          then (skipped "disabled" (Some threadKey), st)
          else if in_cooldown existingState now
          then (skipped "cooldown" (Some threadKey), st)
          else if is_status existingState applied
          then (skipped "already_applied" (Some threadKey), st)
          else
            match ConversationTitle.deriveConversationTitle isControlCommandMessage
                    (primaryText params) (fallbackText params) (maxChars params) with
            | None => (skipped "no_candidate" (Some threadKey), st)
            | Some title =>
                if negb (Js.truthy title)
                then (skipped "no_candidate" (Some threadKey), st)
                else
                  let baseState := baseStateOf existingState threadKey title now in
                  let st := storeState baseState st in
                  checkCurrentTitleThenSet (provider params) (target params)
                    baseState now title threadKey st
            end
    end.

(** A caller that awaits [applyThreadTitle] for each request in turn. *)
Fixpoint applyEach (requests : list (Params W)) (st : Run S W)
  : list ThreadTitleResult * Run S W :=
  match requests with
  | [] => ([], st)
  | params :: more =>
      let '(r, st') := applyThreadTitle params st in
      let '(rs, st'') := applyEach more st' in
      (r :: rs, st'')
  end.

End Apply.

End ThreadTitle.

(* ===================================================================== *)
(** * thread-title-manager.ts: the persisted rename state *)
(* ===================================================================== *)

Module ThreadTitleManager.
Import Re.

Inductive NativeThreadTitleErrorClass : Type :=
| permission | rate_limit | not_found | unknown.

Inductive Status : Type :=
| pending | applied | disabled | retry_after.

Definition Status_eqb (a b : Status) : bool :=
  match a, b with
  | pending, pending | applied, applied
  | disabled, disabled | retry_after, retry_after => true
  | _, _ => false
  end.

Definition ErrorClass_eqb (a b : NativeThreadTitleErrorClass) : bool :=
  match a, b with
  | permission, permission | rate_limit, rate_limit
  | not_found, not_found | unknown, unknown => true
  | _, _ => false
  end.

(** Modelled from the spec: [NativeThreadTitleState] is declared in
    [config/sessions/types], which is outside the files at hand; the
    fields are those of the persisted state entry of the specification. *)
Record NativeThreadTitleState : Type := mkState {
  threadKey : string;
  status : Status;
  attempts : option Z;
  lastAttemptAt : option Z;
  appliedAt : option Z;
  appliedTitle : option string;
  lastProposedTitle : option string;
  retryAfter : option Z;
  lastErrorClass : option NativeThreadTitleErrorClass
}.

(** The part of a session entry that the manager reads and writes. *)
Record SessionEntry : Type := mkEntry {
  nativeThreadTitle : option NativeThreadTitleState
}.

(** Modelled from the spec: [updateSessionStoreEntry] belongs to
    [config/sessions], which is outside the files at hand. The
    specification describes it as the read-modify-write entry point of a
    session entry: the entry of the session key is read, [update] computes a
    patch from it, and the patch, if any, is merged into the entry. The
    result is the entry after the update and is absent when the store has
    no entry for the key. The first component is the returned entry, the
    second one the entry left in the store. *)
Definition updateSessionStoreEntry (entry : option SessionEntry)
  (update : SessionEntry -> option SessionEntry)
  : option SessionEntry * option SessionEntry :=
  match entry with
  | None => (None, None)
  | Some existing =>
      match update existing with
      | None => (Some existing, Some existing)
      | Some patch =>
          let next :=
            mkEntry (match nativeThreadTitle patch with
                     | Some s => Some s
                     | None => nativeThreadTitle existing
                     end) in
          (Some next, Some next)
      end
  end.

Definition RATE_LIMIT_RETRY_MS : Z := 5 * 60000.
Definition NOT_FOUND_RETRY_MS : Z := 30 * 60000.
Definition PENDING_LEASE_MS : Z := 60000.

(** [/\b429\b|rate[\s_-]*limit|too many requests/i] *)
Definition RATE_LIMIT_RE : re :=
  alts [seqs [WordB; lit "429"; WordB];
        seqs [lit "rate"; Star (Cls false [ISpace; IChar "_"; IChar "-"]); lit "limit"];
        lit "too many requests"].

(** [/\b403\b|missing_scope|not enough rights|forbidden|permission|can_manage_topics|not authorized/i] *)
Definition PERMISSION_RE : re :=
  alts [seqs [WordB; lit "403"; WordB]; lit "missing_scope"; lit "not enough rights";
        lit "forbidden"; lit "permission"; lit "can_manage_topics"; lit "not authorized"].

(** [/thread not found|topic not found|chat not found|channel_not_found|\b404\b|not found/i] *)
Definition NOT_FOUND_RE : re :=
  alts [lit "thread not found"; lit "topic not found"; lit "chat not found";
        lit "channel_not_found"; seqs [WordB; lit "404"; WordB]; lit "not found"].

(** [text] is the message of the thrown value. *)
Definition classifyRenameError (text : JsError) : NativeThreadTitleErrorClass :=
  if test true PERMISSION_RE text then permission
  else if test true RATE_LIMIT_RE text then rate_limit
  else if test true NOT_FOUND_RE text then not_found
  else unknown.

Definition resolveRetryDelayMs (errorClass : NativeThreadTitleErrorClass)
  (attempts : Z) : Z :=
  match errorClass with
  | permission => 0
  | rate_limit => RATE_LIMIT_RETRY_MS
  | not_found => NOT_FOUND_RETRY_MS
  | unknown =>
      let exponential := 60000 * 2 ^ (Z.max 0 (attempts - 1)) in
      Z.min exponential (60 * 60000)
  end.

(** Truthiness of [number | undefined]. *)
Definition truthy_num (o : option Z) : bool :=
  match o with Some n => negb (n =? 0) | None => false end.

Definition opt_string_eqb (a : option string) (b : string) : bool :=
  match a with Some x => String.eqb x b | None => false end.

Definition gt_opt (o : option Z) (n : Z) : bool :=
  match o with Some x => x >? n | None => false end.

(** The [update] callback of [markRenameAttempt]; [now] is the reading of
    [Date.now()] taken before the store is updated. *)
Definition markRenameAttempt_update (threadKey title : string) (now : Z)
  (entry : SessionEntry) : option SessionEntry :=
  let state := nativeThreadTitle entry in
  let nextState (attempts : Z) :=
    Some (mkEntry (Some (mkState threadKey pending (Some (attempts + 1)) (Some now)
                           None None (Some title) None None))) in
  match state with
  | Some s =>
      if String.eqb (ThreadTitleManager.threadKey s) threadKey then
        if Status_eqb (status s) disabled then None
        else if Status_eqb (status s) applied then None
        else
          let titleChanged := negb (opt_string_eqb (lastProposedTitle s) title) in
          let canRetryEarly :=
            Status_eqb (status s) retry_after
            && match lastErrorClass s with
               | Some c => ErrorClass_eqb c unknown
               | None => false
               end
            && titleChanged in
          if truthy_num (retryAfter s) && gt_opt (retryAfter s) now && negb canRetryEarly
          then None
          else if Status_eqb (status s) pending
                  && truthy_num (lastAttemptAt s)
                  && match lastAttemptAt s with
                     | Some t => now - t <? PENDING_LEASE_MS
                     | None => false
                     end
          then None
          else nextState (match attempts s with Some n => n | None => 0 end)
      else nextState 0
  | None => nextState 0
  end.

Record AttemptDecision : Type := mkDecision {
  shouldApply : bool;
  decidedAttempts : Z
}.

(** [markRenameAttempt]: the decision, and the entry left in the store. *)
Definition markRenameAttempt (sessionKey : option string) (threadKey title : string)
  (now : Z) (entry : option SessionEntry) : AttemptDecision * option SessionEntry :=
  if negb (Js.truthy_opt sessionKey) then (mkDecision true 1, entry)
  else
    let '(updated, stored) :=
      updateSessionStoreEntry entry (markRenameAttempt_update threadKey title now) in
    match match updated with Some e => nativeThreadTitle e | None => None end with
    | Some state =>
        if negb (String.eqb (ThreadTitleManager.threadKey state) threadKey)
           || negb (Status_eqb (status state) pending)
        then (mkDecision false (match attempts state with Some n => n | None => 0 end),
              stored)
        else (mkDecision true (match attempts state with Some n => n | None => 1 end),
              stored)
    | None => (mkDecision false 0, stored)
    end.

(** The [update] callback of [markRenameResult]. Each field that the
    source fills with its own call of [Date.now()] has its own reading:
    [nowAttempt] for [lastAttemptAt], [nowApplied] for [appliedAt] and
    [nowRetry] for [retryAfter]. *)
Definition markRenameResult_update (threadKey title : string) (attempts : Z)
  (errorClass : option NativeThreadTitleErrorClass)
  (nowAttempt nowApplied nowRetry : Z) (entry : SessionEntry) : option SessionEntry :=
  match nativeThreadTitle entry with
  | None => None
  | Some state =>
      if negb (String.eqb (ThreadTitleManager.threadKey state) threadKey) then None
      else
        match errorClass with
        | None =>
            Some (mkEntry (Some (mkState threadKey applied (Some attempts)
                                   (Some nowAttempt) (Some nowApplied) (Some title)
                                   (Some title) None None)))
        | Some permission =>
            Some (mkEntry (Some (mkState (ThreadTitleManager.threadKey state) disabled
                                   (Some attempts) (Some nowAttempt) (appliedAt state)
                                   (appliedTitle state) (lastProposedTitle state)
                                   (retryAfter state) (Some permission))))
        | Some errorClass =>
            let retryDelayMs := resolveRetryDelayMs errorClass attempts in
            Some (mkEntry (Some (mkState (ThreadTitleManager.threadKey state) retry_after
                                   (Some attempts) (Some nowAttempt) (appliedAt state)
                                   (appliedTitle state) (lastProposedTitle state)
                                   (Some (nowRetry + retryDelayMs)) (Some errorClass))))
        end
  end.

(** [markRenameResult]: the entry left in the store. *)
Definition markRenameResult (sessionKey : option string) (threadKey title : string)
  (attempts : Z) (errorClass : option NativeThreadTitleErrorClass)
  (nowAttempt nowApplied nowRetry : Z) (entry : option SessionEntry)
  : option SessionEntry :=
  if negb (Js.truthy_opt sessionKey) then entry
  else
    snd (updateSessionStoreEntry entry
           (markRenameResult_update threadKey title attempts errorClass
              nowAttempt nowApplied nowRetry)).

End ThreadTitleManager.

(* ===================================================================== *)
(** * Effects: a state and exception monad for [try], [catch], [finally] *)
(* ===================================================================== *)

Module Eff.

(** A computation over a state [St] that returns or throws. *)
Definition t (St A : Type) : Type := St -> Completion A * St.

Definition ret {St A} (a : A) : t St A := fun s => (Returned a, s).

Definition throw {St A} (e : JsError) : t St A := fun s => (Thrown e, s).

Definition bind {St A B} (c : t St A) (k : A -> t St B) : t St B :=
  fun s =>
    match c s with
    | (Returned a, s') => k a s'
    | (Thrown e, s') => (Thrown e, s')
    end.

(** [await p] for a promise whose settlement is known. *)
Definition await {St A} (p : Completion A) : t St A := fun s => (p, s).

Definition get {St} : t St St := fun s => (Returned s, s).

Definition modify {St} (f : St -> St) : t St unit := fun s => (Returned tt, f s).

(** [try { body } catch (e) { handler e }] *)
Definition try_catch {St A} (body : t St A) (handler : JsError -> t St A) : t St A :=
  fun s =>
    match body s with
    | (Returned a, s') => (Returned a, s')
    | (Thrown e, s') => handler e s'
    end.

(** [try { body } finally { fin }]: the completion of [body] stands unless
    [fin] throws. *)
Definition try_finally {St A} (body : t St A) (fin : t St unit) : t St A :=
  fun s =>
    match body s with
    | (completion, s') =>
        match fin s' with
        | (Returned _, s'') => (completion, s'')
        | (Thrown e, s'') => (Thrown e, s'')
        end
    end.

(** [p.catch(() => v)]: a promise that never rejects. *)
Definition caught {A} (p : Completion A) (v : A) : Completion A :=
  match p with
  | Returned a => Returned a
  | Thrown _ => Returned v
  end.

End Eff.

Declare Scope eff_scope.
Delimit Scope eff_scope with eff.
Notation "x <- c ;; k" := (Eff.bind c (fun x => k))
  (at level 61, c at next level, right associativity) : eff_scope.
Notation "c ;;; k" := (Eff.bind c (fun _ => k))
  (at level 61, right associativity) : eff_scope.

(* ===================================================================== *)
(** * thread-title-llm.ts: what the two snapshots share *)
(* ===================================================================== *)

Module ThreadTitleLlm.
Import Re.

Inductive ThreadTitleStrategy : Type :=
| deterministic | llm | hybrid.

(** [agents.defaults.model]: a string, or an object with a [primary]. *)
Inductive ModelSetting : Type :=
| ModelString (s : string)
| ModelObject (primary : option string).

(** Modelled from the spec: [OpenClawConfig] is declared in
    [config/config], which is outside the files at hand; these are the
    fields the title generator reads: [env.vars], the entries of [env]
    itself, and [agents.defaults.model]. Only string values are kept, since
    the readers test [typeof value === "string"]. *)
Record OpenClawConfig : Type := mkConfig {
  envVars : list (string * string);
  envSugar : list (string * string);
  defaultModel : option ModelSetting
}.

Definition ProcessEnv : Type := list (string * string).

Definition lookup (m : list (string * string)) (key : string) : option string :=
  match find (fun kv => String.eqb (fst kv) key) m with
  | Some kv => Some (snd kv)
  | None => None
  end.

Record ModelRef : Type := mkModelRef {
  refProvider : string;
  refModel : string
}.

Definition SUPPORTED_PROVIDERS : list string := ["google"; "anthropic"].

Definition normalizeStrategy (raw : option string) : ThreadTitleStrategy :=
  match raw with
  | Some r =>
      let value := Js.toLowerCase (Js.trim r) in
      if String.eqb value "llm" then llm
      else if String.eqb value "hybrid" then hybrid
      else deterministic
  | None => deterministic
  end.

Definition normalizeThreadTitleModelRef (raw : option string) : option string :=
  match raw with
  | None => None
  | Some r =>
      let trimmed := Js.trim r in
      if negb (Js.truthy trimmed) then None
      else if Js.includes "/" trimmed then Some trimmed
      else
        let lower := Js.toLowerCase trimmed in
        if Js.includes "gemini" lower then Some ("google/" ++ trimmed)
        else if Js.includes "claude" lower then Some ("anthropic/" ++ trimmed)
        else Some trimmed
  end.

Definition CR : ascii := "013"%char.
Definition LF : ascii := "010"%char.

(** [raw.split(/\r?\n/)]: every match of the separator is first turned
    into a line feed, then the text is split on line feeds. *)
Definition split_lines (raw : string) : list string :=
  Js.split_on LF
    (replace_all false (Seq (opt (Chr CR)) (Chr LF)) (const (String LF EmptyString)) raw).

Definition sanitizeLlmTitleCandidate (raw : string) : option string :=
  let firstLine :=
    find (fun line => (0 <? Js.len line)) (map Js.trim (split_lines raw)) in
  match firstLine with
  | None => None
  | Some firstLine =>
      if negb (Js.truthy firstLine) then None
      else
        let cleaned :=
          Js.trim
            (replace_all false (plus space) (const " ")
               (replace_all false
                  (Alt (Seq Bol (plus ConversationTitle.quotes))
                       (Seq (plus ConversationTitle.quotes) Eol))
                  (const "")
                  (replace_first false (seqs [Bol; plus (Chr "#"); Star space])
                     (const "") firstLine))) in
        Js.or_undefined cleaned
  end.

(** What the generator may resolve to: nothing, or a sanitised title. *)
Definition sanitized (result : option string) : Prop :=
  result = None \/ exists raw title, sanitizeLlmTitleCandidate raw = Some title
                                     /\ result = Some title.

Definition resolveConfigEnvVar (cfg : OpenClawConfig) (key : string) : option string :=
  match lookup (envVars cfg) key with
  | Some nested =>
      if 0 <? Js.len (Js.trim nested) then Some nested
      else match lookup (envSugar cfg) key with
           | Some sugar => if 0 <? Js.len (Js.trim sugar) then Some sugar else None
           | None => None
           end
  | None =>
      match lookup (envSugar cfg) key with
      | Some sugar => if 0 <? Js.len (Js.trim sugar) then Some sugar else None
      | None => None
      end
  end.

Definition resolveThreadTitleEnvValue (cfg : option OpenClawConfig) (env : ProcessEnv)
  (key : string) : option string :=
  let fromConfig :=
    match cfg with
    | Some c => resolveConfigEnvVar c key
    | None => None
    end in
  if Js.truthy_opt fromConfig then fromConfig
  else
    match lookup env key with
    | Some fromProcess =>
        if 0 <? Js.len (Js.trim fromProcess) then Some fromProcess else None
    | None => None
    end.

(** The value of a run of decimal digits, most significant first. *)
Fixpoint digits_value (acc : Z) (s : string) : Z * nat :=
  match s with
  | String c s' =>
      if Js.is_digit c
      then let '(v, n) :=
             digits_value (10 * acc + Z.of_N (Js.code c - 48)) s' in (v, Datatypes.S n)
      else (acc, O)
  | EmptyString => (acc, O)
  end.

(** [Number.parseInt(s, 10)]: leading white space, an optional sign, then
    digits; [None] stands for [NaN]. *)
Definition parseInt10 (s : string) : option Z :=
  let t := Js.trimStart s in
  let '(sign, body) :=
    match t with
    | String "-" r => (-1, r)
    | String "+" r => (1, r)
    | _ => (1, t)
    end in
  match digits_value 0 body with
  | (_, O) => None
  | (v, _) => Some (sign * v)
  end.

Record ThreadTitleLlmSettings : Type := mkSettings {
  strategy : ThreadTitleStrategy;
  modelRef : option string;
  timeoutMs : Z;
  allowOverwriteCurrentTitle : bool
}.

(** [resolveThreadTitleLlmSettings]. The two snapshots differ in
    [DEFAULT_TIMEOUT_MS] (12000 and 3000) and in the lower bound of the
    timeout (3000 and 1): both are arguments here. *)
Definition resolveThreadTitleLlmSettings (DEFAULT_TIMEOUT_MS minTimeoutMs : Z)
  (cfg : option OpenClawConfig) (env : ProcessEnv) : ThreadTitleLlmSettings :=
  let strategy :=
    normalizeStrategy (resolveThreadTitleEnvValue cfg env "OPENCLAW_THREAD_TITLE_STRATEGY") in
  let configuredModelRef :=
    normalizeThreadTitleModelRef
      (resolveThreadTitleEnvValue cfg env "OPENCLAW_THREAD_TITLE_MODEL") in
  let timeoutRaw :=
    parseInt10
      (match resolveThreadTitleEnvValue cfg env "OPENCLAW_THREAD_TITLE_TIMEOUT_MS" with
       | Some v => v
       | None => EmptyString
       end) in
  let timeoutMs :=
    match timeoutRaw with
    | Some n => if n >? 0 then Z.min 60000 (Z.max minTimeoutMs n) else DEFAULT_TIMEOUT_MS
    | None => DEFAULT_TIMEOUT_MS
    end in
  let allowOverwriteRaw :=
    match resolveThreadTitleEnvValue cfg env "OPENCLAW_THREAD_TITLE_OVERWRITE_EXISTING" with
    | Some v => Some (Js.toLowerCase (Js.trim v))
    | None => None
    end in
  let allowOverwriteCurrentTitle :=
    match allowOverwriteRaw with
    | Some v => String.eqb v "1" || String.eqb v "true" || String.eqb v "yes"
    | None => false
    end in
  mkSettings strategy configuredModelRef timeoutMs allowOverwriteCurrentTitle.

Definition quoted (s : string) : string :=
  String Js.dquote (s ++ String Js.dquote EmptyString).

Definition example (request name : string) : string :=
  quoted request ++ " -> " ++ quoted name.

(** The prompt: the same lines in both snapshots ([buildTitlePrompt] in
    the later one). *)
Definition buildTitlePrompt (maxChars : Z) (sourceText : string) : string :=
  Js.join (String LF EmptyString)
    [ "Name a chat topic in 13-" ++ Js.string_of_Z maxChars
        ++ " chars. Title case. Output ONLY the name.";
      "Capture the action and subject. Never abbreviate words except: API, CLI, DB, TG, CI, UI.";
      "";
      example "turn on the living room lights" "Turn On Lights";
      example "can you check my recent emails" "Check Emails";
      example "the deploy pipeline is broken" "Fix Deploy";
      example "how should i configure nginx" "Config Nginx";
      example "send a message to the team" "Team Message";
      example "why does the icon look wrong" "Fix Icon";
      example "start the migration to v2" "Migrate To V2";
      example "cleanup after testing" "Cleanup Testing";
      example "help me write a blog post" "Write Blog Post";
      example "what is the weather today" "Weather Today";
      "";
      sourceText ].

Definition opt_trim (o : option string) : option string :=
  match o with Some s => Some (Js.trim s) | None => None end.

(** [[primaryText, fallbackText].filter(Boolean).join("\n\n").slice(0, 6000)] *)
Definition buildSourceText (primaryText fallbackText : option string) : string :=
  Js.slice0 6000
    (Js.join (String LF (String LF EmptyString))
       (flat_map (fun o => match o with
                           | Some s => if Js.truthy s then [s] else []
                           | None => []
                           end)
          [primaryText; fallbackText])).

Record Params : Type := mkParams {
  cfg : OpenClawConfig;
  primaryText : option string;
  fallbackText : option string;
  maxChars : Z;
  paramModelRef : option string;
  paramTimeoutMs : option Z
}.

(** The model reference of a call: the explicit one, else the default
    model of the configuration. *)
Definition configuredModelRef (params : Params) : option string :=
  let defaultModelRef :=
    match defaultModel (cfg params) with
    | Some (ModelString s) => Some s
    | Some (ModelObject primary) => primary
    | None => None
    end in
  match normalizeThreadTitleModelRef (paramModelRef params) with
  | Some r => Some r
  | None => normalizeThreadTitleModelRef defaultModelRef
  end.

End ThreadTitleLlm.

(* ===================================================================== *)
(** * thread-title-llm.ts, the snapshot that runs the embedded agent *)
(* ===================================================================== *)

Module ThreadTitleLlmAgent.
Import ThreadTitleLlm.
Local Open Scope eff_scope.

Definition DEFAULT_TIMEOUT_MS : Z := 12000.

Definition resolveThreadTitleLlmSettings :=
  ThreadTitleLlm.resolveThreadTitleLlmSettings DEFAULT_TIMEOUT_MS 3000.

Record Payload : Type := mkPayload {
  text : option string;
  isError : option bool
}.

Record AgentResult : Type := mkAgentResult {
  payloads : option (list Payload)
}.

Record AgentRun : Type := mkAgentRun {
  sessionId : string;
  sessionKey : string;
  agentId : string;
  sessionFile : string;
  workspaceDir : string;
  agentDir : string;
  prompt : string;
  runProvider : string;
  runModel : string;
  runTimeoutMs : Z;
  runId : string
}.

(** What the generator calls outside itself. [parseModelRef] belongs to
    [agents/model-selection], the agent helpers to [agents/agent-scope] and
    [agents/pi-embedded]; none of them is among the files at hand, so they
    are parameters. [parseModelRef] is a function that returns a reference
    or nothing; every other call may throw or reject. [dateNow] is the
    reading of [Date.now()]. *)
Record Env : Type := mkEnv {
  parseModelRef : string -> string -> option ModelRef;
  mkdtemp : string -> Completion string;
  resolveDefaultAgentId : OpenClawConfig -> Completion string;
  resolveAgentWorkspaceDir : OpenClawConfig -> string -> Completion string;
  resolveAgentDir : OpenClawConfig -> string -> Completion string;
  runEmbeddedPiAgent : AgentRun -> Completion AgentResult;
  rm : string -> Completion unit;
  dateNow : Z
}.

Inductive Effect : Type :=
| MadeTempDir (dir : string)
| RanAgent (run : AgentRun)
| RemovedDir (dir : string)
| LoggedDebug (message : string).

(** The local variable [tempDir] and the effects so far, oldest first. *)
Record Local : Type := mkLocal {
  tempDir : option string;
  effects : list Effect
}.


Definition emit (e : Effect) : Eff.t Local unit :=
  Eff.modify (fun l => mkLocal (tempDir l) (effects l ++ [e])).

Definition set_tempDir (dir : string) : Eff.t Local unit :=
  Eff.modify (fun l => mkLocal (Some dir) (effects l)).

(** The first payload text that is not an error and is not empty once
    trimmed, else the empty string. *)
Definition rawTextOf (result : AgentResult) : string :=
  match payloads result with
  | None => EmptyString
  | Some ps =>
      match
        find (fun t => match t with
                       | Some s => Js.truthy s && (0 <? Js.len s)
                       | None => false
                       end)
          (map (fun p => opt_trim (text p))
             (filter (fun p => negb (match isError p with
                                      | Some true => true
                                      | _ => false
                                      end)) ps))
      with
      | Some (Some s) => s
      | _ => EmptyString
      end
  end.

(** The body of the [try] block. *)
Definition tryBody (env : Env) (params : Params) (parsedRef : ModelRef)
  (sourceText : string) : Eff.t Local (option string) :=
  dir <- Eff.await (mkdtemp env "openclaw-thread-title-") ;;
  set_tempDir dir ;;;
  emit (MadeTempDir dir) ;;;
  let sessionFile := dir ++ "/session.jsonl" in
  agentId <- Eff.await (resolveDefaultAgentId env (cfg params)) ;;
  workspaceDir <- Eff.await (resolveAgentWorkspaceDir env (cfg params) agentId) ;;
  agentDir <- Eff.await (resolveAgentDir env (cfg params) agentId) ;;
  let prompt := buildTitlePrompt (maxChars params) sourceText in
  let run :=
    mkAgentRun ("thread-title-generator-" ++ Js.string_of_Z (dateNow env))
      "temp:thread-title-generator" agentId sessionFile workspaceDir agentDir prompt
      (refProvider parsedRef) (refModel parsedRef)
      (match paramTimeoutMs params with Some ms => ms | None => DEFAULT_TIMEOUT_MS end)
      ("thread-title-gen-" ++ Js.string_of_Z (dateNow env)) in
  emit (RanAgent run) ;;;
  result <- Eff.await (runEmbeddedPiAgent env run) ;;
  Eff.ret (sanitizeLlmTitleCandidate (rawTextOf result)).

(** The [catch (err)] block. *)
Definition onError (err : JsError) : Eff.t Local (option string) :=
  emit (LoggedDebug ("thread title generation failed: " ++ err)) ;;;
  Eff.ret None.

(** The [finally] block. *)
Definition cleanup (env : Env) : Eff.t Local unit :=
  l <- Eff.get ;;
  match tempDir l with
  | Some dir =>
      if Js.truthy dir
      then emit (RemovedDir dir) ;;; Eff.await (Eff.caught (rm env dir) tt)
      else Eff.ret tt
  | None => Eff.ret tt
  end.

Definition generateThreadTitleViaLLM (env : Env) (params : Params)
  : Eff.t Local (option string) :=
  let primaryText := opt_trim (primaryText params) in
  let fallbackText := opt_trim (fallbackText params) in
  if negb (Js.truthy_opt primaryText) && negb (Js.truthy_opt fallbackText)
  then Eff.ret None
  else
    match configuredModelRef params with
    | None => Eff.ret None
    | Some configuredModelRef =>
        if negb (Js.truthy configuredModelRef) then Eff.ret None
        else
          match parseModelRef env configuredModelRef "anthropic" with
          | None => Eff.ret None
          | Some parsedRef =>
              if negb (Js.set_has SUPPORTED_PROVIDERS (refProvider parsedRef))
              then Eff.ret None
              else
                let sourceText := buildSourceText primaryText fallbackText in
                if negb (Js.truthy sourceText) then Eff.ret None
                else
                  Eff.try_finally
                    (Eff.try_catch (tryBody env params parsedRef sourceText) onError)
                    (cleanup env)
          end
    end.

End ThreadTitleLlmAgent.

(* ===================================================================== *)
(** * thread-title-llm.ts, the snapshot that calls the providers over HTTP *)
(* ===================================================================== *)

Module ThreadTitleLlmFetch.
Import ThreadTitleLlm.
Local Open Scope eff_scope.

Definition DEFAULT_TIMEOUT_MS : Z := 3000.

Definition resolveThreadTitleLlmSettings :=
  ThreadTitleLlm.resolveThreadTitleLlmSettings DEFAULT_TIMEOUT_MS 1.

(** A parsed JSON document. *)
#[local] Unset Elimination Schemes.
Inductive Json : Type :=
| JNull
| JBool (b : bool)
| JNum (n : Z)
| JStr (s : string)
| JArr (items : list Json)
| JObj (fields : list (string * Json)).
#[local] Set Elimination Schemes.

Inductive RequestBody : Type :=
| GoogleBody (prompt : string)
| AnthropicBody (model prompt : string).

Record Request : Type := mkRequest {
  url : string;
  headers : list (string * string);
  body : RequestBody
}.

Record Response : Type := mkResponse {
  ok : bool;
  status : Z;
  text : Completion string;
  json : Completion Json
}.

(** What the generator calls outside itself: [parseModelRef] (from
    [agents/model-selection], a parameter), the environment of the process
    and [fetch]. A fetch that the abort signal cancels is a fetch that
    rejects. *)
Record Env : Type := mkEnv {
  parseModelRef : string -> string -> option ModelRef;
  processEnv : ProcessEnv;
  fetch : Request -> Completion Response
}.

Inductive Effect : Type :=
| SetTimeout (ms : Z)
| Fetched (request : Request)
| ClearedTimeout
| LoggedDebug (message : string).

(** The effects so far, oldest first. *)
Definition Local : Type := list Effect.

Definition emit (e : Effect) : Eff.t Local unit :=
  Eff.modify (fun l => (l ++ [e])%list).

Definition resolveGoogleApiKey (cfg : option OpenClawConfig) (env : ProcessEnv)
  : option string :=
  match resolveThreadTitleEnvValue cfg env "GEMINI_API_KEY" with
  | Some k => Some k
  | None => resolveThreadTitleEnvValue cfg env "GOOGLE_API_KEY"
  end.

Definition resolveAnthropicApiKey (cfg : option OpenClawConfig) (env : ProcessEnv)
  : option string :=
  resolveThreadTitleEnvValue cfg env "ANTHROPIC_API_KEY".

(** ** Reading a JSON document *)

Definition field (name : string) (fields : list (string * Json)) : option Json :=
  match find (fun kv => String.eqb (fst kv) name) fields with
  | Some kv => Some (snd kv)
  | None => None
  end.

(** [value.name] on a value that is neither [null] nor [undefined]. *)
Definition prop (name : string) (value : Json) : option Json :=
  match value with
  | JObj fields => field name fields
  | _ => None
  end.

(** [value[0]] on a value that is neither [null] nor [undefined]. *)
Definition index0 (value : Json) : option Json :=
  match value with
  | JArr items => hd_error items
  | JStr (String c _) => Some (JStr (String c EmptyString))
  | JObj fields => field "0" fields
  | _ => None
  end.

(** [value?.step]: [undefined] and [null] end the chain. *)
Definition chain (value : option Json) (step : Json -> option Json) : option Json :=
  match value with
  | None | Some JNull => None
  | Some v => step v
  end.

(** [value?.trim() || undefined]: a value that is not a string has no
    [trim] to call. *)
Definition trimmedText (value : option Json) : Completion (option string) :=
  match value with
  | None | Some JNull => Returned None
  | Some (JStr s) => Returned (Js.or_undefined (Js.trim s))
  | Some _ => Thrown "TypeError: trim is not a function"
  end.

(** [json.candidates?.[0]?.content?.parts?.[0]?.text?.trim() || undefined] *)
Definition googleText (doc : Json) : Completion (option string) :=
  match doc with
  | JNull => Thrown "TypeError: cannot read properties of null"
  | _ =>
      trimmedText
        (chain (chain (chain (chain (chain (prop "candidates" doc) index0)
                                (prop "content")) (prop "parts")) index0)
           (prop "text"))
  end.

(** [json.content?.[0]?.text?.trim() || undefined] *)
Definition anthropicText (doc : Json) : Completion (option string) :=
  match doc with
  | JNull => Thrown "TypeError: cannot read properties of null"
  | _ => trimmedText (chain (chain (prop "content" doc) index0) (prop "text"))
  end.

Definition fetchGoogleTitle (env : Env) (model prompt apiKey : string)
  : Eff.t Local (option string) :=
  let request :=
    mkRequest
      ("https://generativelanguage.googleapis.com/v1beta/models/" ++ model
         ++ ":generateContent?key=" ++ apiKey)
      [("Content-Type", "application/json")]
      (GoogleBody prompt) in
  emit (Fetched request) ;;;
  resp <- Eff.await (fetch env request) ;;
  if negb (ok resp) then
    detail <- Eff.await (Eff.caught (text resp) EmptyString) ;;
    emit (LoggedDebug ("google title API " ++ Js.string_of_Z (status resp) ++ ": " ++ detail)) ;;;
    Eff.ret None
  else
    doc <- Eff.await (json resp) ;;
    Eff.await (googleText doc).

Definition fetchAnthropicTitle (env : Env) (model prompt apiKey : string)
  : Eff.t Local (option string) :=
  let request :=
    mkRequest "https://api.anthropic.com/v1/messages"
      [("Content-Type", "application/json"); ("x-api-key", apiKey);
       ("anthropic-version", "2023-06-01")]
      (AnthropicBody model prompt) in
  emit (Fetched request) ;;;
  resp <- Eff.await (fetch env request) ;;
  if negb (ok resp) then
    detail <- Eff.await (Eff.caught (text resp) EmptyString) ;;
    emit (LoggedDebug ("anthropic title API " ++ Js.string_of_Z (status resp) ++ ": " ++ detail)) ;;;
    Eff.ret None
  else
    doc <- Eff.await (json resp) ;;
    Eff.await (anthropicText doc).

(** The body of the [try] block. *)
Definition tryBody (env : Env) (parsedRef : ModelRef) (prompt apiKey : string)
  : Eff.t Local (option string) :=
  rawText <-
    (if String.eqb (refProvider parsedRef) "google"
     then fetchGoogleTitle env (refModel parsedRef) prompt apiKey
     else fetchAnthropicTitle env (refModel parsedRef) prompt apiKey) ;;
  match rawText with
  | None => Eff.ret None
  | Some rawText =>
      if negb (Js.truthy rawText) then Eff.ret None
      else Eff.ret (sanitizeLlmTitleCandidate rawText)
  end.

(** The [catch (err)] block. *)
Definition onError (parsedRef : ModelRef) (err : JsError)
  : Eff.t Local (option string) :=
  emit (LoggedDebug ("thread title generation failed or timed out ("
                       ++ refProvider parsedRef ++ "/" ++ refModel parsedRef ++ "): "
                       ++ err)) ;;;
  Eff.ret None.

Definition generateThreadTitleViaLLM (env : Env) (params : Params)
  : Eff.t Local (option string) :=
  let primaryText := opt_trim (primaryText params) in
  let fallbackText := opt_trim (fallbackText params) in
  if negb (Js.truthy_opt primaryText) && negb (Js.truthy_opt fallbackText)
  then Eff.ret None
  else
    match configuredModelRef params with
    | None => Eff.ret None
    | Some configuredModelRef =>
        if negb (Js.truthy configuredModelRef) then Eff.ret None
        else
          match parseModelRef env configuredModelRef "anthropic" with
          | None => Eff.ret None
          | Some parsedRef =>
              if negb (Js.set_has SUPPORTED_PROVIDERS (refProvider parsedRef))
              then Eff.ret None
              else
                let apiKey :=
                  if String.eqb (refProvider parsedRef) "google"
                  then resolveGoogleApiKey (Some (cfg params)) (processEnv env)
                  else resolveAnthropicApiKey (Some (cfg params)) (processEnv env) in
                match apiKey with
                | None =>
                    emit (LoggedDebug ("no API key for " ++ refProvider parsedRef
                                         ++ ", skipping LLM title generation")) ;;;
                    Eff.ret None
                | Some apiKey =>
                    if negb (Js.truthy apiKey)
                    then
                      emit (LoggedDebug ("no API key for " ++ refProvider parsedRef
                                           ++ ", skipping LLM title generation")) ;;;
                      Eff.ret None
                    else
                      let sourceText := buildSourceText primaryText fallbackText in
                      if negb (Js.truthy sourceText) then Eff.ret None
                      else
                        let prompt := buildTitlePrompt (maxChars params) sourceText in
                        let timeoutMs :=
                          match paramTimeoutMs params with
                          | Some ms => ms
                          | None => DEFAULT_TIMEOUT_MS
                          end in
                        emit (SetTimeout timeoutMs) ;;;
                        Eff.try_finally
                          (Eff.try_catch (tryBody env parsedRef prompt apiKey)
                             (onError parsedRef))
                          (emit ClearedTimeout)
                end
          end
    end.

End ThreadTitleLlmFetch.

(* ===================================================================== *)
(** * Placeholder tokens: the texts that consist of nothing else *)
(* ===================================================================== *)

Module Placeholders.

(** The words of [SLACK_MEDIA_PLACEHOLDER_TOKEN_RE]. *)
Inductive AttachmentWord : Type :=
| SlackFile | ForwardedImage | Attached.

Definition wordText (w : AttachmentWord) : string :=
  match w with
  | SlackFile => "Slack file"
  | ForwardedImage => "Forwarded image"
  | Attached => "attached"
  end.

(** A placeholder token as a channel writes it: a media marker with its
    kind, or an attachment marker, with or without the name of the file. *)
Inductive Placeholder : Type :=
| MediaToken (kind : string)
| AttachmentToken (word : AttachmentWord) (name : string)
| BareAttachment (word : AttachmentWord).

Definition placeholderText (t : Placeholder) : string :=
  match t with
  | MediaToken kind => "<media:" ++ kind ++ ">"
  | AttachmentToken word name => "[" ++ wordText word ++ ": " ++ name ++ "]"
  | BareAttachment word => "[" ++ wordText word ++ "]"
  end.

(** A character of a kind or of a file name: it is not white space and it
    is none of the characters that delimit a token, a mention or an
    annotation. *)
Definition plainChar (c : ascii) : bool :=
  negb (Js.is_space c
        || existsb (Ascii.eqb c) (list_ascii_of_string "<>[]:@")).

Fixpoint allPlain (s : string) : bool :=
  match s with
  | EmptyString => true
  | String c s' => plainChar c && allPlain s'
  end.

Definition plainName (s : string) : bool := Js.truthy s && allPlain s.

Definition wellFormed (t : Placeholder) : bool :=
  match t with
  | MediaToken kind => plainName kind
  | AttachmentToken _ name => plainName name
  | BareAttachment _ => true
  end.

(** The tokens of a message, one space between two of them. *)
Fixpoint placeholdersText (ts : list Placeholder) : string :=
  match ts with
  | [] => EmptyString
  | [t] => placeholderText t
  | t :: more => placeholderText t ++ " " ++ placeholdersText more
  end.

End Placeholders.

(* ===================================================================== *)
(** * Sample providers, targets and stores *)
(* ===================================================================== *)

Module Samples.
Import ThreadTitle.

(** A stand-in for [isControlCommandMessage]: the one command [stop]. *)
Definition isControl (s : string) : bool := String.eqb (Js.toLowerCase s) "stop".

Definition slackTarget : ThreadTitleTarget :=
  mkTarget "slack" None (Some "C123") (Some (TidString "1711111111.000100")) None.

Definition slackKey : string := "slack:C123:1711111111.000100".

(** A provider whose [setTitle] resolves. *)
Definition okProvider : ThreadTitleProvider unit :=
  mkProvider unit "slack" None None (fun _ _ w => (Returned tt, w)) None None.

(** A provider whose [setTitle] rejects, with a classifier that answers
    [c] and a [retryAfterMs] hook that answers [ms]. *)
Definition failingProvider (c : ThreadTitleErrorClass) (ms : option Z)
  : ThreadTitleProvider unit :=
  mkProvider unit "slack" None None (fun _ _ w => (Thrown "rejected", w))
    (Some (fun _ => c)) (Some (fun _ _ => ms)).

(** A provider that fails without a [retryAfterMs] hook. *)
Definition plainFailingProvider (c : ThreadTitleErrorClass)
  : ThreadTitleProvider unit :=
  mkProvider unit "slack" None None (fun _ _ w => (Thrown "rejected", w))
    (Some (fun _ => c)) None.

(** A provider of a thread that already has the title [current]. *)
Definition namedProvider (current : string) : ThreadTitleProvider unit :=
  mkProvider unit "slack" None (Some (fun _ w => (Returned (Some current), w)))
    (fun _ _ w => (Returned tt, w)) None None.

Definition request (p : ThreadTitleProvider unit) (text : string) (now : Z)
  : Params unit :=
  mkParams unit p slackTarget (Some text) None 80 now.

Definition emptyRun : Run InMemoryStore unit :=
  mkRun defaultStateStore tt [].

(** A store that holds one state for the sample thread. *)
Definition runWith (state : ThreadTitleState) : Run InMemoryStore unit :=
  mkRun (mkStore [(slackKey, state)] DEFAULT_MAX_ENTRIES) tt [].

Definition retryState (c : ThreadTitleErrorClass) (proposed : string)
  (attemptedAt until : Z) : ThreadTitleState :=
  mkState slackKey retry_after (Some 1) (Some attemptedAt) None None (Some proposed)
    (Some until) (Some c).

Definition managerKey : string := "telegram:default:123:dm:55".

Definition managerSession : option string :=
  Some "agent:main:telegram:direct:123:thread:55".

(** A session entry whose rename is in flight. *)
Definition pendingEntry : ThreadTitleManager.SessionEntry :=
  ThreadTitleManager.mkEntry
    (Some (ThreadTitleManager.mkState managerKey ThreadTitleManager.pending (Some 1)
             (Some 1000) None None (Some "Better Thread Title") None None)).

(** A session entry that waits for a retry after a failure of class [c]. *)
Definition waitingEntry (c : ThreadTitleManager.NativeThreadTitleErrorClass)
  (proposed : string) (until : Z) : ThreadTitleManager.SessionEntry :=
  ThreadTitleManager.mkEntry
    (Some (ThreadTitleManager.mkState managerKey ThreadTitleManager.retry_after (Some 1)
             (Some 1000) None None (Some proposed) (Some until) (Some c))).

End Samples.

(* ===================================================================== *)
(** * Shapes of texts: what the placeholder-only messages look like *)
(* ===================================================================== *)

Module TextShape.
Import Re.

Definition notAt (c : ascii) : bool := negb (chr_eq false "@" c).

Definition headIs (P : ascii -> bool) (s : string) : bool :=
  match s with String c _ => P c | EmptyString => false end.

Definition tail (s : string) : string :=
  match s with String _ t => t | EmptyString => EmptyString end.

(** No colon comes right after the letters i and d. *)
Fixpoint noIdColon (s : string) : bool :=
  match s with
  | EmptyString => true
  | String c1 s1 =>
      negb (chr_eq true "i" c1
            && (headIs (chr_eq true "d") s1 && headIs (chr_eq true ":") (tail s1)))
      && noIdColon s1
  end.

(** Every white space is one space, and something else follows it. *)
Fixpoint singleSpaced (s : string) : bool :=
  match s with
  | EmptyString => true
  | String c s' =>
      (if Js.is_space c
       then chr_eq false " " c && headIs (fun d => negb (Js.is_space d)) s'
       else true)
      && singleSpaced s'
  end.

(** The first character opens a token. *)
Definition opensToken (s : string) : bool :=
  headIs (fun c => Ascii.eqb c "<" || Ascii.eqb c "[") s.

(** What may follow a token: nothing, or one space and the opening of the
    next token. *)
Definition tokenTail (s : string) : bool :=
  match s with
  | EmptyString => true
  | String a s' => Ascii.eqb a " " && opensToken s'
  end.

(** The character opens no tag or bracket and is no colon. *)
Definition noMarkup (c : ascii) : bool :=
  negb (existsb (Ascii.eqb c) (list_ascii_of_string "<[:")).

(** A source of the title that is absent or made of such characters only. *)
Definition plainSource (source : option string) : bool :=
  match source with
  | Some text => all_chars noMarkup text
  | None => true
  end.

End TextShape.

Module PlaceholderShape.
Import Placeholders.

(** The text behind the first token of a message: each further token
    after one space. *)
Fixpoint followingText (ts : list Placeholder) : string :=
  match ts with
  | [] => EmptyString
  | t :: more => " " ++ placeholderText t ++ followingText more
  end.

(** A token once the media markers are replaced by a space. *)
Definition mediaStripped (t : Placeholder) : string :=
  match t with
  | MediaToken _ => " "
  | _ => placeholderText t
  end.

Fixpoint followingMediaStripped (ts : list Placeholder) : string :=
  match ts with
  | [] => EmptyString
  | t :: more => " " ++ mediaStripped t ++ followingMediaStripped more
  end.

(** Two spaces for each token: the separator and the replacement. *)
Fixpoint blanks (ts : list Placeholder) : string :=
  match ts with
  | [] => EmptyString
  | _ :: more => "  " ++ blanks more
  end.

End PlaceholderShape.

(* ===================================================================== *)
(** * JavaScript values: what a thrown error may be *)
(* ===================================================================== *)

Module JsValues.

(** A value as the providers read it: a primitive, or an object with its
    own properties (an [Error] is an object with a [message]). *)
#[local] Unset Elimination Schemes.
Inductive JsValue : Type :=
| VUndefined
| VNull
| VBool (b : bool)
| VNum (n : Z)
| VStr (s : string)
| VObj (fields : list (string * JsValue)).
#[local] Set Elimination Schemes.

(** [obj[key]]: the property, or [undefined]. *)
Definition getProp (fields : list (string * JsValue)) (key : string) : JsValue :=
  match find (fun kv => String.eqb (fst kv) key) fields with
  | Some kv => snd kv
  | None => VUndefined
  end.

End JsValues.

(* ===================================================================== *)
(** * slack/thread-title-provider.ts *)
(* ===================================================================== *)

Module SlackProvider.
Import JsValues.

Inductive ErrorClass : Type :=
| permission | rate_limit | not_found | unknown.

(** [readObject(value)]: the own properties of an object. *)
Definition readObject (value : JsValue) : option (list (string * JsValue)) :=
  match value with
  | VObj fields => Some fields
  | _ => None
  end.

Definition readString (value : JsValue) : option string :=
  match value with
  | VStr s => Some s
  | _ => None
  end.

Fixpoint readNestedString (root : JsValue) (path : list string) : option string :=
  match path with
  | [] => readString root
  | key :: more =>
      match readObject root with
      | None => None
      | Some obj => readNestedString (getProp obj key) more
      end
  end.

Definition PERMISSION_TOKENS : list string :=
  ["missing_scope"; "not_allowed_token_type"; "not_authed"; "invalid_auth";
   "account_inactive"; "forbidden"; "access_denied"].

Definition NOT_FOUND_TOKENS : list string :=
  ["thread_not_found"; "channel_not_found"; "message_not_found"; "not_found"].

Definition RATE_LIMIT_TOKENS : list string :=
  ["rate_limited"; "ratelimited"; "429"; "too many requests"].

(** The texts that the classifier looks at: the string fields that are
    present and not empty, in lower case. *)
Definition candidates (error : JsValue) : list string :=
  map Js.toLowerCase
    (flat_map (fun o => match o with
                        | Some s => if Js.truthy s then [s] else []
                        | None => []
                        end)
       [readNestedString error ["data"; "error"];
        readNestedString error ["data"; "needed"];
        readNestedString error ["code"];
        readNestedString error ["message"];
        match error with VStr s => Some s | _ => None end]).

(** [candidates.some((value) => tokens.some((token) => value.includes(token)))] *)
Definition mentions (tokens values : list string) : bool :=
  existsb (fun value => existsb (fun token => Js.includes token value) tokens) values.

Definition classifySlackTitleError (error : JsValue) : ErrorClass :=
  let candidates := candidates error in
  if mentions PERMISSION_TOKENS candidates then permission
  else if mentions NOT_FOUND_TOKENS candidates then not_found
  else if mentions RATE_LIMIT_TOKENS candidates then rate_limit
  else unknown.

Definition resolveRetryAfterMs (error : JsValue) : option Z :=
  let retryAfterHeader :=
    match readNestedString error ["data"; "headers"; "retry-after"] with
    | Some h => Some h
    | None => readNestedString error ["headers"; "retry-after"]
    end in
  let retryAfterSeconds :=
    ThreadTitleLlm.parseInt10
      (Js.trim (match retryAfterHeader with Some h => h | None => EmptyString end)) in
  match retryAfterSeconds with
  | None => None
  | Some seconds => if seconds <=? 0 then None else Some (seconds * 1000)
  end.

(** The ids of a target, as both methods of the provider compute them. *)
Definition channelIdOf (target : ThreadTitle.ThreadTitleTarget) : option string :=
  match ThreadTitle.conversationId target with
  | Some c => Some (Js.trim c)
  | None => None
  end.

Definition threadTsOf (target : ThreadTitle.ThreadTitleTarget) : string :=
  match ThreadTitle.threadId target with
  | Some t => Js.trim (ThreadTitle.String_of_ThreadId t)
  | None => EmptyString
  end.

Definition resolveThreadKey (target : ThreadTitle.ThreadTitleTarget) : option string :=
  let channelId := channelIdOf target in
  let threadTs := threadTsOf target in
  match channelId with
  | None => None
  | Some channelId =>
      if negb (Js.truthy channelId) || negb (Js.truthy threadTs) then None
      else Some ("slack:" ++ channelId ++ ":" ++ threadTs)
  end.

Record SlackSetTitlePayload : Type := mkPayload {
  token : string;
  channel_id : string;
  thread_ts : string;
  payloadTitle : string
}.

(** The two ways to reach the Web API that [setTitle] knows:
    [client.assistant.threads.setTitle] and [client.apiCall], each one
    present or not. *)
Record Client : Type := mkClient {
  assistantThreadsSetTitle : option (SlackSetTitlePayload -> Completion unit);
  apiCall : option (string -> SlackSetTitlePayload -> Completion unit)
}.

Inductive ApiCall : Type :=
| ViaAssistant (payload : SlackSetTitlePayload)
| ViaApiCall (method : string) (payload : SlackSetTitlePayload).

Definition payloadOf (call : ApiCall) : SlackSetTitlePayload :=
  match call with
  | ViaAssistant payload => payload
  | ViaApiCall _ payload => payload
  end.

(** [setTitle] acts on the log of the calls made on the client. *)
Definition setTitle (client : Client) (botToken : string)
  (target : ThreadTitle.ThreadTitleTarget) (title : string)
  : Eff.t (list ApiCall) unit :=
  let channelId := channelIdOf target in
  let threadTs := threadTsOf target in
  let trimmedTitle := Js.trim title in
  match channelId with
  | None => Eff.ret tt
  | Some channelId =>
      if negb (Js.truthy channelId) || negb (Js.truthy threadTs)
         || negb (Js.truthy trimmedTitle)
      then Eff.ret tt
      else
        let payload := mkPayload botToken channelId threadTs trimmedTitle in
        match assistantThreadsSetTitle client with
        | Some call =>
            Eff.bind (Eff.modify (fun log => (log ++ [ViaAssistant payload])%list))
              (fun _ => Eff.await (call payload))
        | None =>
            match apiCall client with
            | Some call =>
                Eff.bind
                  (Eff.modify
                     (fun log =>
                        (log ++ [ViaApiCall "assistant.threads.setTitle" payload])%list))
                  (fun _ => Eff.await (call "assistant.threads.setTitle" payload))
            | None => Eff.throw "Slack thread title API is unavailable"
            end
        end
  end.

End SlackProvider.

(* ===================================================================== *)
(** * telegram/thread-title-provider.ts *)
(* ===================================================================== *)

Module TelegramProvider.
Import JsValues Re.

Inductive ErrorClass : Type :=
| permission | rate_limit | not_found | unknown.

Definition ErrorClass_eqb (a b : ErrorClass) : bool :=
  match a, b with
  | permission, permission | rate_limit, rate_limit
  | not_found, not_found | unknown, unknown => true
  | _, _ => false
  end.

Definition textFromError (error : JsValue) : string :=
  match error with
  | VStr s => s
  | VObj fields =>
      match getProp fields "message" with
      | VStr message => message
      | _ =>
          match getProp fields "description" with
          | VStr description => description
          | _ => EmptyString
          end
      end
  | _ => EmptyString
  end.

Definition PERMISSION_TOKENS : list string :=
  ["not enough rights"; "forbidden"; "have no rights"; "can't be edited";
   "cannot edit"; "bot was kicked"].

Definition RATE_LIMIT_TOKENS : list string :=
  ["too many requests"; "retry after"; "flood control"; "rate limit"; "429"].

Definition NOT_FOUND_TOKENS : list string :=
  ["thread not found"; "topic not found"; "chat not found"; "message to edit not found"].

(** [tokens.some((token) => message.includes(token))] *)
Definition mentions (tokens : list string) (message : string) : bool :=
  existsb (fun token => Js.includes token message) tokens.

Definition classifyTelegramTitleError (error : JsValue) : ErrorClass :=
  let message := Js.toLowerCase (textFromError error) in
  if negb (Js.truthy message) then unknown
  else if mentions PERMISSION_TOKENS message then permission
  else if mentions RATE_LIMIT_TOKENS message then rate_limit
  else if mentions NOT_FOUND_TOKENS message then not_found
  else unknown.

(** [/retry after\s+(\d+)/i] *)
Definition RETRY_AFTER_RE : re :=
  seqs [lit "retry after"; plus space; Group (plus digit)].

(** [re.exec(s)] for an expression without the [g] flag: the leftmost
    match, with its capture. *)
Fixpoint exec_from (ic : bool) (r : re) (p : option ascii) (s : string) : option pos :=
  match match_at ic r p s with
  | Some st => Some st
  | None =>
      match s with
      | EmptyString => None
      | String c s' => exec_from ic r (Some c) s'
      end
  end.

Definition exec (ic : bool) (r : re) (s : string) : option pos := exec_from ic r None s.

Definition retryAfterMs (error : JsValue) (errorClass : ErrorClass) : option Z :=
  if negb (ErrorClass_eqb errorClass rate_limit) then None
  else
    let message := textFromError error in
    match exec true RETRY_AFTER_RE message with
    | None => None
    | Some m =>
        match cap m with
        | None => None
        | Some digits =>
            if negb (Js.truthy digits) then None
            else
              match ThreadTitleLlm.parseInt10 digits with
              | Some seconds => if seconds >? 0 then Some (seconds * 1000) else None
              | None => None
              end
        end
    end.

End TelegramProvider.

(* ===================================================================== *)
(** * thread-title-manager.ts: keys, remembered titles and AI titles *)
(* ===================================================================== *)

Module ManagerTitles.
Import Re.

Definition MAX_PENDING_ATTEMPTS : Z := 5000.
Definition AI_TITLE_TIMEOUT_MS : Z := 8000.
Definition AI_FAILURE_BACKOFF_MS : Z := 10 * 60000.
Definition AI_TITLE_PROVIDER : string := "google".
Definition AI_TITLE_MODEL : string := "gemini-3-flash-preview".

Inductive ThreadKind : Type :=
| forum | dm.

Definition kindText (k : ThreadKind) : string :=
  match k with forum => "forum" | dm => "dm" end.

(** [NativeThreadRef]; the thread id of Telegram is an integer. *)
Inductive NativeThreadRef : Type :=
| SlackRef (accountId channelId threadTs : string)
| TelegramRef (accountId chatId : string) (threadId : Z) (threadKind : ThreadKind).

Definition buildNativeThreadKey (threadRef : NativeThreadRef) : string :=
  match threadRef with
  | SlackRef accountId channelId threadTs =>
      "slack:" ++ accountId ++ ":" ++ channelId ++ ":" ++ threadTs
  | TelegramRef accountId chatId threadId threadKind =>
      "telegram:" ++ accountId ++ ":" ++ chatId ++ ":" ++ kindText threadKind ++ ":"
        ++ Js.string_of_Z threadId
  end.

(** ** [appliedThreadTitles]

    The map of the titles applied by this process: bindings with distinct
    keys, oldest first. *)
Definition AppliedTitles : Type := list (string * string).

Definition applied_get (m : AppliedTitles) (k : string) : option string :=
  match find (fun kv => String.eqb (fst kv) k) m with
  | Some kv => Some (snd kv)
  | None => None
  end.

Definition applied_delete (m : AppliedTitles) (k : string) : AppliedTitles :=
  filter (fun kv => negb (String.eqb (fst kv) k)) m.

Definition rememberAppliedThreadTitleWithTitle (m : AppliedTitles)
  (threadKey title : string) : AppliedTitles :=
  let m := (applied_delete m threadKey ++ [(threadKey, title)])%list in
  if Z.of_nat (List.length m) <=? MAX_PENDING_ATTEMPTS then m
  else
    match m with
    | (oldestKey, _) :: _ =>
        if Js.truthy oldestKey then applied_delete m oldestKey else m
    | [] => m
    end.

(** ** [sanitizeAiTitle] *)

(** [/^\d+[).:-]\s+/] *)
Definition LIST_NUMBER_RE : re :=
  seqs [Bol; plus digit; one_of ").:-"; plus space].

(** [/^[-*]\s+/] *)
Definition LIST_BULLET_RE : re := seqs [Bol; one_of "-*"; plus space].

(** [/^[QUOTES]+|[QUOTES]+$/g], where QUOTES stands for the three quote
    characters *)
Definition OUTER_QUOTES_RE : re :=
  Alt (Seq Bol (plus ConversationTitle.quotes)) (Seq (plus ConversationTitle.quotes) Eol).

(** [s.split(/\s+/)]: the pieces between the runs of white space; the
    first piece of the result is the one that is being read, and
    [skipping] tells that the run of white space before it is not over. *)
Fixpoint split_spaces (skipping : bool) (s : string) : list string :=
  match s with
  | EmptyString => [EmptyString]
  | String c s' =>
      if Js.is_space c
      then if skipping then split_spaces true s'
           else EmptyString :: split_spaces true s'
      else
        match split_spaces false s' with
        | piece :: more => String c piece :: more
        | [] => [String c EmptyString]
        end
  end.

(** [title.split(/\s+/).filter(Boolean).length] *)
Definition wordCount (title : string) : Z :=
  Z.of_nat (List.length (filter Js.truthy (split_spaces false title))).

(** [s.slice(0, n)] for any integer [n]: a negative [n] counts from the
    end. *)
Definition slice0 (n : Z) (s : string) : string :=
  if n <? 0 then substring 0 (Z.to_nat (Z.max 0 (Js.len s + n))) s
  else substring 0 (Z.to_nat n) s.

Definition sanitizeAiTitle (rawTitle : option string) (maxChars : Z)
  (sourceText : option string) : option string :=
  match rawTitle with
  | None => None
  | Some rawTitle =>
      let firstLine :=
        find (fun line => 0 <? Js.len line)
          (map Js.trim (ThreadTitleLlm.split_lines rawTitle)) in
      match firstLine with
      | None => None
      | Some firstLine =>
          if negb (Js.truthy firstLine) then None
          else
            let title :=
              Js.trim
                (replace_all false ConversationTitle.WHITESPACE_RE (const " ")
                   (replace_first false LIST_BULLET_RE (const "")
                      (replace_first false LIST_NUMBER_RE (const "")
                         (replace_all false OUTER_QUOTES_RE (const "") firstLine)))) in
            if negb (Js.truthy title) then None
            else
              let title :=
                Js.trim (replace_all false ConversationTitle.TRAILING_PUNCTUATION_RE
                           (const "") title) in
              let title :=
                if Js.len title >? maxChars then Js.trim (slice0 maxChars title)
                else title in
              if negb (Js.truthy title) || (Js.len title <? 2) then None
              else if ConversationTitle.isDefaultThreadPlaceholder (Some title) then None
              else
                let wordCount := wordCount title in
                if (wordCount <? 1) || (wordCount >? 8) then None
                else
                  let normalizedSource :=
                    match sourceText with
                    | Some source =>
                        Some (replace_all false ConversationTitle.WHITESPACE_RE (const " ")
                                (Js.toLowerCase (Js.trim source)))
                    | None => None
                    end in
                  if Js.truthy_opt normalizedSource
                     && match normalizedSource with
                        | Some source => String.eqb (Js.toLowerCase title) source
                        | None => false
                        end
                  then None
                  else Some title
      end
  end.

Section WithCommandDetection.

(** [isControlCommandMessage] comes from [auto-reply/command-detection],
    which is outside the files at hand: it is a parameter. *)
Variable isControlCommandMessage : string -> bool.

(** [normalizeTitlePromptSource]; its regular expressions are the ones of
    [conversation-title.ts], written again in this file. *)
Definition normalizeTitlePromptSource (value : option string) : option string :=
  match value with
  | None => None
  | Some value =>
      let text := ConversationTitle.cleanSource value in
      if negb (Js.truthy text) then None
      else if ConversationTitle.isDefaultThreadPlaceholder (Some text)
              || test true ConversationTitle.SLASH_COMMAND_RE text
              || isControlCommandMessage text
      then None
      else if test true ConversationTitle.STICKER_PLACEHOLDER_RE text then None
      else
        let text :=
          Js.trim
            (replace_all false ConversationTitle.WHITESPACE_RE (const " ")
               (replace_all true ConversationTitleStrip.SLACK_MEDIA_PLACEHOLDER_TOKEN_RE
                  (const " ")
                  (replace_all true ConversationTitleStrip.MEDIA_PLACEHOLDER_TOKEN_RE
                     (const " ") text))) in
        if negb (Js.truthy text) then None else Some text
  end.

(** [[primaryText, fallbackText].map(normalizeTitlePromptSource).find(...)] *)
Definition promptSeedOf (primaryText fallbackText : option string) : option string :=
  match
    find (fun v => match v with Some s => 0 <? Js.len s | None => false end)
      (map normalizeTitlePromptSource [primaryText; fallbackText])
  with
  | Some (Some seed) => Some seed
  | _ => None
  end.

End WithCommandDetection.

End ManagerTitles.

(* ===================================================================== *)
(** * thread-title-manager.ts: [maybeGenerateAiThreadTitle] *)
(* ===================================================================== *)

Module ManagerAi.
Import ManagerTitles.
Local Open Scope eff_scope.

(** [payload.text], present when it is a string. *)
Record Payload : Type := mkPayload {
  text : option string
}.

Record AgentResult : Type := mkAgentResult {
  payloads : option (list Payload)
}.

Record AgentRun : Type := mkAgentRun {
  sessionId : string;
  sessionKey : string;
  agentId : string;
  sessionFile : string;
  workspaceDir : string;
  agentDir : string;
  prompt : string;
  runProvider : string;
  runModel : string;
  disableTools : bool;
  runTimeoutMs : Z;
  runId : string
}.

(** What a call reaches outside the module. The agent helpers belong to
    [agents/agent-scope] and [agents/pi-embedded-runner], which are not
    among the files at hand: they are parameters, and each call may throw
    or reject. [now], [nowSession] and [nowFailure] are the readings of
    [Date.now()] at the start of the call, in the session id and in the
    [catch] block; [log] is [params.log]. *)
Record Env : Type := mkEnv {
  now : Z;
  mkdtemp : string -> Completion string;
  nowSession : Z;
  resolveAgentWorkspaceDir : string -> Completion string;
  resolveAgentDir : string -> Completion string;
  runEmbeddedPiAgent : AgentRun -> Completion AgentResult;
  nowFailure : Z;
  log : option (string -> Completion unit);
  rm : string -> Completion unit
}.

Inductive Effect : Type :=
| MadeTempDir (dir : string)
| RanAgent (run : AgentRun)
| Logged (message : string)
| RemovedDir (dir : string).

(** The module variable [aiTitleDisabledUntil], the local variable
    [tempDir] of the call in progress, and the effects so far, oldest
    first. *)
Record AiState : Type := mkAiState {
  aiTitleDisabledUntil : Z;
  tempDir : option string;
  effects : list Effect
}.

Record Params : Type := mkParams {
  routeAgentId : string;
  threadKey : string;
  primaryText : option string;
  fallbackText : option string;
  maxChars : Z
}.

Definition emit (e : Effect) : Eff.t AiState unit :=
  Eff.modify (fun s => mkAiState (aiTitleDisabledUntil s) (tempDir s)
                         (effects s ++ [e])%list).

Definition set_tempDir (dir : option string) : Eff.t AiState unit :=
  Eff.modify (fun s => mkAiState (aiTitleDisabledUntil s) dir (effects s)).

Definition set_disabledUntil (t : Z) : Eff.t AiState unit :=
  Eff.modify (fun s => mkAiState t (tempDir s) (effects s)).

Definition LF : string := String ThreadTitleLlm.LF EmptyString.

Definition titlePrompt (promptSeed : string) : string :=
  Js.join LF
    [ "Generate a concise chat thread title from the message below.";
      "Requirements:";
      "- 2 to 5 words.";
      "- Title Case.";
      "- Summarize intent; do not copy the sentence verbatim.";
      "- No quotes, no trailing punctuation.";
      "";
      "Message: " ++ promptSeed;
      "";
      "Reply with ONLY the title." ].

(** [result.payloads?.find((payload) => typeof payload.text === "string")?.text] *)
Definition aiRawOf (result : AgentResult) : option string :=
  match payloads result with
  | None => None
  | Some ps =>
      match find (fun p => match text p with Some _ => true | None => false end) ps with
      | Some p => text p
      | None => None
      end
  end.

(** The body of the [try] block. *)
Definition tryBody (env : Env) (params : Params) (promptSeed : string)
  : Eff.t AiState (option string) :=
  dir <- Eff.await (mkdtemp env "openclaw-thread-title-") ;;
  set_tempDir (Some dir) ;;;
  emit (MadeTempDir dir) ;;;
  let sessionFile := dir ++ "/session.jsonl" in
  let sessionId := "thread-title-" ++ Js.string_of_Z (nowSession env) in
  let prompt := titlePrompt promptSeed in
  workspaceDir <- Eff.await (resolveAgentWorkspaceDir env (routeAgentId params)) ;;
  agentDir <- Eff.await (resolveAgentDir env (routeAgentId params)) ;;
  let run :=
    mkAgentRun sessionId ("thread-title:" ++ threadKey params) (routeAgentId params)
      sessionFile workspaceDir agentDir prompt AI_TITLE_PROVIDER AI_TITLE_MODEL true
      AI_TITLE_TIMEOUT_MS (sessionId ++ "-run") in
  emit (RanAgent run) ;;;
  result <- Eff.await (runEmbeddedPiAgent env run) ;;
  Eff.ret (sanitizeAiTitle (aiRawOf result) (maxChars params) (Some promptSeed)).

(** The [catch (error)] block. *)
Definition onError (env : Env) (params : Params) (error : JsError)
  : Eff.t AiState (option string) :=
  set_disabledUntil (nowFailure env + AI_FAILURE_BACKOFF_MS) ;;;
  match log env with
  | Some write =>
      let message :=
        "thread title ai generation failed for " ++ threadKey params ++ ": " ++ error in
      emit (Logged message) ;;;
      Eff.await (write message) ;;;
      Eff.ret None
  | None => Eff.ret None
  end.

(** The [finally] block. *)
Definition cleanup (env : Env) : Eff.t AiState unit :=
  s <- Eff.get ;;
  match tempDir s with
  | Some dir =>
      if Js.truthy dir
      then emit (RemovedDir dir) ;;; Eff.await (Eff.caught (rm env dir) tt)
      else Eff.ret tt
  | None => Eff.ret tt
  end.

Definition maybeGenerateAiThreadTitle (isControlCommandMessage : string -> bool)
  (env : Env) (params : Params) : Eff.t AiState (option string) :=
  s <- Eff.get ;;
  if now env <? aiTitleDisabledUntil s then Eff.ret None
  else
    match promptSeedOf isControlCommandMessage (primaryText params)
            (fallbackText params) with
    | None => Eff.ret None
    | Some promptSeed =>
        if negb (Js.truthy promptSeed) then Eff.ret None
        else
          set_tempDir None ;;;
          Eff.try_finally
            (Eff.try_catch (tryBody env params promptSeed) (onError env params))
            (cleanup env)
    end.

End ManagerAi.

(* ===================================================================== *)
(** * More sample providers and inputs *)
(* ===================================================================== *)

Module MoreSamples.
Import ThreadTitle.

(** A provider whose [getCurrentTitle] rejects and whose [setTitle]
    resolves. *)
Definition blindProvider : ThreadTitleProvider unit :=
  mkProvider unit "slack" None
    (Some (fun _ w => (Thrown "conversations.info failed", w)))
    (fun _ _ w => (Returned tt, w)) None None.

End MoreSamples.

Module LlmSamples.
Import ThreadTitleLlm.





End LlmSamples.

Module AiSamples.

(** An environment of [maybeGenerateAiThreadTitle] whose agent run
    rejects. *)
Definition failingEnv : ManagerAi.Env :=
  ManagerAi.mkEnv 1000
    (fun prefix => Returned (prefix ++ "a1b2c3"))
    1001
    (fun _ => Returned "/tmp/workspace")
    (fun _ => Returned "/tmp/agent")
    (fun _ => Thrown "agent run timed out")
    1500
    None
    (fun _ => Returned tt).

End AiSamples.

(* ===================================================================== *)
(** * Properties of the in-memory store *)
(* ===================================================================== *)

Ltac break_match_hyp H :=
  match type of H with
  | context [match ?x with _ => _ end] => destruct x eqn:?
  | context [if ?x then _ else _] => destruct x eqn:?
  end.

Ltac break_match_goal :=
  match goal with
  | |- context [match ?x with _ => _ end] => destruct x eqn:?
  | |- context [if ?x then _ else _] => destruct x eqn:?
  end.

Module StoreFacts.
Import ThreadTitle.
Local Open Scope list_scope.

Lemma map_delete_keys_differ k m : keys_differ k (map_delete m k).
Proof.
  unfold keys_differ, map_delete. apply Forall_forall. intros kv Hin.
  apply filter_In in Hin. destruct Hin as [_ Hne].
  now apply negb_true_iff in Hne.
Qed.

Lemma map_get_last k v m :
  keys_differ k m -> map_get (m ++ [(k, v)]) k = Some v.
Proof.
  unfold map_get. induction 1 as [|kv m Hkv Hm IH]; simpl.
  - now rewrite String.eqb_refl.
  - rewrite Hkv. exact IH.
Qed.

(** Eviction with room for one entry keeps the newest binding, and what it
    keeps before it comes from the old bindings. *)
Lemma evict_keeps_last n k x m :
  1 <= n -> keys_differ k m ->
  exists m', evict n (m ++ [x]) = m' ++ [x] /\ keys_differ k m'.
Proof.
  intros Hn. induction 1 as [|kv m Hkv Hm IH].
  - exists []. split; [|constructor]. simpl. destruct x as [kx vx].
    destruct (Z.gtb_spec 1 n); [lia | reflexivity].
  - destruct kv as [k0 v0]. cbn [app evict].
    destruct (Z.of_nat (List.length ((k0, v0) :: m ++ [x])) >? n).
    + destruct (negb (Js.truthy k0)).
      * exists ((k0, v0) :: m). split; [reflexivity | now constructor].
      * exact IH.
    + exists ((k0, v0) :: m). split; [reflexivity | now constructor].
Qed.

Lemma inMemory_get_set s k v :
  1 <= maxEntries s -> inMemory_get (inMemory_set s k v) k = Some v.
Proof.
  intros Hn. unfold inMemory_get, inMemory_set. cbn [stateMap].
  destruct (evict_keeps_last (maxEntries s) k (k, v) (map_delete (stateMap s) k) Hn
              (map_delete_keys_differ k (stateMap s))) as (m' & -> & Hm').
  now apply map_get_last.
Qed.

Lemma maxEntries_set s k v : maxEntries (inMemory_set s k v) = maxEntries s.
Proof. reflexivity. Qed.

Lemma setStoreState_get s (st : ThreadTitleState) :
  1 <= maxEntries s -> Js.truthy (threadKey st) = true ->
  store_get (setStoreState s st) (threadKey st) = Some st.
Proof.
  intros Hn Hk. unfold setStoreState. rewrite Hk. cbn.
  now apply inMemory_get_set.
Qed.

Lemma maxEntries_setStoreState s (st : ThreadTitleState) :
  maxEntries (setStoreState s st) = maxEntries s.
Proof. unfold setStoreState. now destruct (negb (Js.truthy (threadKey st))). Qed.

End StoreFacts.

(* ===================================================================== *)
(** * Properties of [applyThreadTitle] *)
(* ===================================================================== *)

Module EngineFacts.
Import ThreadTitle StoreFacts.
Local Open Scope list_scope.

Lemma count_setTitle_app cs cs' :
  count_setTitle (cs ++ cs') = (count_setTitle cs + count_setTitle cs')%nat.
Proof. unfold count_setTitle. now rewrite filter_app, length_app. Qed.

Section WithWorld.

Context {W : Type}.
Variable isCtl : string -> bool.

Local Abbreviation run := (Run InMemoryStore W).

(** A call either stops at one of the early checks, with the run left as
    it was, or stores [baseState] and goes on to the platform. *)
Lemma apply_inv params (st : run) r st' :
  applyThreadTitle isCtl params st = (r, st') ->
  (st' = st
   /\ exists reason key,
       r = skipped reason key
       /\ In reason ["provider_mismatch"; "unsupported_target"; "disabled";
                     "cooldown"; "already_applied"; "no_candidate"]%string)
  \/ exists k title,
      channelsMatch params = true
      /\ threadKeyOf params = Some k /\ Js.truthy k = true
      /\ Js.truthy title = true
      /\ ConversationTitle.deriveConversationTitle isCtl (primaryText params)
           (fallbackText params) (maxChars params) = Some title
      /\ is_status (store_get (store st) k) disabled = false
      /\ in_cooldown (store_get (store st) k) (now params) = false
      /\ is_status (store_get (store st) k) applied = false
      /\ checkCurrentTitleThenSet (provider params) (target params)
           (baseStateOf (store_get (store st) k) k title (now params))
           (now params) title k
           (storeState (baseStateOf (store_get (store st) k) k title (now params)) st)
         = (r, st').
Proof.
  unfold applyThreadTitle. intros Happly.
  assert (Hearly : forall reason key,
             In reason ["provider_mismatch"; "unsupported_target"; "disabled";
                        "cooldown"; "already_applied"; "no_candidate"]%string ->
             (skipped reason key, st) = (r, st') ->
             st' = st
             /\ exists reason key,
                 r = skipped reason key
                 /\ In reason ["provider_mismatch"; "unsupported_target"; "disabled";
                               "cooldown"; "already_applied"; "no_candidate"]%string).
  { intros reason key Hin Heq. inversion Heq; subst. split; [reflexivity|].
    now exists reason, key. }
  destruct (channelsMatch params) eqn:Hch; cbn [negb] in Happly.
  2:{ left. eapply Hearly; [|exact Happly]. simpl; tauto. }
  destruct (threadKeyOf params) as [k|] eqn:Hk.
  2:{ left. eapply Hearly; [|exact Happly]. simpl; tauto. }
  destruct (Js.truthy k) eqn:Htk; cbn [negb] in Happly.
  2:{ left. eapply Hearly; [|exact Happly]. simpl; tauto. }
  destruct (is_status (store_get (store st) k) disabled) eqn:Hd.
  { left. eapply Hearly; [|exact Happly]. simpl; tauto. }
  destruct (in_cooldown (store_get (store st) k) (now params)) eqn:Hc.
  { left. eapply Hearly; [|exact Happly]. simpl; tauto. }
  destruct (is_status (store_get (store st) k) applied) eqn:Ha.
  { left. eapply Hearly; [|exact Happly]. simpl; tauto. }
  destruct (ConversationTitle.deriveConversationTitle isCtl (primaryText params)
              (fallbackText params) (maxChars params)) as [title|] eqn:Ht.
  2:{ left. eapply Hearly; [|exact Happly]. simpl; tauto. }
  destruct (Js.truthy title) eqn:Htt; cbn [negb] in Happly.
  2:{ left. eapply Hearly; [|exact Happly]. simpl; tauto. }
  right. exists k, title. repeat split; auto.
Qed.

(** What the three steps after the early checks do. *)
Lemma storeState_truthy (state : ThreadTitleState) (st : run) :
  Js.truthy (threadKey state) = true ->
  storeState state st
  = mkRun (store_set (store st) (threadKey state) state) (world st)
      (calls st ++ [CallStoreSet (threadKey state) state]).
Proof. intros Hk. unfold storeState, setStoreState. now rewrite Hk. Qed.

Lemma threadKey_writtenOf (p : ThreadTitleProvider W) base now title completion :
  threadKey (writtenOf p base now title completion) = threadKey base.
Proof.
  destruct completion as [[]|e]; [reflexivity|]. unfold writtenOf, failureState.
  now destruct (_ || _).
Qed.

Lemma trySetTitle_spec p tg base now title k (st : run) :
  Js.truthy (threadKey base) = true ->
  exists completion w',
    setTitle p tg title (world st) = (completion, w')
    /\ trySetTitle p tg base now title k st
       = (resultOf p title k completion,
          mkRun (store_set (store st) (threadKey base)
                   (writtenOf p base now title completion)) w'
            (calls st
             ++ [CallSetTitle tg title;
                 CallStoreSet (threadKey base)
                   (writtenOf p base now title completion)])).
Proof.
  intros Hk. unfold trySetTitle.
  destruct (setTitle p tg title (world st)) as [completion w'].
  exists completion, w'. split; [reflexivity|].
  pose proof (threadKey_writtenOf p base now title completion) as Hkey.
  assert (Hw : Js.truthy (threadKey (writtenOf p base now title completion)) = true)
    by now rewrite Hkey.
  destruct completion as [[]|e]; unfold onSetTitleError;
    cbn [writtenOf resultOf] in *;
    rewrite storeState_truthy by exact Hw;
    cbn [store world calls]; rewrite <- app_assoc, Hkey; reflexivity.
Qed.

(** The shape of a call that got past the early checks: either the
    thread has a title of its own and nothing is set, or [setTitle] is
    called once, after at most one look at the current title. *)
Lemma check_shape p tg base now title (st : run) r st' :
  Js.truthy (threadKey base) = true ->
  checkCurrentTitleThenSet p tg base now title (threadKey base) st = (r, st') ->
  (exists g current w',
      getCurrentTitle p = Some g
      /\ g tg (world st) = (Returned (Some current), w')
      /\ Js.truthy current = true
      /\ ConversationTitle.isDefaultThreadPlaceholder (Some current) = false
      /\ r = skipped "existing_title_present" (Some (threadKey base))
      /\ st' = mkRun (store_set (store st) (threadKey base)
                        (disabledOnExistingTitle base now current)) w'
                 (calls st
                  ++ [CallGetCurrentTitle tg;
                      CallStoreSet (threadKey base)
                        (disabledOnExistingTitle base now current)]))
  \/ (exists probe w1 completion w',
         (probe = [] \/ probe = [CallGetCurrentTitle tg])
         /\ setTitle p tg title w1 = (completion, w')
         /\ r = resultOf p title (threadKey base) completion
         /\ st' = mkRun (store_set (store st) (threadKey base)
                           (writtenOf p base now title completion)) w'
                    (calls st ++ probe
                     ++ [CallSetTitle tg title;
                         CallStoreSet (threadKey base)
                           (writtenOf p base now title completion)])).
Proof.
  intros Hk Hcheck.
  assert (Htry : forall (st1 : run) probe,
             store st1 = store st -> calls st1 = calls st ++ probe ->
             (probe = [] \/ probe = [CallGetCurrentTitle tg]) ->
             trySetTitle p tg base now title (threadKey base) st1 = (r, st') ->
             exists probe w1 completion w',
               (probe = [] \/ probe = [CallGetCurrentTitle tg])
               /\ setTitle p tg title w1 = (completion, w')
               /\ r = resultOf p title (threadKey base) completion
               /\ st' = mkRun (store_set (store st) (threadKey base)
                                 (writtenOf p base now title completion)) w'
                          (calls st ++ probe
                           ++ [CallSetTitle tg title;
                               CallStoreSet (threadKey base)
                                 (writtenOf p base now title completion)])).
  { intros st1 probe Hstore Hcalls Hprobe Heq.
    destruct (trySetTitle_spec p tg base now title (threadKey base) st1 Hk)
      as (completion & w' & Hset & Hrun).
    rewrite Hrun in Heq. inversion Heq as [[Hr Hst]].
    exists probe, (world st1), completion, w'.
    repeat split; auto. rewrite Hstore, Hcalls, <- app_assoc. reflexivity. }
  unfold checkCurrentTitleThenSet in Hcheck.
  destruct (getCurrentTitle p) as [g|].
  2:{ right. apply (Htry st []); auto. now rewrite app_nil_r. }
  destruct (g tg (world st)) as [completion w'] eqn:Hg.
  destruct completion as [[current|]|e].
  - destruct (Js.truthy current) eqn:Hcur; cbn [andb] in Hcheck.
    + destruct (ConversationTitle.isDefaultThreadPlaceholder (Some current)) eqn:Hph;
        cbn [negb] in Hcheck.
      * right.
        apply (Htry (mkRun (store st) w' (calls st ++ [CallGetCurrentTitle tg]))
                 [CallGetCurrentTitle tg]); auto.
      * left. exists g, current, w'. repeat split; auto.
        -- now inversion Hcheck.
        -- inversion Hcheck as [[Hr Hst]].
           rewrite storeState_truthy by exact Hk.
           cbn [store world calls disabledOnExistingTitle threadKey].
           now rewrite <- app_assoc.
    + right.
      apply (Htry (mkRun (store st) w' (calls st ++ [CallGetCurrentTitle tg]))
               [CallGetCurrentTitle tg]); auto.
  - right.
    apply (Htry (mkRun (store st) w' (calls st ++ [CallGetCurrentTitle tg]))
             [CallGetCurrentTitle tg]); auto.
  - right.
    apply (Htry (mkRun (store st) w' (calls st ++ [CallGetCurrentTitle tg]))
             [CallGetCurrentTitle tg]); auto.
Qed.

(** The two shapes together, from the run before the call. *)
Lemma apply_shape params (st : run) r st' :
  applyThreadTitle isCtl params st = (r, st') ->
  (st' = st
   /\ exists reason key,
       r = skipped reason key
       /\ In reason ["provider_mismatch"; "unsupported_target"; "disabled";
                     "cooldown"; "already_applied"; "no_candidate"]%string)
  \/ exists k title base,
      channelsMatch params = true
      /\ threadKeyOf params = Some k /\ Js.truthy k = true
      /\ ConversationTitle.deriveConversationTitle isCtl (primaryText params)
           (fallbackText params) (maxChars params) = Some title
      /\ in_cooldown (store_get (store st) k) (now params) = false
      /\ base = baseStateOf (store_get (store st) k) k title (now params)
      /\ ((exists g current w',
              getCurrentTitle (provider params) = Some g
              /\ g (target params) (world st) = (Returned (Some current), w')
              /\ Js.truthy current = true
              /\ ConversationTitle.isDefaultThreadPlaceholder (Some current) = false
              /\ r = skipped "existing_title_present" (Some k)
              /\ st' = mkRun (store_set (store_set (store st) k base) k
                                (disabledOnExistingTitle base (now params) current)) w'
                         (calls st
                          ++ [CallStoreSet k base;
                              CallGetCurrentTitle (target params);
                              CallStoreSet k
                                (disabledOnExistingTitle base (now params) current)]))
          \/ (exists probe w1 completion w',
                 (probe = [] \/ probe = [CallGetCurrentTitle (target params)])
                 /\ setTitle (provider params) (target params) title w1
                    = (completion, w')
                 /\ r = resultOf (provider params) title k completion
                 /\ st' = mkRun (store_set (store_set (store st) k base) k
                                   (writtenOf (provider params) base (now params)
                                      title completion)) w'
                            (calls st
                             ++ [CallStoreSet k base] ++ probe
                             ++ [CallSetTitle (target params) title;
                                 CallStoreSet k
                                   (writtenOf (provider params) base (now params)
                                      title completion)]))).
Proof.
  intros Happly. apply apply_inv in Happly.
  destruct Happly as [Hearly
                     | (k & title & Hch & Hk & Htk & Htt & Ht & _ & Hc & _ & Hcheck)];
    [now left|].
  right. exists k, title, (baseStateOf (store_get (store st) k) k title (now params)).
  repeat (split; [assumption || reflexivity|]).
  set (base := baseStateOf (store_get (store st) k) k title (now params)) in *.
  assert (Hbase : Js.truthy (threadKey base) = true) by exact Htk.
  change (checkCurrentTitleThenSet (provider params) (target params) base
            (now params) title (threadKey base) (storeState base st) = (r, st'))
    in Hcheck.
  apply check_shape in Hcheck; [|exact Hbase].
  rewrite storeState_truthy in Hcheck by exact Hbase.
  cbn [store world calls] in Hcheck. change (threadKey base) with k in Hcheck.
  destruct Hcheck as [(g & current & w' & Hg & Hgw & Hcur & Hph & Hr & Hst)
                     | (probe & w1 & completion & w' & Hprobe & Hset & Hr & Hst)].
  - left. exists g, current, w'. repeat split; auto.
    rewrite Hst, <- app_assoc. reflexivity.
  - right. exists probe, w1, completion, w'. repeat split; auto.
    rewrite Hst, <- app_assoc. reflexivity.
Qed.

(** A successful call leaves the applied state in the store and has
    called [setTitle] once. *)
Lemma applied_leaves_applied params (st : run) r st' :
  1 <= maxEntries (store st) ->
  applyThreadTitle isCtl params st = (r, st') ->
  outcome r = outcome_applied ->
  exists k state,
    channelsMatch params = true /\ threadKeyOf params = Some k
    /\ Js.truthy k = true
    /\ store_get (store st') k = Some state /\ status state = applied
    /\ count_setTitle (calls st') = S (count_setTitle (calls st)).
Proof.
  intros Hcap Happly Hout. apply apply_shape in Happly.
  destruct Happly as [[_ (reason & key & -> & _)]
                     | (k & title & base & Hch & Hk & Htk & _ & _ & _ & Hshape)];
    [discriminate|].
  destruct Hshape as [(g & current & w' & _ & _ & _ & _ & -> & _)
                     | (probe & w1 & completion & w' & Hprobe & _ & -> & ->)];
    [discriminate|].
  destruct completion as [[]|e]; [|discriminate].
  exists k, (appliedState base (now params) title).
  repeat split; auto.
  - cbn [store writtenOf]. apply inMemory_get_set. now rewrite maxEntries_set.
  - cbn [calls]. rewrite !count_setTitle_app.
    destruct Hprobe as [-> | ->]; unfold count_setTitle; cbn; lia.
Qed.

(** A request for a key whose stored status is [x] stops at the check
    of that status. *)
Lemma stops_when_disabled params (st : run) k state :
  channelsMatch params = true -> threadKeyOf params = Some k ->
  Js.truthy k = true ->
  store_get (store st) k = Some state -> status state = disabled ->
  applyThreadTitle isCtl params st = (skipped "disabled" (Some k), st).
Proof.
  intros Hch Hk Htk Hget Hs. unfold applyThreadTitle.
  rewrite Hch, Hk, Htk. cbn [negb]. rewrite Hget. cbn [is_status].
  now rewrite Hs.
Qed.

Lemma stops_when_applied params (st : run) k state :
  channelsMatch params = true -> threadKeyOf params = Some k ->
  Js.truthy k = true ->
  store_get (store st) k = Some state -> status state = applied ->
  applyThreadTitle isCtl params st = (skipped "already_applied" (Some k), st).
Proof.
  intros Hch Hk Htk Hget Hs. unfold applyThreadTitle.
  rewrite Hch, Hk, Htk. cbn [negb]. rewrite Hget. cbn [is_status in_cooldown].
  now rewrite Hs.
Qed.

Lemma same_thread (params params2 : Params W) :
  provider params2 = provider params -> target params2 = target params ->
  channelsMatch params2 = channelsMatch params
  /\ threadKeyOf params2 = threadKeyOf params.
Proof.
  intros Hp Ht. unfold channelsMatch, threadKeyOf. now rewrite Hp, Ht.
Qed.

(** Requests for a disabled key are all skipped and leave the run as it
    was. *)
Lemma disabled_stays_disabled (later : list (Params W)) (st : run) k state :
  Js.truthy k = true ->
  store_get (store st) k = Some state -> status state = disabled ->
  Forall (fun q => channelsMatch q = true /\ threadKeyOf q = Some k) later ->
  applyEach isCtl later st
  = (map (fun _ => skipped "disabled" (Some k)) later, st).
Proof.
  intros Htk Hget Hs. induction 1 as [|q later [Hch Hk] _ IH]; [reflexivity|].
  cbn [applyEach map].
  rewrite (stops_when_disabled q st k state Hch Hk Htk Hget Hs).
  now rewrite IH.
Qed.

(** A failed call: [setTitle] rejected, and the store holds the state
    that the [catch] block wrote. *)
Lemma failed_shape params (st : run) r st' :
  1 <= maxEntries (store st) ->
  applyThreadTitle isCtl params st = (r, st') ->
  outcome r = outcome_failed ->
  exists k title base w w' e,
    channelsMatch params = true /\ threadKeyOf params = Some k
    /\ Js.truthy k = true
    /\ base = baseStateOf (store_get (store st) k) k title (now params)
    /\ setTitle (provider params) (target params) title w = (Thrown e, w')
    /\ r = mkResult outcome_failed "set_title_failed" (Some title) (Some k)
             (Some (classify (provider params) e))
    /\ store_get (store st') k
       = Some (failureState (provider params) base (now params) e)
    /\ count_setTitle (calls st') = S (count_setTitle (calls st)).
Proof.
  intros Hcap Happly Hout. apply apply_shape in Happly.
  destruct Happly as [[_ (reason & key & -> & _)]
                     | (k & title & base & Hch & Hk & Htk & _ & _ & Hbase & Hshape)];
    [discriminate|].
  destruct Hshape as [(g & current & w' & _ & _ & _ & _ & -> & _)
                     | (probe & w1 & completion & w' & Hprobe & Hset & -> & ->)];
    [discriminate|].
  destruct completion as [[]|e]; [discriminate|].
  exists k, title, base, w1, w', e. repeat split; auto.
  - cbn [store writtenOf]. apply inMemory_get_set. now rewrite maxEntries_set.
  - cbn [calls]. rewrite !count_setTitle_app.
    destruct Hprobe as [-> | ->]; unfold count_setTitle; cbn; lia.
Qed.

End WithWorld.

End EngineFacts.

(* ===================================================================== *)
(** * The claims *)
(* ===================================================================== *)

Import ThreadTitle.

(** C1. Idempotence of title application, on the in-memory store with room
    for at least one entry: when a call of [applyThreadTitle] returns the
    outcome [applied], it has called [setTitle] exactly once, and a second
    call with the same provider, target and texts (whatever the clock and
    the platform have become) returns [skipped] with the reason
    [already_applied] and leaves the run as it was, so [setTitle] is not
    called again. *)
Theorem C1_second_call_already_applied
  (W : Type) (isCtl : string -> bool) (params params2 : Params W)
  (st : Run InMemoryStore W) (r1 : ThreadTitleResult) (st1 : Run InMemoryStore W)
  (w2 : W) :
  1 <= maxEntries (store st) ->
  applyThreadTitle isCtl params st = (r1, st1) ->
  outcome r1 = outcome_applied ->
  provider params2 = provider params ->
  target params2 = target params ->
  primaryText params2 = primaryText params ->
  fallbackText params2 = fallbackText params ->
  count_setTitle (calls st1) = S (count_setTitle (calls st))
  /\ exists r2 st2,
      applyThreadTitle isCtl params2 (mkRun (store st1) w2 (calls st1)) = (r2, st2)
      /\ outcome r2 = outcome_skipped
      /\ reason r2 = "already_applied"
      /\ calls st2 = calls st1
      /\ store st2 = store st1
      /\ count_setTitle (calls st2) = S (count_setTitle (calls st)).
Proof.
  intros Hcap Happly Hout Hp Ht _ _.
  destruct (EngineFacts.applied_leaves_applied isCtl params st r1 st1 Hcap Happly Hout)
    as (k & state & Hch & Hk & Htk & Hget & Hs & Hcount).
  split; [exact Hcount|].
  destruct (EngineFacts.same_thread params params2 Hp Ht) as [Hch2 Hk2].
  eexists _, _. split.
  - apply (EngineFacts.stops_when_applied isCtl params2 _ k state).
    + now rewrite Hch2.
    + now rewrite Hk2.
    + exact Htk.
    + exact Hget.
    + exact Hs.
  - repeat split; auto.
Qed.

Lemma C1_second_call_already_applied_witness :
  count_setTitle
    (calls (snd (applyThreadTitle Samples.isControl
                   (Samples.request Samples.okProvider
                      "Please summarize deployment checklist" 1000)
                   Samples.emptyRun))) = 1%nat
  /\ exists r2 st2,
      applyThreadTitle Samples.isControl
        (Samples.request Samples.okProvider "Please summarize deployment checklist" 2000)
        (mkRun
           (store (snd (applyThreadTitle Samples.isControl
                          (Samples.request Samples.okProvider
                             "Please summarize deployment checklist" 1000)
                          Samples.emptyRun)))
           tt
           (calls (snd (applyThreadTitle Samples.isControl
                          (Samples.request Samples.okProvider
                             "Please summarize deployment checklist" 1000)
                          Samples.emptyRun))))
      = (r2, st2)
      /\ outcome r2 = outcome_skipped
      /\ reason r2 = "already_applied"
      /\ calls st2
         = calls (snd (applyThreadTitle Samples.isControl
                         (Samples.request Samples.okProvider
                            "Please summarize deployment checklist" 1000)
                         Samples.emptyRun))
      /\ store st2
         = store (snd (applyThreadTitle Samples.isControl
                         (Samples.request Samples.okProvider
                            "Please summarize deployment checklist" 1000)
                         Samples.emptyRun))
      /\ count_setTitle (calls st2) = 1%nat.
Proof.
  apply (C1_second_call_already_applied unit Samples.isControl
           (Samples.request Samples.okProvider "Please summarize deployment checklist" 1000)
           (Samples.request Samples.okProvider "Please summarize deployment checklist" 2000)
           Samples.emptyRun
           (fst (applyThreadTitle Samples.isControl
                   (Samples.request Samples.okProvider
                      "Please summarize deployment checklist" 1000)
                   Samples.emptyRun))
           (snd (applyThreadTitle Samples.isControl
                   (Samples.request Samples.okProvider
                      "Please summarize deployment checklist" 1000)
                   Samples.emptyRun))
           tt).
  - vm_compute. discriminate.
  - apply surjective_pairing.
  - vm_compute. reflexivity.
  - reflexivity.
  - reflexivity.
  - reflexivity.
  - reflexivity.
Defined.

(** C2. Permission failures disable for good, on the in-memory store with
    room for at least one entry: when [setTitle] rejects and the error is
    classified as [permission] (the call fails with that error class), the
    store holds the status [disabled] for the thread key; and every later
    request for a key whose stored status is [disabled] returns [skipped]
    with the reason [disabled] and leaves the run as it was, so [setTitle]
    is never called again, however many requests follow. *)
Theorem C2_permission_disables_for_good
  (W : Type) (isCtl : string -> bool) (params : Params W)
  (st : Run InMemoryStore W) (r1 : ThreadTitleResult) (st1 : Run InMemoryStore W) :
  1 <= maxEntries (store st) ->
  applyThreadTitle isCtl params st = (r1, st1) ->
  outcome r1 = outcome_failed ->
  errorClass r1 = Some permission ->
  exists k state,
    threadKeyOf params = Some k
    /\ (exists title w w' e,
           setTitle (provider params) (target params) title w = (Thrown e, w')
           /\ classify (provider params) e = permission)
    /\ store_get (store st1) k = Some state
    /\ status state = disabled
    /\ (forall (later : list (Params W)) (w2 : W),
           Forall (fun q => provider q = provider params /\ target q = target params)
             later ->
           applyEach isCtl later (mkRun (store st1) w2 (calls st1))
           = (map (fun _ => skipped "disabled" (Some k)) later,
              mkRun (store st1) w2 (calls st1)))
    /\ (forall (q : Params W) (stq : Run InMemoryStore W) kq stateq,
           channelsMatch q = true -> threadKeyOf q = Some kq -> Js.truthy kq = true ->
           store_get (store stq) kq = Some stateq -> status stateq = disabled ->
           applyThreadTitle isCtl q stq = (skipped "disabled" (Some kq), stq)).
Proof.
  intros Hcap Happly Hout Hclass.
  destruct (EngineFacts.failed_shape isCtl params st r1 st1 Hcap Happly Hout)
    as (k & title & base & w & w' & e & Hch & Hk & Htk & Hbase & Hset & Hr & Hget & _).
  rewrite Hr in Hclass. cbn [errorClass] in Hclass. inversion Hclass as [Hperm].
  exists k, (failureState (provider params) base (now params) e).
  split; [exact Hk|]. split; [now exists title, w, w', e|].
  split; [exact Hget|].
  assert (Hstatus : status (failureState (provider params) base (now params) e) = disabled).
  { unfold failureState. now rewrite Hperm. }
  split; [exact Hstatus|]. split.
  - intros later w2 Hlater.
    apply (EngineFacts.disabled_stays_disabled isCtl later
             (mkRun (store st1) w2 (calls st1)) k _ Htk Hget Hstatus).
    apply Forall_impl with (2 := Hlater). intros q [Hp Ht].
    destruct (EngineFacts.same_thread params q Hp Ht) as [-> ->]. now split.
  - intros q stq kq stateq. apply EngineFacts.stops_when_disabled.
Qed.

Lemma C2_permission_disables_for_good_witness :
  exists k state,
    threadKeyOf (Samples.request (Samples.failingProvider permission None)
                   "Investigate queue timeout in worker" 1000) = Some k
    /\ (exists title w w' e,
           setTitle (Samples.failingProvider permission None) Samples.slackTarget title w
           = (Thrown e, w')
           /\ classify (Samples.failingProvider permission None) e = permission)
    /\ store_get
         (store (snd (applyThreadTitle Samples.isControl
                        (Samples.request (Samples.failingProvider permission None)
                           "Investigate queue timeout in worker" 1000)
                        Samples.emptyRun))) k = Some state
    /\ status state = disabled
    /\ (forall (later : list (Params unit)) (w2 : unit),
           Forall (fun q => provider q = Samples.failingProvider permission None
                            /\ target q = Samples.slackTarget) later ->
           applyEach Samples.isControl later
             (mkRun (store (snd (applyThreadTitle Samples.isControl
                                   (Samples.request (Samples.failingProvider permission None)
                                      "Investigate queue timeout in worker" 1000)
                                   Samples.emptyRun))) w2
                (calls (snd (applyThreadTitle Samples.isControl
                               (Samples.request (Samples.failingProvider permission None)
                                  "Investigate queue timeout in worker" 1000)
                               Samples.emptyRun))))
           = (map (fun _ => skipped "disabled" (Some k)) later,
              mkRun (store (snd (applyThreadTitle Samples.isControl
                                   (Samples.request (Samples.failingProvider permission None)
                                      "Investigate queue timeout in worker" 1000)
                                   Samples.emptyRun))) w2
                (calls (snd (applyThreadTitle Samples.isControl
                               (Samples.request (Samples.failingProvider permission None)
                                  "Investigate queue timeout in worker" 1000)
                               Samples.emptyRun)))))
    /\ (forall (q : Params unit) (stq : Run InMemoryStore unit) kq stateq,
           channelsMatch q = true -> threadKeyOf q = Some kq -> Js.truthy kq = true ->
           store_get (store stq) kq = Some stateq -> status stateq = disabled ->
           applyThreadTitle Samples.isControl q stq = (skipped "disabled" (Some kq), stq)).
Proof.
  apply (C2_permission_disables_for_good unit Samples.isControl
           (Samples.request (Samples.failingProvider permission None)
              "Investigate queue timeout in worker" 1000)
           Samples.emptyRun
           (fst (applyThreadTitle Samples.isControl
                   (Samples.request (Samples.failingProvider permission None)
                      "Investigate queue timeout in worker" 1000)
                   Samples.emptyRun))).
  - vm_compute. discriminate.
  - apply surjective_pairing.
  - vm_compute. reflexivity.
  - vm_compute. reflexivity.
Defined.

(** C10. Retry times lie in the future: every state with the status
    [retry_after] that a call of [applyThreadTitle] writes to the store is
    written after [setTitle] rejected, and its [retryAfter] is the time of the
    call plus the larger of 1000 and the delay (the value of the provider's
    [retryAfterMs], or 60000 for a rate limit and 15000 otherwise); so it is
    at least one second after the time of the call, also when the provider
    answers zero or a negative delay. *)
Theorem C10_retry_after_is_in_the_future
  (W : Type) (isCtl : string -> bool) (params : Params W)
  (st : Run InMemoryStore W) (r : ThreadTitleResult) (st' : Run InMemoryStore W)
  (new : list Call) (k : string) (state : ThreadTitleState) :
  applyThreadTitle isCtl params st = (r, st') ->
  calls st' = (calls st ++ new)%list ->
  In (CallStoreSet k state) new ->
  status state = retry_after ->
  exists title w w' e delay,
    setTitle (provider params) (target params) title w = (Thrown e, w')
    /\ errorClass r = Some (classify (provider params) e)
    /\ delay = retryDelay (provider params) e (classify (provider params) e)
    /\ retryAfter state = Some (now params + Z.max 1000 delay)
    /\ now params + 1000 <= now params + Z.max 1000 delay.
Proof.
  intros Happly Hcalls Hin Hstatus.
  apply EngineFacts.apply_shape in Happly.
  destruct Happly as [[-> _]
                     | (k0 & title & base & _ & _ & _ & _ & _ & Hbase & Hshape)].
  { rewrite <- (app_nil_r (calls st)) in Hcalls at 1.
    apply app_inv_head in Hcalls. subst new. destruct Hin. }
  assert (Hpending : status base = pending) by now rewrite Hbase.
  destruct Hshape as [(g & current & w' & _ & _ & _ & _ & _ & ->)
                     | (probe & w1 & completion & w' & Hprobe & Hset & -> & ->)].
  - cbn [calls] in Hcalls. apply app_inv_head in Hcalls. subst new.
    cbn [In] in Hin. destruct Hin as [Hin | [Hin | [Hin | []]]]; inversion Hin; subst state.
    + rewrite Hpending in Hstatus. discriminate.
    + discriminate.
  - cbn [calls] in Hcalls. apply app_inv_head in Hcalls. subst new.
    assert (Hwritten : state = base
                       \/ state = writtenOf (provider params) base (now params) title
                                    completion).
    { destruct Hprobe as [-> | ->]; cbn [In app] in Hin.
      - destruct Hin as [Hin | [Hin | [Hin | []]]]; inversion Hin; auto.
      - destruct Hin as [Hin | [Hin | [Hin | [Hin | []]]]]; inversion Hin; auto. }
    destruct Hwritten as [-> | ->]; [rewrite Hpending in Hstatus; discriminate|].
    destruct completion as [[]|e]; [discriminate|].
    exists title, w1, w', e,
      (retryDelay (provider params) e (classify (provider params) e)).
    repeat split; auto.
    + cbn [writtenOf] in *. unfold failureState in *.
      destruct (ErrorClass_eqb (classify (provider params) e) permission
                || ErrorClass_eqb (classify (provider params) e) not_found);
        [discriminate | reflexivity].
    + lia.
Qed.

Lemma C10_retry_after_is_in_the_future_witness :
  exists title w w' e delay,
    setTitle (Samples.failingProvider rate_limit (Some (-5))) Samples.slackTarget title w
    = (Thrown e, w')
    /\ errorClass (fst (applyThreadTitle Samples.isControl
                          (Samples.request (Samples.failingProvider rate_limit (Some (-5)))
                             "Ship release checklist" 1000)
                          Samples.emptyRun))
       = Some (classify (Samples.failingProvider rate_limit (Some (-5))) e)
    /\ delay = retryDelay (Samples.failingProvider rate_limit (Some (-5))) e
                 (classify (Samples.failingProvider rate_limit (Some (-5))) e)
    /\ retryAfter (Samples.retryState rate_limit "Ship release checklist" 1000 2000)
       = Some (1000 + Z.max 1000 delay)
    /\ 1000 + 1000 <= 1000 + Z.max 1000 delay.
Proof.
  apply (C10_retry_after_is_in_the_future unit Samples.isControl
           (Samples.request (Samples.failingProvider rate_limit (Some (-5)))
              "Ship release checklist" 1000)
           Samples.emptyRun
           (fst (applyThreadTitle Samples.isControl
                   (Samples.request (Samples.failingProvider rate_limit (Some (-5)))
                      "Ship release checklist" 1000)
                   Samples.emptyRun))
           (snd (applyThreadTitle Samples.isControl
                   (Samples.request (Samples.failingProvider rate_limit (Some (-5)))
                      "Ship release checklist" 1000)
                   Samples.emptyRun))
           (calls (snd (applyThreadTitle Samples.isControl
                          (Samples.request (Samples.failingProvider rate_limit (Some (-5)))
                             "Ship release checklist" 1000)
                          Samples.emptyRun)))
           Samples.slackKey
           (Samples.retryState rate_limit "Ship release checklist" 1000 2000)).
  - apply surjective_pairing.
  - reflexivity.
  - vm_compute. right. right. left. reflexivity.
  - reflexivity.
Defined.

(* ===================================================================== *)
(** * Properties of the rename state of the manager *)
(* ===================================================================== *)

Module ManagerFacts.
Import ThreadTitleManager.

Lemma doubling_capped (n : Z) :
  1 <= n ->
  resolveRetryDelayMs unknown n = Z.min (60000 * 2 ^ (n - 1)) 3600000.
Proof.
  intros Hn. unfold resolveRetryDelayMs. rewrite Z.max_r by lia. reflexivity.
Qed.

(** The result of a failure that is not a permission failure: the state of
    the entry becomes [retry_after], due after the delay of its class. *)
Lemma markRenameResult_retry sessionKey key title attempts c
  nowAttempt nowApplied nowRetry entry state :
  Js.truthy_opt sessionKey = true ->
  nativeThreadTitle entry = Some state ->
  threadKey state = key ->
  c <> permission ->
  markRenameResult sessionKey key title attempts (Some c) nowAttempt nowApplied nowRetry
    (Some entry)
  = Some (mkEntry (Some (mkState key retry_after (Some attempts) (Some nowAttempt)
                           (appliedAt state) (appliedTitle state)
                           (lastProposedTitle state)
                           (Some (nowRetry + resolveRetryDelayMs c attempts))
                           (Some c)))).
Proof.
  intros Hs Hstate Hkey Hc. unfold markRenameResult. rewrite Hs. cbn [negb].
  unfold updateSessionStoreEntry, markRenameResult_update.
  rewrite Hstate, Hkey, String.eqb_refl. cbn [negb].
  destruct c; [congruence | reflexivity | reflexivity | reflexivity].
Qed.

(** The decision of [markRenameAttempt] on a state that waits for a retry. *)
Lemma markRenameAttempt_retry_after sessionKey key title now entry state until :
  Js.truthy_opt sessionKey = true ->
  nativeThreadTitle entry = Some state ->
  threadKey state = key ->
  status state = retry_after ->
  retryAfter state = Some until ->
  let early :=
    match lastErrorClass state with
    | Some c => ErrorClass_eqb c unknown
    | None => false
    end && negb (opt_string_eqb (lastProposedTitle state) title) in
  markRenameAttempt sessionKey key title now (Some entry)
  = if negb (until =? 0) && (until >? now) && negb early
    then (mkDecision false (match attempts state with Some n => n | None => 0 end),
          Some entry)
    else (mkDecision true (match attempts state with Some n => n | None => 0 end + 1),
          Some (mkEntry (Some (mkState key pending
                                 (Some (match attempts state with
                                        | Some n => n
                                        | None => 0
                                        end + 1))
                                 (Some now) None None (Some title) None None)))).
Proof.
  intros Hs Hstate Hkey Hstatus Hretry early.
  unfold markRenameAttempt. rewrite Hs. cbn [negb].
  unfold updateSessionStoreEntry, markRenameAttempt_update.
  rewrite Hstate, Hkey, String.eqb_refl, Hstatus, Hretry.
  cbn [Status_eqb truthy_num gt_opt andb]. fold early.
  destruct (negb (until =? 0) && (until >? now) && negb early).
  - cbn [nativeThreadTitle]. rewrite Hstate, Hkey, String.eqb_refl, Hstatus.
    reflexivity.
  - cbn [nativeThreadTitle threadKey status attempts].
    rewrite String.eqb_refl. reflexivity.
Qed.

End ManagerFacts.

(** C3, as the code has it. A failure classified as [not_found] is handled
    in two ways. In the manager, [markRenameResult] moves the state of the
    thread to [retry_after], due thirty minutes ([NOT_FOUND_RETRY_MS], 1800000
    ms) after the clock reading. In [applyThreadTitle], the same class of
    failure of [setTitle] disables the thread key: the store holds the status
    [disabled], and no retry time is scheduled. *)
Theorem C3_not_found_by_path
  (sessionKey : option string) (key title : string) (attempts : Z)
  (nowAttempt nowApplied nowRetry : Z)
  (entry : ThreadTitleManager.SessionEntry)
  (state : ThreadTitleManager.NativeThreadTitleState)
  (W : Type) (isCtl : string -> bool) (params : Params W)
  (st : Run InMemoryStore W) (r : ThreadTitleResult) (st' : Run InMemoryStore W) :
  Js.truthy_opt sessionKey = true ->
  ThreadTitleManager.nativeThreadTitle entry = Some state ->
  ThreadTitleManager.threadKey state = key ->
  1 <= maxEntries (store st) ->
  applyThreadTitle isCtl params st = (r, st') ->
  outcome r = outcome_failed ->
  errorClass r = Some not_found ->
  (exists state',
      ThreadTitleManager.markRenameResult sessionKey key title attempts
        (Some ThreadTitleManager.not_found) nowAttempt nowApplied nowRetry (Some entry)
      = Some (ThreadTitleManager.mkEntry (Some state'))
      /\ ThreadTitleManager.status state' = ThreadTitleManager.retry_after
      /\ ThreadTitleManager.retryAfter state' = Some (nowRetry + 30 * 60 * 1000)
      /\ ThreadTitleManager.lastErrorClass state' = Some ThreadTitleManager.not_found)
  /\ (exists k written,
         threadKeyOf params = Some k
         /\ store_get (store st') k = Some written
         /\ status written = disabled
         /\ lastErrorClass written = Some not_found
         /\ retryAfter written = opt_bind (store_get (store st) k) retryAfter).
Proof.
  intros Hs Hstate Hkey Hcap Happly Hout Hclass. split.
  - eexists. split.
    + apply (ManagerFacts.markRenameResult_retry sessionKey key title attempts
               ThreadTitleManager.not_found nowAttempt nowApplied nowRetry entry state);
        auto. discriminate.
    + repeat split.
  - destruct (EngineFacts.failed_shape isCtl params st r st' Hcap Happly Hout)
      as (k & title0 & base & w & w' & e & _ & Hk & _ & Hbase & _ & Hr & Hget & _).
    rewrite Hr in Hclass. cbn [errorClass] in Hclass. inversion Hclass as [Hnf].
    exists k, (failureState (provider params) base (now params) e).
    split; [exact Hk|]. split; [exact Hget|].
    unfold failureState. rewrite Hnf. cbn [ErrorClass_eqb orb].
    repeat split. cbn [disabledOnError retryAfter]. now rewrite Hbase.
Qed.

Lemma C3_not_found_by_path_witness :
  (exists state',
      ThreadTitleManager.markRenameResult Samples.managerSession Samples.managerKey
        "Better Thread Title" 1 (Some ThreadTitleManager.not_found) 2000 2000 2000
        (Some Samples.pendingEntry)
      = Some (ThreadTitleManager.mkEntry (Some state'))
      /\ ThreadTitleManager.status state' = ThreadTitleManager.retry_after
      /\ ThreadTitleManager.retryAfter state' = Some (2000 + 30 * 60 * 1000)
      /\ ThreadTitleManager.lastErrorClass state' = Some ThreadTitleManager.not_found)
  /\ (exists k written,
         threadKeyOf (Samples.request (Samples.plainFailingProvider not_found)
                        "Investigate queue timeout in worker" 1000) = Some k
         /\ store_get
              (store (snd (applyThreadTitle Samples.isControl
                             (Samples.request (Samples.plainFailingProvider not_found)
                                "Investigate queue timeout in worker" 1000)
                             Samples.emptyRun))) k = Some written
         /\ status written = disabled
         /\ lastErrorClass written = Some not_found
         /\ retryAfter written
            = opt_bind (store_get (store Samples.emptyRun) k) retryAfter).
Proof.
  apply (C3_not_found_by_path Samples.managerSession Samples.managerKey
           "Better Thread Title" 1 2000 2000 2000 Samples.pendingEntry
           (ThreadTitleManager.mkState Samples.managerKey ThreadTitleManager.pending
              (Some 1) (Some 1000) None None (Some "Better Thread Title") None None)
           unit Samples.isControl
           (Samples.request (Samples.plainFailingProvider not_found)
              "Investigate queue timeout in worker" 1000)
           Samples.emptyRun
           (fst (applyThreadTitle Samples.isControl
                   (Samples.request (Samples.plainFailingProvider not_found)
                      "Investigate queue timeout in worker" 1000)
                   Samples.emptyRun))
           (snd (applyThreadTitle Samples.isControl
                   (Samples.request (Samples.plainFailingProvider not_found)
                      "Investigate queue timeout in worker" 1000)
                   Samples.emptyRun))).
  - reflexivity.
  - reflexivity.
  - reflexivity.
  - vm_compute. discriminate.
  - apply surjective_pairing.
  - vm_compute. reflexivity.
  - vm_compute. reflexivity.
Defined.

(** C3, the claim as stated, fails on [applyThreadTitle]: a [setTitle] that
    rejects with an error classified as [not_found] leaves the thread key
    disabled, with no retry time, and not in the state [retry_after]. *)
Lemma C3_not_found_disables_in_applyThreadTitle :
  errorClass (fst (applyThreadTitle Samples.isControl
                     (Samples.request (Samples.plainFailingProvider not_found)
                        "Investigate queue timeout in worker" 1000)
                     Samples.emptyRun)) = Some not_found
  /\ option_map status
       (store_get
          (store (snd (applyThreadTitle Samples.isControl
                         (Samples.request (Samples.plainFailingProvider not_found)
                            "Investigate queue timeout in worker" 1000)
                         Samples.emptyRun))) Samples.slackKey) = Some disabled
  /\ option_map status
       (store_get
          (store (snd (applyThreadTitle Samples.isControl
                         (Samples.request (Samples.plainFailingProvider not_found)
                            "Investigate queue timeout in worker" 1000)
                         Samples.emptyRun))) Samples.slackKey) <> Some retry_after
  /\ option_map retryAfter
       (store_get
          (store (snd (applyThreadTitle Samples.isControl
                         (Samples.request (Samples.plainFailingProvider not_found)
                            "Investigate queue timeout in worker" 1000)
                         Samples.emptyRun))) Samples.slackKey) = Some None.
Proof.
  vm_compute. repeat split; discriminate.
Qed.

(** C4, as the code has it. In the manager, a failure classified as
    [unknown] on the n-th attempt (n at least 1) is retried after
    min(60000 * 2^(n-1), 3600000) ms: [resolveRetryDelayMs] computes that
    delay and [markRenameResult] schedules the retry that long after the
    clock reading. In [applyThreadTitle], a [setTitle] failure classified as
    [unknown] is retried after max(1000, d) ms, where d is the answer of the
    provider's [retryAfterMs], or 15000 when there is none: the delay does
    not grow with the attempts. *)
Theorem C4_unknown_backoff_by_path
  (n : Z)
  (sessionKey : option string) (key title : string)
  (nowAttempt nowApplied nowRetry : Z)
  (entry : ThreadTitleManager.SessionEntry)
  (state : ThreadTitleManager.NativeThreadTitleState)
  (W : Type) (isCtl : string -> bool) (params : Params W)
  (st : Run InMemoryStore W) (r : ThreadTitleResult) (st' : Run InMemoryStore W) :
  1 <= n ->
  Js.truthy_opt sessionKey = true ->
  ThreadTitleManager.nativeThreadTitle entry = Some state ->
  ThreadTitleManager.threadKey state = key ->
  1 <= maxEntries (store st) ->
  applyThreadTitle isCtl params st = (r, st') ->
  outcome r = outcome_failed ->
  errorClass r = Some unknown ->
  ThreadTitleManager.resolveRetryDelayMs ThreadTitleManager.unknown n
  = Z.min (60000 * 2 ^ (n - 1)) 3600000
  /\ (exists state',
         ThreadTitleManager.markRenameResult sessionKey key title n
           (Some ThreadTitleManager.unknown) nowAttempt nowApplied nowRetry (Some entry)
         = Some (ThreadTitleManager.mkEntry (Some state'))
         /\ ThreadTitleManager.status state' = ThreadTitleManager.retry_after
         /\ ThreadTitleManager.retryAfter state'
            = Some (nowRetry + Z.min (60000 * 2 ^ (n - 1)) 3600000))
  /\ (exists k written e,
         threadKeyOf params = Some k
         /\ store_get (store st') k = Some written
         /\ status written = retry_after
         /\ retryAfter written
            = Some (now params
                    + Z.max 1000
                        (match opt_bind (retryAfterMs (provider params))
                                 (fun f => f e unknown) with
                         | Some d => d
                         | None => 15000
                         end))).
Proof.
  intros Hn Hs Hstate Hkey Hcap Happly Hout Hclass.
  split; [now apply ManagerFacts.doubling_capped|]. split.
  - eexists. split.
    + apply (ManagerFacts.markRenameResult_retry sessionKey key title n
               ThreadTitleManager.unknown nowAttempt nowApplied nowRetry entry state);
        auto. discriminate.
    + split; [reflexivity|]. cbn [ThreadTitleManager.retryAfter].
      now rewrite ManagerFacts.doubling_capped.
  - destruct (EngineFacts.failed_shape isCtl params st r st' Hcap Happly Hout)
      as (k & title0 & base & w & w' & e & _ & Hk & _ & Hbase & _ & Hr & Hget & _).
    rewrite Hr in Hclass. cbn [errorClass] in Hclass. inversion Hclass as [Hunk].
    exists k, (failureState (provider params) base (now params) e), e.
    split; [exact Hk|]. split; [exact Hget|].
    unfold failureState, retryDelay. rewrite Hunk. cbn [ErrorClass_eqb orb].
    split; reflexivity.
Qed.

Lemma C4_unknown_backoff_by_path_witness :
  ThreadTitleManager.resolveRetryDelayMs ThreadTitleManager.unknown 3
  = Z.min (60000 * 2 ^ (3 - 1)) 3600000
  /\ (exists state',
         ThreadTitleManager.markRenameResult Samples.managerSession Samples.managerKey
           "Better Thread Title" 3 (Some ThreadTitleManager.unknown) 2000 2000 2000
           (Some Samples.pendingEntry)
         = Some (ThreadTitleManager.mkEntry (Some state'))
         /\ ThreadTitleManager.status state' = ThreadTitleManager.retry_after
         /\ ThreadTitleManager.retryAfter state'
            = Some (2000 + Z.min (60000 * 2 ^ (3 - 1)) 3600000))
  /\ (exists k written e,
         threadKeyOf (Samples.request (Samples.plainFailingProvider unknown)
                        "Investigate queue timeout in worker" 1000) = Some k
         /\ store_get
              (store (snd (applyThreadTitle Samples.isControl
                             (Samples.request (Samples.plainFailingProvider unknown)
                                "Investigate queue timeout in worker" 1000)
                             Samples.emptyRun))) k = Some written
         /\ status written = retry_after
         /\ retryAfter written
            = Some (1000
                    + Z.max 1000
                        (match opt_bind (retryAfterMs (Samples.plainFailingProvider unknown))
                                 (fun f => f e unknown) with
                         | Some d => d
                         | None => 15000
                         end))).
Proof.
  apply (C4_unknown_backoff_by_path 3 Samples.managerSession Samples.managerKey
           "Better Thread Title" 2000 2000 2000 Samples.pendingEntry
           (ThreadTitleManager.mkState Samples.managerKey ThreadTitleManager.pending
              (Some 1) (Some 1000) None None (Some "Better Thread Title") None None)
           unit Samples.isControl
           (Samples.request (Samples.plainFailingProvider unknown)
              "Investigate queue timeout in worker" 1000)
           Samples.emptyRun
           (fst (applyThreadTitle Samples.isControl
                   (Samples.request (Samples.plainFailingProvider unknown)
                      "Investigate queue timeout in worker" 1000)
                   Samples.emptyRun))
           (snd (applyThreadTitle Samples.isControl
                   (Samples.request (Samples.plainFailingProvider unknown)
                      "Investigate queue timeout in worker" 1000)
                   Samples.emptyRun))).
  - lia.
  - reflexivity.
  - reflexivity.
  - reflexivity.
  - vm_compute. discriminate.
  - apply surjective_pairing.
  - vm_compute. reflexivity.
  - vm_compute. reflexivity.
Defined.

(** C4, the claim as stated, fails on [applyThreadTitle]: on the first
    attempt, a [setTitle] failure classified as [unknown] by a provider
    without a [retryAfterMs] is retried 15000 ms after the call, not
    min(60000 * 2^0, 3600000) = 60000 ms after it. *)
Lemma C4_unknown_delay_is_fixed_in_applyThreadTitle :
  errorClass (fst (applyThreadTitle Samples.isControl
                     (Samples.request (Samples.plainFailingProvider unknown)
                        "Investigate queue timeout in worker" 1000)
                     Samples.emptyRun)) = Some unknown
  /\ opt_bind
       (store_get
          (store (snd (applyThreadTitle Samples.isControl
                         (Samples.request (Samples.plainFailingProvider unknown)
                            "Investigate queue timeout in worker" 1000)
                         Samples.emptyRun))) Samples.slackKey) attempts = Some 1
  /\ opt_bind
       (store_get
          (store (snd (applyThreadTitle Samples.isControl
                         (Samples.request (Samples.plainFailingProvider unknown)
                            "Investigate queue timeout in worker" 1000)
                         Samples.emptyRun))) Samples.slackKey) retryAfter
     = Some (1000 + 15000)
  /\ opt_bind
       (store_get
          (store (snd (applyThreadTitle Samples.isControl
                         (Samples.request (Samples.plainFailingProvider unknown)
                            "Investigate queue timeout in worker" 1000)
                         Samples.emptyRun))) Samples.slackKey) retryAfter
     <> Some (1000 + Z.min (60000 * 2 ^ (1 - 1)) 3600000).
Proof.
  vm_compute. repeat split; discriminate.
Qed.

(** C5, as the code has it. In the manager, [markRenameAttempt] on a state
    that waits for a retry ([retry_after], with [retryAfter] still ahead of
    the clock) lets a request through at once when the last error class is
    [unknown] and the proposed title differs from [lastProposedTitle]; when
    the title is the same, or the last error class is not [unknown], the
    request is refused and the entry stays as it is; once the clock has
    reached [retryAfter], the request goes through. In [applyThreadTitle]
    there is no early retry: while [retryAfter] is ahead of the clock every
    request for the key is skipped with the reason [cooldown], whatever its
    title; once the clock has reached [retryAfter] the request is no longer
    skipped for that reason. *)
Theorem C5_early_retry_by_path
  (sessionKey : option string) (key title : string) (now : Z)
  (entry : ThreadTitleManager.SessionEntry)
  (state : ThreadTitleManager.NativeThreadTitleState) (until : Z)
  (W : Type) (isCtl : string -> bool) (params : Params W)
  (st : Run InMemoryStore W) (k : string) (waiting : ThreadTitleState) (until' : Z) :
  Js.truthy_opt sessionKey = true ->
  ThreadTitleManager.nativeThreadTitle entry = Some state ->
  ThreadTitleManager.threadKey state = key ->
  ThreadTitleManager.status state = ThreadTitleManager.retry_after ->
  ThreadTitleManager.retryAfter state = Some until ->
  0 <= now ->
  channelsMatch params = true ->
  threadKeyOf params = Some k ->
  Js.truthy k = true ->
  store_get (store st) k = Some waiting ->
  status waiting = retry_after ->
  retryAfter waiting = Some until' ->
  (now < until ->
   ThreadTitleManager.lastErrorClass state = Some ThreadTitleManager.unknown ->
   ThreadTitleManager.lastProposedTitle state <> Some title ->
   exists attempts,
     ThreadTitleManager.markRenameAttempt sessionKey key title now (Some entry)
     = (ThreadTitleManager.mkDecision true attempts,
        Some (ThreadTitleManager.mkEntry
                (Some (ThreadTitleManager.mkState key ThreadTitleManager.pending
                         (Some attempts) (Some now) None None (Some title) None None)))))
  /\ (now < until ->
      (ThreadTitleManager.lastProposedTitle state = Some title
       \/ ThreadTitleManager.lastErrorClass state <> Some ThreadTitleManager.unknown) ->
      ThreadTitleManager.shouldApply
        (fst (ThreadTitleManager.markRenameAttempt sessionKey key title now (Some entry)))
      = false
      /\ snd (ThreadTitleManager.markRenameAttempt sessionKey key title now (Some entry))
         = Some entry)
  /\ (until <= now ->
      ThreadTitleManager.shouldApply
        (fst (ThreadTitleManager.markRenameAttempt sessionKey key title now (Some entry)))
      = true)
  /\ (ThreadTitle.now params < until' ->
      applyThreadTitle isCtl params st = (skipped "cooldown" (Some k), st))
  /\ (until' <= ThreadTitle.now params ->
      reason (fst (applyThreadTitle isCtl params st)) <> "cooldown").
Proof.
  intros Hs Hstate Hkey Hstatus Hretry Hnow Hch Hk Htk Hget Hwait Huntil.
  pose proof (ManagerFacts.markRenameAttempt_retry_after sessionKey key title now entry
                state until Hs Hstate Hkey Hstatus Hretry) as Hdecide.
  cbn zeta in Hdecide.
  split; [|split; [|split; [|split]]].
  - intros Hlt Hunk Htitle. rewrite Hdecide, Hunk.
    replace (ThreadTitleManager.opt_string_eqb
               (ThreadTitleManager.lastProposedTitle state) title) with false.
    + cbn [ThreadTitleManager.ErrorClass_eqb andb negb]. rewrite andb_false_r.
      eexists. reflexivity.
    + symmetry. unfold ThreadTitleManager.opt_string_eqb.
      destruct (ThreadTitleManager.lastProposedTitle state) as [t|]; [|reflexivity].
      apply String.eqb_neq. congruence.
  - intros Hlt Hsame. rewrite Hdecide.
    replace (until >? now) with true by (symmetry; apply Z.gtb_lt; lia).
    replace (negb (until =? 0)) with true
      by (symmetry; apply negb_true_iff, Z.eqb_neq; lia).
    assert (Hearly :
              match ThreadTitleManager.lastErrorClass state with
              | Some c => ThreadTitleManager.ErrorClass_eqb c ThreadTitleManager.unknown
              | None => false
              end
              && negb (ThreadTitleManager.opt_string_eqb
                         (ThreadTitleManager.lastProposedTitle state) title) = false).
    { destruct Hsame as [Hsame | Hsame].
      - rewrite Hsame. cbn [ThreadTitleManager.opt_string_eqb].
        rewrite String.eqb_refl. apply andb_false_r.
      - destruct (ThreadTitleManager.lastErrorClass state) as [[]|];
          try reflexivity. congruence. }
    rewrite Hearly. cbn [andb negb fst snd ThreadTitleManager.shouldApply]. now split.
  - intros Hle. rewrite Hdecide.
    replace (until >? now) with false
      by (symmetry; rewrite Z.gtb_ltb; apply Z.ltb_ge; lia).
    rewrite andb_false_r. reflexivity.
  - intros Hlt. unfold applyThreadTitle.
    rewrite Hch, Hk, Htk. cbn [negb]. rewrite Hget.
    cbn [is_status in_cooldown]. rewrite Hwait, Huntil. cbn [Status_eqb andb].
    replace (until' >? ThreadTitle.now params) with true
      by (symmetry; apply Z.gtb_lt; lia).
    reflexivity.
  - intros Hle. unfold applyThreadTitle.
    rewrite Hch, Hk, Htk. cbn [negb]. rewrite Hget.
    cbn [is_status in_cooldown]. rewrite Hwait, Huntil. cbn [Status_eqb andb].
    replace (until' >? ThreadTitle.now params) with false
      by (symmetry; rewrite Z.gtb_ltb; apply Z.ltb_ge; lia).
    destruct (ConversationTitle.deriveConversationTitle isCtl (primaryText params)
                (fallbackText params) (maxChars params)) as [t|]; [|discriminate].
    destruct (Js.truthy t) eqn:Ht; cbn [negb]; [|discriminate].
    match goal with
    | |- reason (fst ?c) <> _ => destruct c as [r st'] eqn:Hcheck
    end.
    change k with (threadKey (baseStateOf (Some waiting) k t (ThreadTitle.now params)))
      in Hcheck at 2.
    apply EngineFacts.check_shape in Hcheck; [|exact Htk].
    destruct Hcheck as [(g & current & w' & _ & _ & _ & _ & -> & _)
                       | (probe & w1 & completion & w' & _ & _ & -> & _)];
      [discriminate|].
    destruct completion; discriminate.
Qed.

Lemma C5_early_retry_by_path_witness :
  (5000 < 65000 ->
   ThreadTitleManager.lastErrorClass
     (ThreadTitleManager.mkState Samples.managerKey ThreadTitleManager.retry_after
        (Some 1) (Some 1000) None None (Some "previous title") (Some 65000)
        (Some ThreadTitleManager.unknown))
   = Some ThreadTitleManager.unknown ->
   ThreadTitleManager.lastProposedTitle
     (ThreadTitleManager.mkState Samples.managerKey ThreadTitleManager.retry_after
        (Some 1) (Some 1000) None None (Some "previous title") (Some 65000)
        (Some ThreadTitleManager.unknown))
   <> Some "Better Thread Title" ->
   exists attempts,
     ThreadTitleManager.markRenameAttempt Samples.managerSession Samples.managerKey
       "Better Thread Title" 5000
       (Some (Samples.waitingEntry ThreadTitleManager.unknown "previous title" 65000))
     = (ThreadTitleManager.mkDecision true attempts,
        Some (ThreadTitleManager.mkEntry
                (Some (ThreadTitleManager.mkState Samples.managerKey
                         ThreadTitleManager.pending (Some attempts) (Some 5000)
                         None None (Some "Better Thread Title") None None)))))
  /\ (5000 < 65000 ->
      (ThreadTitleManager.lastProposedTitle
         (ThreadTitleManager.mkState Samples.managerKey ThreadTitleManager.retry_after
            (Some 1) (Some 1000) None None (Some "previous title") (Some 65000)
            (Some ThreadTitleManager.unknown))
       = Some "Better Thread Title"
       \/ ThreadTitleManager.lastErrorClass
            (ThreadTitleManager.mkState Samples.managerKey ThreadTitleManager.retry_after
               (Some 1) (Some 1000) None None (Some "previous title") (Some 65000)
               (Some ThreadTitleManager.unknown))
          <> Some ThreadTitleManager.unknown) ->
      ThreadTitleManager.shouldApply
        (fst (ThreadTitleManager.markRenameAttempt Samples.managerSession
                Samples.managerKey "Better Thread Title" 5000
                (Some (Samples.waitingEntry ThreadTitleManager.unknown "previous title"
                         65000))))
      = false
      /\ snd (ThreadTitleManager.markRenameAttempt Samples.managerSession
                Samples.managerKey "Better Thread Title" 5000
                (Some (Samples.waitingEntry ThreadTitleManager.unknown "previous title"
                         65000)))
         = Some (Samples.waitingEntry ThreadTitleManager.unknown "previous title" 65000))
  /\ (65000 <= 5000 ->
      ThreadTitleManager.shouldApply
        (fst (ThreadTitleManager.markRenameAttempt Samples.managerSession
                Samples.managerKey "Better Thread Title" 5000
                (Some (Samples.waitingEntry ThreadTitleManager.unknown "previous title"
                         65000))))
      = true)
  /\ (ThreadTitle.now (Samples.request Samples.okProvider "Investigate login bug" 5000)
      < 100000 ->
      applyThreadTitle Samples.isControl
        (Samples.request Samples.okProvider "Investigate login bug" 5000)
        (Samples.runWith (Samples.retryState unknown "Old proposal" 1000 100000))
      = (skipped "cooldown" (Some Samples.slackKey),
         Samples.runWith (Samples.retryState unknown "Old proposal" 1000 100000)))
  /\ (100000
      <= ThreadTitle.now (Samples.request Samples.okProvider "Investigate login bug" 5000) ->
      reason (fst (applyThreadTitle Samples.isControl
                     (Samples.request Samples.okProvider "Investigate login bug" 5000)
                     (Samples.runWith
                        (Samples.retryState unknown "Old proposal" 1000 100000))))
      <> "cooldown").
Proof.
  apply (C5_early_retry_by_path Samples.managerSession Samples.managerKey
           "Better Thread Title" 5000
           (Samples.waitingEntry ThreadTitleManager.unknown "previous title" 65000)
           (ThreadTitleManager.mkState Samples.managerKey ThreadTitleManager.retry_after
              (Some 1) (Some 1000) None None (Some "previous title") (Some 65000)
              (Some ThreadTitleManager.unknown))
           65000
           unit Samples.isControl
           (Samples.request Samples.okProvider "Investigate login bug" 5000)
           (Samples.runWith (Samples.retryState unknown "Old proposal" 1000 100000))
           Samples.slackKey
           (Samples.retryState unknown "Old proposal" 1000 100000)
           100000).
  - reflexivity.
  - reflexivity.
  - reflexivity.
  - reflexivity.
  - reflexivity.
  - lia.
  - reflexivity.
  - reflexivity.
  - reflexivity.
  - reflexivity.
  - reflexivity.
  - reflexivity.
Defined.

(** C5, the claim as stated, fails on [applyThreadTitle]: the stored state
    is [retry_after] after an [unknown] error, [retryAfter] is far ahead of
    the clock and the text of the request yields a title that differs from
    [lastProposedTitle]; the request is skipped with the reason [cooldown]
    all the same, and [setTitle] is not called. *)
Lemma C5_no_early_retry_in_applyThreadTitle :
  ConversationTitle.deriveConversationTitle Samples.isControl
    (Some "Investigate login bug") None 80 = Some "Investigate login bug"
  /\ lastProposedTitle (Samples.retryState unknown "Old proposal" 1000 100000)
     = Some "Old proposal"
  /\ lastErrorClass (Samples.retryState unknown "Old proposal" 1000 100000)
     = Some unknown
  /\ applyThreadTitle Samples.isControl
       (Samples.request Samples.okProvider "Investigate login bug" 5000)
       (Samples.runWith (Samples.retryState unknown "Old proposal" 1000 100000))
     = (skipped "cooldown" (Some Samples.slackKey),
        Samples.runWith (Samples.retryState unknown "Old proposal" 1000 100000))
  /\ reason (fst (applyThreadTitle Samples.isControl
                    (Samples.request Samples.okProvider "Investigate login bug" 5000)
                    (Samples.runWith
                       (Samples.retryState unknown "Old proposal" 1000 100000))))
     = "cooldown".
Proof.
  vm_compute. repeat split.
Qed.

(* ===================================================================== *)
(** * Properties of the title extractor *)
(* ===================================================================== *)

Module TitleFacts.
Import ConversationTitle.




(** A title that is returned is not empty: the last check of the loop
    body asks for three characters. *)
Lemma finishTitle_truthy isCtl maxChars title title' :
  finishTitle isCtl maxChars title = Some title' -> Js.truthy title' = true.
Proof.
  unfold finishTitle. destruct (_ || _); [discriminate|]. cbv zeta.
  destruct (Js.len _ <? 3) eqn:Hlen; [discriminate|].
  intros Heq. inversion Heq; subst title'. clear Heq.
  destruct (stripTrailingPunctuation _); [discriminate Hlen | reflexivity].
Qed.

Lemma derive_truthy isCtl primary fallback maxChars title :
  deriveConversationTitle isCtl primary fallback maxChars = Some title ->
  Js.truthy title = true.
Proof.
  unfold deriveConversationTitle. cbv zeta. cbn [firstCandidate].
  unfold candidateTitle.
  destruct (normalizedTitle normalizeAttachmentTokens primary) as [t1|].
  - destruct (finishTitle isCtl (Z.max 1 maxChars) t1) as [t1'|] eqn:H1.
    + intros Heq. inversion Heq; subst t1'. now apply finishTitle_truthy in H1.
    + destruct (normalizedTitle normalizeAttachmentTokens fallback) as [t2|];
        [|discriminate].
      destruct (finishTitle isCtl (Z.max 1 maxChars) t2) as [t2'|] eqn:H2;
        [|discriminate].
      intros Heq. inversion Heq; subst t2'. now apply finishTitle_truthy in H2.
  - destruct (normalizedTitle normalizeAttachmentTokens fallback) as [t2|];
      [|discriminate].
    destruct (finishTitle isCtl (Z.max 1 maxChars) t2) as [t2'|] eqn:H2;
      [|discriminate].
    intros Heq. inversion Heq; subst t2'. now apply finishTitle_truthy in H2.
Qed.

End TitleFacts.

(** C6. The existing-title check, on the in-memory store with room for at
    least one entry: when the provider defines [getCurrentTitle] and it
    returns a title that is not empty and is not a default placeholder, a
    call of [applyThreadTitle] never calls [setTitle]. A call that gets
    past the checks that come before (the channels match, the target has a
    key, the key is neither disabled, nor in its cooldown, nor applied, and
    the texts yield a proposal) returns [skipped] with the reason
    [existing_title_present]; the store then holds, for the thread key, the
    status [disabled] with [appliedTitle] set to the title found and
    [appliedAt] set to the time of the call, and the call has done nothing
    but store the pending state, look at the current title once, and store
    the disabled state. A call that stops at one of the earlier checks
    leaves the run as it was. This [applyThreadTitle] takes no overwrite
    setting: the property holds for every call, so also when the setting is
    not enabled. *)
Theorem C6_existing_title_is_kept
  (W : Type) (isCtl : string -> bool) (params : Params W)
  (st : Run InMemoryStore W) (r : ThreadTitleResult) (st' : Run InMemoryStore W)
  (g : ThreadTitleTarget -> W -> Completion (option string) * W)
  (current : string) (w1 : W) :
  1 <= maxEntries (store st) ->
  getCurrentTitle (provider params) = Some g ->
  g (target params) (world st) = (Returned (Some current), w1) ->
  current <> EmptyString ->
  ConversationTitle.isDefaultThreadPlaceholder (Some current) = false ->
  applyThreadTitle isCtl params st = (r, st') ->
  count_setTitle (calls st') = count_setTitle (calls st)
  /\ ((st' = st
       /\ exists reason key,
           r = skipped reason key
           /\ In reason ["provider_mismatch"; "unsupported_target"; "disabled";
                         "cooldown"; "already_applied"; "no_candidate"])
      \/ (exists k state,
             threadKeyOf params = Some k
             /\ r = skipped "existing_title_present" (Some k)
             /\ store_get (store st') k = Some state
             /\ status state = disabled
             /\ appliedTitle state = Some current
             /\ appliedAt state = Some (now params)))
  /\ (forall k title,
         channelsMatch params = true ->
         threadKeyOf params = Some k ->
         Js.truthy k = true ->
         is_status (store_get (store st) k) disabled = false ->
         in_cooldown (store_get (store st) k) (now params) = false ->
         is_status (store_get (store st) k) applied = false ->
         ConversationTitle.deriveConversationTitle isCtl (primaryText params)
           (fallbackText params) (maxChars params) = Some title ->
         r = skipped "existing_title_present" (Some k)
         /\ exists state,
             store_get (store st') k = Some state
             /\ status state = disabled
             /\ appliedTitle state = Some current
             /\ appliedAt state = Some (now params)
             /\ lastProposedTitle state = Some title
             /\ calls st'
                = (calls st
                   ++ [CallStoreSet k
                         (baseStateOf (store_get (store st) k) k title (now params));
                       CallGetCurrentTitle (target params);
                       CallStoreSet k state])%list).
Proof.
  intros Hcap Hg Hgw Hne Hph Happly.
  assert (Hcur : Js.truthy current = true) by (destruct current; [congruence | reflexivity]).
  assert (Hstep : forall k title,
             Js.truthy k = true ->
             checkCurrentTitleThenSet (provider params) (target params)
               (baseStateOf (store_get (store st) k) k title (now params))
               (now params) title k
               (storeState (baseStateOf (store_get (store st) k) k title (now params)) st)
             = (r, st') ->
             r = skipped "existing_title_present" (Some k)
             /\ store_get (store st') k
                = Some (disabledOnExistingTitle
                          (baseStateOf (store_get (store st) k) k title (now params))
                          (now params) current)
             /\ calls st'
                = (calls st
                   ++ [CallStoreSet k
                         (baseStateOf (store_get (store st) k) k title (now params));
                       CallGetCurrentTitle (target params);
                       CallStoreSet k
                         (disabledOnExistingTitle
                            (baseStateOf (store_get (store st) k) k title (now params))
                            (now params) current)])%list).
  { intros k title Htk Hcheck.
    set (base := baseStateOf (store_get (store st) k) k title (now params)) in *.
    unfold checkCurrentTitleThenSet in Hcheck. rewrite Hg in Hcheck.
    assert (Hworld : world (storeState (W:=W) base st) = world st) by reflexivity.
    rewrite Hworld, Hgw, Hcur, Hph in Hcheck. cbn [andb negb] in Hcheck.
    assert (Hbase : Js.truthy (threadKey base) = true) by exact Htk.
    assert (Hdis : Js.truthy (threadKey (disabledOnExistingTitle base (now params) current))
                   = true) by exact Htk.
    rewrite (EngineFacts.storeState_truthy _ _ Hdis) in Hcheck.
    cbn [store world calls] in Hcheck.
    rewrite (EngineFacts.storeState_truthy _ _ Hbase) in Hcheck.
    cbn [store world calls] in Hcheck.
    inversion Hcheck as [[Hr Hst]]. clear Hcheck.
    split; [reflexivity|]. split.
    - cbn [store].
      apply StoreFacts.inMemory_get_set.
      now rewrite StoreFacts.maxEntries_set.
    - cbn [calls]. now rewrite <- !app_assoc. }
  split; [|split].
  - apply EngineFacts.apply_inv in Happly.
    destruct Happly as [[-> _] | (k & title & _ & _ & Htk & _ & _ & _ & _ & _ & Hcheck)];
      [reflexivity|].
    destruct (Hstep k title Htk Hcheck) as (_ & _ & ->).
    rewrite EngineFacts.count_setTitle_app.
    change (count_setTitle [CallStoreSet k _; CallGetCurrentTitle _; CallStoreSet k _])
      with 0%nat.
    lia.
  - apply EngineFacts.apply_inv in Happly.
    destruct Happly as [[-> Hearly]
                       | (k & title & _ & Hk & Htk & _ & _ & _ & _ & _ & Hcheck)].
    { left. now split. }
    destruct (Hstep k title Htk Hcheck) as (Hr & Hget & _).
    right.
    exists k, (disabledOnExistingTitle
                 (baseStateOf (store_get (store st) k) k title (now params))
                 (now params) current).
    repeat split; first [assumption | reflexivity].
  - intros k title Hch Hk Htk Hd Hc Ha Ht.
    pose proof (TitleFacts.derive_truthy _ _ _ _ _ Ht) as Htt.
    unfold applyThreadTitle in Happly.
    rewrite Hch, Hk, Htk, Hd, Hc, Ha, Ht, Htt in Happly. cbn [negb] in Happly.
    destruct (Hstep k title Htk Happly) as (Hr & Hget & Hcalls).
    split; [exact Hr|].
    exists (disabledOnExistingTitle
              (baseStateOf (store_get (store st) k) k title (now params))
              (now params) current).
    repeat split; first [assumption | reflexivity].
Qed.

Lemma C6_existing_title_is_kept_witness :
  fst (applyThreadTitle Samples.isControl
         (Samples.request (Samples.namedProvider "Roadmap planning")
            "Please summarize deployment checklist" 1000)
         Samples.emptyRun)
  = skipped "existing_title_present" (Some Samples.slackKey)
  /\ (exists state,
         store_get
           (store (snd (applyThreadTitle Samples.isControl
                          (Samples.request (Samples.namedProvider "Roadmap planning")
                             "Please summarize deployment checklist" 1000)
                          Samples.emptyRun))) Samples.slackKey = Some state
         /\ status state = disabled
         /\ appliedTitle state = Some "Roadmap planning"
         /\ appliedAt state = Some 1000
         /\ lastProposedTitle state = Some "Please summarize deployment checklist"
         /\ calls (snd (applyThreadTitle Samples.isControl
                          (Samples.request (Samples.namedProvider "Roadmap planning")
                             "Please summarize deployment checklist" 1000)
                          Samples.emptyRun))
            = [CallStoreSet Samples.slackKey
                 (baseStateOf None Samples.slackKey
                    "Please summarize deployment checklist" 1000);
               CallGetCurrentTitle Samples.slackTarget;
               CallStoreSet Samples.slackKey state])
  /\ count_setTitle
       (calls (snd (applyThreadTitle Samples.isControl
                      (Samples.request (Samples.namedProvider "Roadmap planning")
                         "Please summarize deployment checklist" 1000)
                      Samples.emptyRun))) = 0%nat.
Proof.
  destruct (C6_existing_title_is_kept unit Samples.isControl
              (Samples.request (Samples.namedProvider "Roadmap planning")
                 "Please summarize deployment checklist" 1000)
              Samples.emptyRun
              (fst (applyThreadTitle Samples.isControl
                      (Samples.request (Samples.namedProvider "Roadmap planning")
                         "Please summarize deployment checklist" 1000)
                      Samples.emptyRun))
              (snd (applyThreadTitle Samples.isControl
                      (Samples.request (Samples.namedProvider "Roadmap planning")
                         "Please summarize deployment checklist" 1000)
                      Samples.emptyRun))
              (fun _ w => (Returned (Some "Roadmap planning"), w))
              "Roadmap planning" tt)
    as (Hcount & _ & Hpast).
  - vm_compute. discriminate.
  - reflexivity.
  - reflexivity.
  - discriminate.
  - vm_compute. reflexivity.
  - apply surjective_pairing.
  - destruct (Hpast Samples.slackKey "Please summarize deployment checklist")
      as (Hr & state & Hget & Hstatus & Htitle & Hat & Hproposed & Hcalls).
    + vm_compute. reflexivity.
    + vm_compute. reflexivity.
    + reflexivity.
    + reflexivity.
    + reflexivity.
    + reflexivity.
    + vm_compute. reflexivity.
    + split; [exact Hr|]. split; [|exact Hcount].
      exists state. repeat split; assumption.
Defined.



(* ===================================================================== *)
(** * Properties of the title generator *)
(* ===================================================================== *)

Module GeneratorFacts.
Import ThreadTitleLlm.

Lemma sanitized_of raw : sanitized (sanitizeLlmTitleCandidate raw).
Proof.
  unfold sanitized. destruct (sanitizeLlmTitleCandidate raw) as [t|] eqn:Hs.
  - right. now exists raw, t.
  - now left.
Qed.

Lemma sanitized_None : sanitized None.
Proof. now left. Qed.

(** A [try] whose [catch] block returns and whose [finally] block returns
    is a computation that returns: nothing is thrown past it. *)
Lemma try_catch_finally_returns {St A} (P : A -> Prop)
  (body : Eff.t St A) (handler : JsError -> Eff.t St A) (fin : Eff.t St unit) :
  (forall s a s', body s = (Returned a, s') -> P a) ->
  (forall e s, exists a s', handler e s = (Returned a, s') /\ P a) ->
  (forall s, exists s', fin s = (Returned tt, s')) ->
  forall s, exists a s',
    Eff.try_finally (Eff.try_catch body handler) fin s = (Returned a, s') /\ P a.
Proof.
  intros Hbody Hhandler Hfin s. unfold Eff.try_finally, Eff.try_catch.
  destruct (body s) as [[a|e] s1] eqn:Hb.
  - destruct (Hfin s1) as (s2 & ->). exists a, s2. split; [reflexivity|].
    now apply (Hbody s a s1).
  - destruct (Hhandler e s1) as (a & s2 & -> & Ha).
    destruct (Hfin s2) as (s3 & ->). now exists a, s3.
Qed.

Lemma ret_returns {St A} (P : A -> Prop) (a : A) (s : St) :
  P a -> exists a' s', Eff.ret a s = (Returned a', s') /\ P a'.
Proof. intros Ha. now exists a, s. Qed.

Ltac step_bind H :=
  match type of H with
  | Eff.bind ?c ?k ?s = _ =>
      unfold Eff.bind at 1 in H;
      destruct (c s) as [[?|?] ?] eqn:?; [|discriminate H]
  end.

Lemma agent_body_sanitized env params parsedRef sourceText s a s' :
  ThreadTitleLlmAgent.tryBody env params parsedRef sourceText s = (Returned a, s') ->
  sanitized a.
Proof.
  unfold ThreadTitleLlmAgent.tryBody. intros H.
  repeat step_bind H.
  unfold Eff.ret in H. inversion H. apply sanitized_of.
Qed.

Lemma agent_cleanup_returns env s :
  exists s', ThreadTitleLlmAgent.cleanup env s = (Returned tt, s').
Proof.
  unfold ThreadTitleLlmAgent.cleanup, Eff.bind, Eff.get.
  destruct (ThreadTitleLlmAgent.tempDir s) as [dir|]; [|now eexists].
  destruct (Js.truthy dir); [|now eexists].
  unfold ThreadTitleLlmAgent.emit, Eff.modify, Eff.await, Eff.caught.
  destruct (ThreadTitleLlmAgent.rm env dir) as [[]|e]; now eexists.
Qed.

Lemma fetch_text_sanitized (fetched : Eff.t ThreadTitleLlmFetch.Local (option string))
  s a s' :
  Eff.bind fetched
    (fun rawText =>
       match rawText with
       | None => Eff.ret None
       | Some rawText =>
           if negb (Js.truthy rawText) then Eff.ret None
           else Eff.ret (sanitizeLlmTitleCandidate rawText)
       end) s = (Returned a, s') ->
  sanitized a.
Proof.
  intros H. unfold Eff.bind in H.
  destruct (fetched s) as [[[raw|]|e] s1]; [| |discriminate H].
  - destruct (negb (Js.truthy raw)); unfold Eff.ret in H; inversion H;
      [apply sanitized_None | apply sanitized_of].
  - unfold Eff.ret in H. inversion H. apply sanitized_None.
Qed.

End GeneratorFacts.

(** C9. The title generator never throws, in both snapshots: whatever the
    parameters, the configuration and the behaviour of every call it makes
    (the temporary directory, the agent helpers and the embedded agent run in
    one snapshot; the environment, the HTTP fetch, the body of the response
    and the shape of the JSON document in the other; a fetch that times out
    is a fetch that rejects), [generateThreadTitleViaLLM] returns, and what
    it returns is nothing or a title that [sanitizeLlmTitleCandidate]
    produced. *)
Theorem C9_generator_never_throws
  (envA : ThreadTitleLlmAgent.Env) (sA : ThreadTitleLlmAgent.Local)
  (envF : ThreadTitleLlmFetch.Env) (sF : ThreadTitleLlmFetch.Local)
  (params : ThreadTitleLlm.Params) :
  (exists result sA',
      ThreadTitleLlmAgent.generateThreadTitleViaLLM envA params sA
      = (Returned result, sA')
      /\ ThreadTitleLlm.sanitized result)
  /\ (exists result sF',
         ThreadTitleLlmFetch.generateThreadTitleViaLLM envF params sF
         = (Returned result, sF')
         /\ ThreadTitleLlm.sanitized result).
Proof.
  split.
  - unfold ThreadTitleLlmAgent.generateThreadTitleViaLLM.
    repeat match goal with
           | |- context [if ?b then _ else _] => destruct b
           | |- context [match ?x with Some _ => _ | None => _ end] => destruct x
           end;
      try (apply GeneratorFacts.ret_returns; apply GeneratorFacts.sanitized_None).
    apply GeneratorFacts.try_catch_finally_returns.
    + intros ? ? ?. apply GeneratorFacts.agent_body_sanitized.
    + intros ? ?. unfold ThreadTitleLlmAgent.onError, Eff.bind,
        ThreadTitleLlmAgent.emit, Eff.modify, Eff.ret.
      eexists _, _. split; [reflexivity | apply GeneratorFacts.sanitized_None].
    + apply GeneratorFacts.agent_cleanup_returns.
  - unfold ThreadTitleLlmFetch.generateThreadTitleViaLLM.
    assert (Hlog : forall message (s : ThreadTitleLlmFetch.Local),
               exists result s',
                 Eff.bind (ThreadTitleLlmFetch.emit (ThreadTitleLlmFetch.LoggedDebug message))
                   (fun _ => Eff.ret None) s = (Returned result, s')
                 /\ ThreadTitleLlm.sanitized result).
    { intros message ?. eexists _, _. split; [reflexivity|].
      apply GeneratorFacts.sanitized_None. }
    repeat match goal with
           | |- context [if negb ?b then _ else _] => destruct b; cbn [negb]
           | |- context [if negb ?b && _ then _ else _] => destruct b; cbn [negb andb]
           | |- context [match ?x with Some _ => _ | None => _ end] =>
               lazymatch x with
               | ThreadTitleLlm.paramTimeoutMs _ => fail
               | _ => destruct x
               end
           end;
      try (apply GeneratorFacts.ret_returns; apply GeneratorFacts.sanitized_None);
      try apply Hlog.
    all: unfold Eff.bind at 1, ThreadTitleLlmFetch.emit at 1, Eff.modify at 1;
      apply GeneratorFacts.try_catch_finally_returns;
      [ intros ? ? ?; unfold ThreadTitleLlmFetch.tryBody;
        apply GeneratorFacts.fetch_text_sanitized
      | intros ? ?; unfold ThreadTitleLlmFetch.onError, Eff.bind,
          ThreadTitleLlmFetch.emit, Eff.modify, Eff.ret;
        eexists _, _; split; [reflexivity | apply GeneratorFacts.sanitized_None]
      | intros ?; unfold ThreadTitleLlmFetch.emit, Eff.modify; now eexists ].
Qed.

(* ===================================================================== *)
(** * Facts on the string primitives *)
(* ===================================================================== *)

Module JsFacts.
Import Re.

Lemma trimStart_head s : head_not Js.is_space (Js.trimStart s).
Proof.
  induction s as [|c s IH]; cbn [Js.trimStart]; [exact I|].
  destruct (Js.is_space c) eqn:Hc; [exact IH | exact Hc].
Qed.

Lemma trimStart_fixed s : head_not Js.is_space s -> Js.trimStart s = s.
Proof. destruct s as [|c s]; cbn; [reflexivity|]. now intros ->. Qed.

Lemma trimEnd_head s : head_not Js.is_space s -> head_not Js.is_space (Js.trimEnd s).
Proof.
  destruct s as [|c s]; cbn [Js.trimEnd head_not]; [auto|].
  intros Hc. destruct (Js.trimEnd s); [rewrite Hc|]; exact Hc.
Qed.

Lemma trimEnd_idempotent s : Js.trimEnd (Js.trimEnd s) = Js.trimEnd s.
Proof.
  induction s as [|c s IH]; [reflexivity|]. cbn [Js.trimEnd].
  destruct (Js.trimEnd s) as [|d t] eqn:Ht.
  - destruct (Js.is_space c) eqn:Hc; [reflexivity|]. cbn [Js.trimEnd]. now rewrite Hc.
  - cbn [Js.trimEnd]. cbn [Js.trimEnd] in IH.
    destruct (Js.trimEnd t) as [|e u] eqn:Hu.
    + destruct (Js.is_space d); [discriminate IH|]. now inversion IH.
    + now inversion IH.
Qed.

Lemma trim_head s : head_not Js.is_space (Js.trim s).
Proof. unfold Js.trim. apply trimEnd_head, trimStart_head. Qed.

Lemma trim_idempotent s : Js.trim (Js.trim s) = Js.trim s.
Proof.
  unfold Js.trim. rewrite (trimStart_fixed (Js.trimEnd (Js.trimStart s))).
  - apply trimEnd_idempotent.
  - apply trimEnd_head, trimStart_head.
Qed.

(** A text that [trimEnd] keeps and that is not empty stays as it is
    behind any prefix. *)
Lemma trimEnd_behind p s :
  Js.trimEnd s = s -> s <> EmptyString -> Js.trimEnd (p ++ s) = p ++ s.
Proof.
  intros Hs Hne. induction p as [|c p IH]; cbn [append Js.trimEnd]; [exact Hs|].
  rewrite IH. destruct (p ++ s) eqn:Hps; [|reflexivity].
  destruct p; cbn in Hps; [congruence | discriminate].
Qed.

Lemma trimEnd_of_trim s : Js.trimEnd (Js.trim s) = Js.trim s.
Proof. unfold Js.trim. apply trimEnd_idempotent. Qed.

Lemma length_trimEnd s : (String.length (Js.trimEnd s) <= String.length s)%nat.
Proof.
  induction s as [|c s IH]; cbn [Js.trimEnd]; [auto|].
  destruct (Js.trimEnd s) eqn:Ht.
  - destruct (Js.is_space c); cbn; lia.
  - cbn in *. lia.
Qed.

Lemma length_trimStart s : (String.length (Js.trimStart s) <= String.length s)%nat.
Proof.
  induction s as [|c s IH]; cbn [Js.trimStart]; [auto|].
  destruct (Js.is_space c); cbn in *; lia.
Qed.

Lemma length_trim s : (String.length (Js.trim s) <= String.length s)%nat.
Proof.
  unfold Js.trim. pose proof (length_trimEnd (Js.trimStart s)).
  pose proof (length_trimStart s). lia.
Qed.

Lemma is_space_lower c : Js.is_space (Js.lower c) = Js.is_space c.
Proof. destruct c as [[] [] [] [] [] [] [] []]; reflexivity. Qed.

Lemma lower_idempotent c : Js.lower (Js.lower c) = Js.lower c.
Proof. destruct c as [[] [] [] [] [] [] [] []]; reflexivity. Qed.

Lemma toLowerCase_idempotent s :
  Js.toLowerCase (Js.toLowerCase s) = Js.toLowerCase s.
Proof.
  induction s as [|c s IH]; cbn [Js.toLowerCase]; [reflexivity|].
  now rewrite lower_idempotent, IH.
Qed.

Lemma trimStart_toLowerCase s :
  Js.trimStart (Js.toLowerCase s) = Js.toLowerCase (Js.trimStart s).
Proof.
  induction s as [|c s IH]; cbn [Js.toLowerCase Js.trimStart]; [reflexivity|].
  rewrite is_space_lower. destruct (Js.is_space c); [exact IH | reflexivity].
Qed.

Lemma trimEnd_toLowerCase s :
  Js.trimEnd (Js.toLowerCase s) = Js.toLowerCase (Js.trimEnd s).
Proof.
  induction s as [|c s IH]; cbn [Js.toLowerCase Js.trimEnd]; [reflexivity|].
  rewrite IH, is_space_lower.
  destruct (Js.trimEnd s); cbn [Js.toLowerCase]; [|reflexivity].
  now destruct (Js.is_space c).
Qed.

Lemma trim_toLowerCase s : Js.trim (Js.toLowerCase s) = Js.toLowerCase (Js.trim s).
Proof. unfold Js.trim. now rewrite trimStart_toLowerCase, trimEnd_toLowerCase. Qed.

Lemma truthy_toLowerCase s : Js.truthy (Js.toLowerCase s) = Js.truthy s.
Proof. now destruct s. Qed.

Lemma all_chars_trimStart P s :
  all_chars P s = true -> all_chars P (Js.trimStart s) = true.
Proof.
  induction s as [|c s IH]; [auto|]. cbn [all_chars Js.trimStart].
  intros H. destruct (Js.is_space c); [|exact H].
  apply andb_true_iff in H as [_ H]. auto.
Qed.

Lemma all_chars_trimEnd P s :
  all_chars P s = true -> all_chars P (Js.trimEnd s) = true.
Proof.
  induction s as [|c s IH]; [auto|]. cbn [all_chars Js.trimEnd].
  intros H. apply andb_true_iff in H as [Hc Hs]. specialize (IH Hs).
  destruct (Js.trimEnd s).
  - destruct (Js.is_space c); [reflexivity|]. cbn [all_chars]. now rewrite Hc.
  - cbn [all_chars] in *. now rewrite Hc, IH.
Qed.

Lemma all_chars_trim P s : all_chars P s = true -> all_chars P (Js.trim s) = true.
Proof. intros H. unfold Js.trim. now apply all_chars_trimEnd, all_chars_trimStart. Qed.

End JsFacts.

(* ===================================================================== *)
(** * Facts on the matcher *)
(* ===================================================================== *)

Module RegexFacts.
Import Re.
Local Open Scope string_scope.
Local Open Scope nat_scope.

Lemma string_length_app a b : String.length (a ++ b) = (String.length a + String.length b)%nat.
Proof. induction a as [|c a IH]; cbn; [reflexivity | now rewrite IH]. Qed.

Lemma string_app_assoc a b c : (a ++ b) ++ c = a ++ (b ++ c).
Proof. induction a as [|x a IH]; cbn; [reflexivity | now rewrite IH]. Qed.

Lemma string_app_empty_r a : a ++ "" = a.
Proof. induction a as [|x a IH]; cbn; [reflexivity | now rewrite IH]. Qed.

Lemma consumed_app m tail : consumed (m ++ tail) tail = m.
Proof.
  unfold consumed. rewrite string_length_app, Nat.add_sub.
  induction m as [|c m IH]; cbn.
  - now destruct tail.
  - now rewrite IH.
Qed.

Lemma star_cls_run P turn k x :
  (forall st k', turn st k' = step_char P st k') ->
  forall fuel p tail g res,
    all_chars P x = true ->
    head_not P tail ->
    (String.length x <= fuel)%nat ->
    k (mkPos (last_prev p x) tail g) = Some res ->
    star_loop turn k fuel (mkPos p (x ++ tail) g) = Some res.
Proof.
  intros Hturn.
  induction x as [|c x IH]; intros fuel p tail g res Hall Htail Hfuel Hk.
  - cbn [append last_prev] in *. destruct fuel; [exact Hk|].
    cbn [star_loop]. rewrite Hturn. unfold step_char. cbn [rest prev cap].
    destruct tail as [|c t]; [exact Hk|].
    cbn in Htail. now rewrite Htail.
  - cbn [all_chars] in Hall. apply andb_true_iff in Hall as [Hc Hall].
    destruct fuel as [|fuel]; [cbn in Hfuel; lia|].
    cbn [star_loop append]. rewrite Hturn. unfold step_char. cbn [rest prev cap].
    rewrite Hc.
    replace (String.length (x ++ tail) <? String.length (String c (x ++ tail)))%nat
      with true by (symmetry; apply Nat.ltb_lt; cbn; lia).
    rewrite (IH fuel (Some c) tail g res); auto. cbn in Hfuel. lia.
Qed.

Lemma replace_all_hit fuel ic r f p m tail st' :
  m <> EmptyString ->
  match_at ic r p (m ++ tail) = Some st' ->
  rest st' = tail ->
  replace_all_from (S fuel) ic r f p (m ++ tail)
  = f m (cap st') ++ replace_all_from fuel ic r f (prev st') tail.
Proof.
  intros Hm Hat Hrest. cbn [replace_all_from]. rewrite Hat, Hrest.
  cbv zeta. rewrite consumed_app.
  destruct m; [congruence | reflexivity].
Qed.

Lemma replace_all_miss fuel ic r f p c s :
  match_at ic r p (String c s) = None ->
  replace_all_from (S fuel) ic r f p (String c s)
  = String c (replace_all_from fuel ic r f (Some c) s).
Proof. intros Hat. cbn [replace_all_from]. now rewrite Hat. Qed.

Lemma star_cls_stop P turn k :
  (forall st k', turn st k' = step_char P st k') ->
  forall fuel p tail g,
    head_not P tail ->
    star_loop turn k fuel (mkPos p tail g) = k (mkPos p tail g).
Proof.
  intros Hturn fuel p tail g Htail.
  destruct fuel; [reflexivity|].
  cbn [star_loop]. rewrite Hturn. unfold step_char. cbn [rest prev cap].
  destruct tail as [|c t]; [reflexivity|]. cbn in Htail. now rewrite Htail.
Qed.

Lemma star_cls_fail P turn k x :
  (forall st k', turn st k' = step_char P st k') ->
  forall fuel p tail g,
    all_chars P x = true ->
    head_not P tail ->
    (forall x1 x2 p', x = x1 ++ x2 -> k (mkPos p' (x2 ++ tail) g) = None) ->
    star_loop turn k fuel (mkPos p (x ++ tail) g) = None.
Proof.
  intros Hturn.
  induction x as [|c x IH]; intros fuel p tail g Hall Htail Hk.
  - assert (Hk0 : k (mkPos p tail g) = None) by (apply (Hk "" ""); reflexivity).
    cbn [append]. destruct fuel; [exact Hk0|].
    cbn [star_loop]. rewrite Hturn. unfold step_char. cbn [rest prev cap].
    destruct tail as [|c t]; [now rewrite Hk0|].
    cbn in Htail. now rewrite Htail.
  - cbn [all_chars] in Hall. apply andb_true_iff in Hall as [Hc Hall].
    assert (Hk0 : k (mkPos p (String c x ++ tail) g) = None)
      by (apply (Hk "" (String c x)); reflexivity).
    destruct fuel as [|fuel]; [exact Hk0|].
    cbn [star_loop append]. rewrite Hturn. unfold step_char. cbn [rest prev cap].
    rewrite Hc.
    replace (String.length (x ++ tail) <? String.length (String c (x ++ tail)))%nat
      with true by (symmetry; apply Nat.ltb_lt; cbn; lia).
    rewrite (IH fuel (Some c) tail g); auto.
    intros x1 x2 p' Hx. apply (Hk (String c x1) x2 p'). cbn. now rewrite Hx.
Qed.


(** No match at any suffix: the text is left as it is. *)
Lemma replace_all_no_match ic r f :
  forall s fuel p,
    (forall p' s1 s2, s = s1 ++ s2 -> match_at ic r p' s2 = None) ->
    replace_all_from fuel ic r f p s = s.
Proof.
  induction s as [|c s IH]; intros fuel p Hno.
  - destruct fuel; [reflexivity|]. cbn [replace_all_from].
    now rewrite (Hno p "" "").
  - destruct fuel; [reflexivity|]. cbn [replace_all_from].
    rewrite (Hno p "" (String c s)) by reflexivity.
    rewrite IH; [reflexivity|].
    intros p' s1 s2 Hs. apply (Hno p' (String c s1) s2). cbn. now rewrite Hs.
Qed.

Lemma all_chars_app P a b :
  all_chars P (a ++ b) = all_chars P a && all_chars P b.
Proof.
  induction a as [|c a IH]; cbn; [reflexivity|]. now rewrite IH, andb_assoc.
Qed.

(** The loop of a class fails when the continuation fails at every suffix. *)
Lemma star_loop_none P turn k g :
  (forall st k', turn st k' = step_char P st k') ->
  forall s fuel p,
    (forall p' s1 s2, s = s1 ++ s2 -> k (mkPos p' s2 g) = None) ->
    star_loop turn k fuel (mkPos p s g) = None.
Proof.
  intros Hturn. induction s as [|c s IH]; intros fuel p Hk.
  - assert (Hk0 : k (mkPos p "" g) = None) by (apply (Hk p "" ""); reflexivity).
    destruct fuel; [exact Hk0|]. cbn [star_loop]. rewrite Hturn.
    unfold step_char. cbn [rest]. exact Hk0.
  - assert (Hk0 : k (mkPos p (String c s) g) = None)
      by (apply (Hk p "" (String c s)); reflexivity).
    destruct fuel; [exact Hk0|]. cbn [star_loop]. rewrite Hturn.
    unfold step_char. cbn [rest prev cap].
    destruct (P c); [|exact Hk0].
    replace (String.length s <? String.length (String c s))%nat
      with true by (symmetry; apply Nat.ltb_lt; cbn; lia).
    rewrite IH; [exact Hk0|].
    intros p' s1 s2 Hs. apply (Hk p' (String c s1) s2). cbn. now rewrite Hs.
Qed.

(** A match never ends before the position it started from: whatever the
    expression, the continuation is reached at a position whose remaining
    text is not longer. *)
Lemma star_loop_shrinks turn :
  (forall st k res,
      turn st k = Some res ->
      exists st', String.length (rest st') <= String.length (rest st)
                  /\ k st' = Some res) ->
  forall fuel st k res,
    star_loop turn k fuel st = Some res ->
    exists st', String.length (rest st') <= String.length (rest st)
                /\ k st' = Some res.
Proof.
  intros Hturn. induction fuel as [|fuel IH]; intros st k res Hloop.
  - exists st. split; [lia | exact Hloop].
  - cbn [star_loop] in Hloop.
    destruct (turn st _) as [res'|] eqn:Hstep.
    + inversion Hloop; subst res'. apply Hturn in Hstep.
      destruct Hstep as (st1 & Hlen1 & Hk1).
      destruct (String.length (rest st1) <? String.length (rest st)); [|discriminate].
      apply IH in Hk1. destruct Hk1 as (st2 & Hlen2 & Hk2).
      exists st2. split; [lia | exact Hk2].
    + exists st. split; [lia | exact Hloop].
Qed.

Lemma step_char_shrinks P st k res :
  step_char P st k = Some res ->
  exists st', String.length (rest st') <= String.length (rest st) /\ k st' = Some res.
Proof.
  unfold step_char. destruct (rest st) as [|c s'] eqn:Hrest; [discriminate|].
  destruct (P c); [|discriminate]. intros Hk.
  exists (mkPos (Some c) s' (cap st)). split; [cbn; lia | exact Hk].
Qed.

Lemma rmatch_shrinks ic r :
  forall st k res,
    rmatch ic r st k = Some res ->
    exists st', String.length (rest st') <= String.length (rest st)
                /\ k st' = Some res.
Proof.
  induction r as [| c | neg items | | a IHa b IHb | a IHa b IHb | a IHa | | | | a IHa];
    intros st k res Hm; cbn [rmatch] in Hm.
  - exists st. split; [lia | exact Hm].
  - now apply step_char_shrinks in Hm.
  - now apply step_char_shrinks in Hm.
  - now apply step_char_shrinks in Hm.
  - apply IHa in Hm. destruct Hm as (st1 & Hlen1 & Hb).
    apply IHb in Hb. destruct Hb as (st2 & Hlen2 & Hk).
    exists st2. split; [lia | exact Hk].
  - destruct (rmatch ic a st k) as [res'|] eqn:Ha.
    + inversion Hm; subst res'. now apply IHa in Ha.
    + now apply IHb in Hm.
  - now apply (star_loop_shrinks (rmatch ic a) IHa) in Hm.
  - destruct (prev st); [discriminate|]. exists st. split; [lia | exact Hm].
  - destruct (rest st) eqn:Hrest; [|discriminate]. exists st.
    split; [rewrite Hrest; cbn; lia | exact Hm].
  - destruct (xorb _ _); [|discriminate]. exists st. split; [lia | exact Hm].
  - apply IHa in Hm. destruct Hm as (st1 & Hlen1 & Hk).
    eexists. split; [|exact Hk]. exact Hlen1.
Qed.

Lemma match_at_shrinks ic r p s res :
  match_at ic r p s = Some res -> String.length (rest res) <= String.length s.
Proof.
  unfold match_at. intros Hm. apply rmatch_shrinks in Hm.
  destruct Hm as (st' & Hlen & Hk). inversion Hk; subst st'. exact Hlen.
Qed.

(** Removing the first match never makes a text longer. *)
Lemma length_replace_first_const ic r :
  forall s p,
    String.length (replace_first_from ic r (const "") p s) <= String.length s.
Proof.
  induction s as [|c s IH]; intros p; cbn [replace_first_from].
  - destruct (match_at ic r p "") as [st'|] eqn:Hm; [|cbn; lia].
    apply match_at_shrinks in Hm. unfold const. cbn [append]. exact Hm.
  - destruct (match_at ic r p (String c s)) as [st'|] eqn:Hm.
    + apply match_at_shrinks in Hm. unfold const. cbn [append]. exact Hm.
    + cbn [String.length]. specialize (IH (Some c)). lia.
Qed.

(** An expression anchored at the start of the text can only match at
    index 0. *)
Lemma bol_no_match_later ic r f :
  forall s c, replace_first_from ic (Seq Bol r) f (Some c) s = s.
Proof.
  induction s as [|d s IH]; intros c; cbn [replace_first_from]; unfold match_at;
    cbn [rmatch prev]; [reflexivity|]. now rewrite IH.
Qed.

Lemma bol_replace_first ic r f s :
  match_at ic (Seq Bol r) None s = None -> replace_first ic (Seq Bol r) f s = s.
Proof.
  intros Hm. unfold replace_first. destruct s as [|c s]; cbn [replace_first_from];
    rewrite Hm; [reflexivity|]. now rewrite bol_no_match_later.
Qed.

Lemma bol_test_later ic r :
  forall s c, test_from ic (Seq Bol r) (Some c) s = false.
Proof.
  induction s as [|d s IH]; intros c; cbn [test_from]; unfold match_at;
    cbn [rmatch prev]; [reflexivity | apply IH].
Qed.

Lemma chr_eq_refl ic c : chr_eq ic c c = true.
Proof. unfold chr_eq. destruct ic; apply Ascii.eqb_refl. Qed.

(** A literal matches its own text. *)
Lemma lit_match ic w :
  forall p tail g k,
    rmatch ic (lit w) (mkPos p (w ++ tail) g) k = k (mkPos (last_prev p w) tail g).
Proof.
  induction w as [|c w IH]; intros p tail g k; [reflexivity|].
  destruct w as [|d w].
  - cbn [lit rmatch append last_prev]. unfold step_char. cbn [rest cap].
    now rewrite chr_eq_refl.
  - change (lit (String c (String d w))) with (Seq (Chr c) (lit (String d w))).
    cbn [rmatch]. unfold step_char at 1.
    change (String c (String d w) ++ tail) with (String c (String d w ++ tail)).
    cbn [rest cap]. rewrite chr_eq_refl. rewrite IH. reflexivity.
Qed.

(** A literal fails on a text whose first character is another one. *)
Lemma lit_mismatch ic a w c s p g k :
  chr_eq ic a c = false ->
  rmatch ic (lit (String a w)) (mkPos p (String c s) g) k = None.
Proof.
  intros Hne. destruct w as [|d w]; cbn [lit rmatch]; unfold step_char;
    cbn [rest]; now rewrite Hne.
Qed.

(** Characters at which no match starts are copied. *)
Lemma replace_all_skip ic r f (P : ascii -> bool) :
  (forall p c s, P c = true -> match_at ic r p (String c s) = None) ->
  forall x fuel p tail,
    all_chars P x = true ->
    replace_all_from (String.length x + fuel) ic r f p (x ++ tail)
    = x ++ replace_all_from fuel ic r f (last_prev p x) tail.
Proof.
  intros Hmiss. induction x as [|c x IH]; intros fuel p tail Hall; [reflexivity|].
  cbn [all_chars] in Hall. apply andb_true_iff in Hall as [Hc Hall].
  cbn [String.length Nat.add append last_prev].
  rewrite replace_all_miss by (now apply Hmiss). now rewrite IH.
Qed.

(** ** The matcher, one construct at a time *)

Lemma rmatch_seq ic a b st k :
  rmatch ic (Seq a b) st k = rmatch ic a st (fun st' => rmatch ic b st' k).
Proof. reflexivity. Qed.

Lemma rmatch_opt_skipped ic a st k :
  rmatch ic a st k = None -> rmatch ic (opt a) st k = k st.
Proof. intros Ha. unfold opt. cbn [rmatch]. now rewrite Ha. Qed.

Lemma rmatch_opt_taken ic a st k res :
  rmatch ic a st k = Some res -> rmatch ic (opt a) st k = Some res.
Proof. intros Ha. unfold opt. cbn [rmatch]. now rewrite Ha. Qed.

Lemma chr_hit ic a c s p g k :
  chr_eq ic a c = true ->
  rmatch ic (Chr a) (mkPos p (String c s) g) k = k (mkPos (Some c) s g).
Proof. intros Hc. cbn [rmatch]. unfold step_char. cbn [rest cap]. now rewrite Hc. Qed.

Lemma chr_miss ic a s p g k :
  head_not (chr_eq ic a) s -> rmatch ic (Chr a) (mkPos p s g) k = None.
Proof.
  intros Hs. cbn [rmatch]. unfold step_char. cbn [rest].
  destruct s as [|c s]; [reflexivity|]. cbn [head_not] in Hs. now rewrite Hs.
Qed.

Lemma star_cls_taken ic neg items x tail p g k res :
  all_chars (cls_mem ic neg items) x = true ->
  head_not (cls_mem ic neg items) tail ->
  k (mkPos (last_prev p x) tail g) = Some res ->
  rmatch ic (Star (Cls neg items)) (mkPos p (x ++ tail) g) k = Some res.
Proof.
  intros Hall Htail Hk. cbn [rmatch rest].
  apply (star_cls_run (cls_mem ic neg items)); auto.
  rewrite string_length_app. lia.
Qed.

Lemma star_cls_refused ic neg items x tail p g k :
  all_chars (cls_mem ic neg items) x = true ->
  head_not (cls_mem ic neg items) tail ->
  (forall x1 x2 p', x = x1 ++ x2 -> k (mkPos p' (x2 ++ tail) g) = None) ->
  rmatch ic (Star (Cls neg items)) (mkPos p (x ++ tail) g) k = None.
Proof.
  intros Hall Htail Hk. cbn [rmatch rest].
  apply (star_cls_fail (cls_mem ic neg items)); auto.
Qed.

Lemma plus_cls_taken ic neg items c x tail p g k res :
  all_chars (cls_mem ic neg items) (String c x) = true ->
  head_not (cls_mem ic neg items) tail ->
  k (mkPos (last_prev p (String c x)) tail g) = Some res ->
  rmatch ic (plus (Cls neg items)) (mkPos p (String c x ++ tail) g) k = Some res.
Proof.
  intros Hall Htail Hk. unfold plus. rewrite rmatch_seq.
  cbn [all_chars] in Hall. apply andb_true_iff in Hall as [Hc Hall].
  cbn [rmatch append]. unfold step_char at 1. cbn [rest cap]. rewrite Hc.
  apply (star_cls_run (cls_mem ic neg items)); auto.
  rewrite string_length_app. lia.
Qed.

(** ** Searching *)

(** An expression that matches at the start of [s], whatever comes before,
    is found in every text that ends with [s]. *)
Lemma test_found_behind ic r s :
  (forall p, match_at ic r p s <> None) ->
  forall a p, test_from ic r p (a ++ s) = true.
Proof.
  intros Hs. induction a as [|c a IH]; intros p.
  - cbn [append]. specialize (Hs p). destruct s as [|d s]; cbn [test_from];
      destruct (match_at ic r p _); congruence.
  - cbn [append test_from]. destruct (match_at ic r p _); [reflexivity | apply IH].
Qed.

(** An alternation matches where one of its branches does. *)
Lemma alts_found ic st rs r :
  In r rs -> rmatch ic r st Some <> None -> rmatch ic (alts rs) st Some <> None.
Proof.
  induction rs as [|r0 rs IH]; [intros []|]. intros Hin Hr.
  destruct rs as [|r1 rs].
  - destruct Hin as [-> | []]. exact Hr.
  - change (alts (r0 :: r1 :: rs)) with (Alt r0 (alts (r1 :: rs))). cbn [rmatch].
    destruct (rmatch ic r0 st Some) eqn:H0; [discriminate|].
    destruct Hin as [-> | Hin]; [congruence | now apply IH].
Qed.

(** ** Where a match ends *)

(** The continuation is reached at a suffix of the text. *)
Lemma star_loop_suffix turn :
  (forall st k res,
      turn st k = Some res ->
      exists st' x, rest st = x ++ rest st' /\ k st' = Some res) ->
  forall fuel st k res,
    star_loop turn k fuel st = Some res ->
    exists st' x, rest st = x ++ rest st' /\ k st' = Some res.
Proof.
  intros Hturn. induction fuel as [|fuel IH]; intros st k res Hloop.
  - exists st, "". split; [reflexivity | exact Hloop].
  - cbn [star_loop] in Hloop.
    destruct (turn st _) as [res'|] eqn:Hstep.
    + inversion Hloop; subst res'. apply Hturn in Hstep.
      destruct Hstep as (st1 & x1 & Hx1 & Hk1).
      destruct (String.length (rest st1) <? String.length (rest st)); [|discriminate].
      apply IH in Hk1. destruct Hk1 as (st2 & x2 & Hx2 & Hk2).
      exists st2, (x1 ++ x2). split; [|exact Hk2].
      now rewrite Hx1, Hx2, string_app_assoc.
    + exists st, "". split; [reflexivity | exact Hloop].
Qed.

Lemma step_char_suffix P st k res :
  step_char P st k = Some res ->
  exists st' x, rest st = x ++ rest st' /\ k st' = Some res.
Proof.
  unfold step_char. destruct (rest st) as [|c s'] eqn:Hrest; [discriminate|].
  destruct (P c); [|discriminate]. intros Hk.
  exists (mkPos (Some c) s' (cap st)), (String c ""). split; [reflexivity | exact Hk].
Qed.

Lemma rmatch_suffix ic r :
  forall st k res,
    rmatch ic r st k = Some res ->
    exists st' x, rest st = x ++ rest st' /\ k st' = Some res.
Proof.
  induction r as [| c | neg items | | a IHa b IHb | a IHa b IHb | a IHa | | | | a IHa];
    intros st k res Hm; cbn [rmatch] in Hm.
  - exists st, "". split; [reflexivity | exact Hm].
  - now apply step_char_suffix in Hm.
  - now apply step_char_suffix in Hm.
  - now apply step_char_suffix in Hm.
  - apply IHa in Hm. destruct Hm as (st1 & x1 & Hx1 & Hb).
    apply IHb in Hb. destruct Hb as (st2 & x2 & Hx2 & Hk).
    exists st2, (x1 ++ x2). split; [|exact Hk]. now rewrite Hx1, Hx2, string_app_assoc.
  - destruct (rmatch ic a st k) as [res'|] eqn:Ha.
    + inversion Hm; subst res'. now apply IHa in Ha.
    + now apply IHb in Hm.
  - now apply (star_loop_suffix (rmatch ic a) IHa) in Hm.
  - destruct (prev st); [discriminate|]. exists st, "". split; [reflexivity | exact Hm].
  - destruct (rest st) eqn:Hrest; [|discriminate]. exists st, "".
    split; [now rewrite Hrest | exact Hm].
  - destruct (xorb _ _); [|discriminate]. exists st, "". split; [reflexivity | exact Hm].
  - apply IHa in Hm. destruct Hm as (st1 & x1 & Hx1 & Hk).
    eexists _, x1. split; [|exact Hk]. exact Hx1.
Qed.

Lemma match_at_suffix ic r p s res :
  match_at ic r p s = Some res -> exists x, s = x ++ rest res.
Proof.
  unfold match_at. intros Hm. apply rmatch_suffix in Hm.
  destruct Hm as (st' & x & Hx & Hk). inversion Hk; subst st'. now exists x.
Qed.

(** ** What a replacement is made of *)

Lemma all_chars_behind P x s : all_chars P (x ++ s) = true -> all_chars P s = true.
Proof. rewrite all_chars_app. intros H. now apply andb_true_iff in H as [_ H]. Qed.

Lemma all_chars_replace_all P ic r t :
  all_chars P t = true ->
  forall fuel s p,
    all_chars P s = true ->
    all_chars P (replace_all_from fuel ic r (const t) p s) = true.
Proof.
  intros Ht. induction fuel as [|fuel IH]; intros s p Hs; [exact Hs|].
  cbn [replace_all_from].
  destruct (match_at ic r p s) as [st'|] eqn:Hm.
  - apply match_at_suffix in Hm. destruct Hm as [x Hx].
    assert (Hrest : all_chars P (rest st') = true)
      by (rewrite Hx in Hs; now apply all_chars_behind in Hs).
    cbv zeta. unfold const.
    destruct (consumed s (rest st')).
    + destruct s as [|c s']; [exact Ht|].
      rewrite all_chars_app, Ht. cbn [all_chars] in *.
      apply andb_true_iff in Hs as [Hc Hs']. now rewrite Hc, IH.
    + now rewrite all_chars_app, Ht, IH.
  - destruct s as [|c s']; [reflexivity|]. cbn [all_chars] in *.
    apply andb_true_iff in Hs as [Hc Hs']. now rewrite Hc, IH.
Qed.

Lemma all_chars_replace_first P ic r t :
  all_chars P t = true ->
  forall s p,
    all_chars P s = true ->
    all_chars P (replace_first_from ic r (const t) p s) = true.
Proof.
  intros Ht. induction s as [|c s IH]; intros p Hs; cbn [replace_first_from].
  - destruct (match_at ic r p "") as [st'|] eqn:Hm; [|reflexivity].
    apply match_at_suffix in Hm. destruct Hm as [x Hx].
    unfold const. rewrite all_chars_app, Ht.
    destruct x; [cbn in Hx; now rewrite <- Hx | discriminate Hx].
  - destruct (match_at ic r p (String c s)) as [st'|] eqn:Hm.
    + apply match_at_suffix in Hm. destruct Hm as [x Hx].
      unfold const. rewrite all_chars_app, Ht. rewrite Hx in Hs.
      now apply all_chars_behind in Hs.
    + cbn [all_chars] in *. apply andb_true_iff in Hs as [Hc Hs'].
      now rewrite Hc, IH.
Qed.

(** ** What a match needs *)

(** An expression that ends with a character matches only a text that
    holds this character. *)
Lemma needs_last_char ic r c st k res :
  rmatch ic (Seq r (Chr c)) st k = Some res ->
  exists x d y, rest st = x ++ String d y /\ chr_eq ic c d = true.
Proof.
  rewrite rmatch_seq. intros Hm. apply rmatch_suffix in Hm.
  destruct Hm as (st1 & x & Hx & Hk). cbn [rmatch] in Hk. unfold step_char in Hk.
  destruct (rest st1) as [|d y] eqn:Hrest; [discriminate|].
  destruct (chr_eq ic c d) eqn:Hd; [|discriminate].
  now exists x, d, y.
Qed.

End RegexFacts.


(* ===================================================================== *)
(** * More on the in-memory store of [thread-title.ts] *)
(* ===================================================================== *)

Module StoreBounds.
Import ThreadTitle.
Local Open Scope list_scope.

Lemma evict_bounded n m :
  Forall (fun kv => Js.truthy (fst kv) = true) m ->
  Z.of_nat (List.length (evict n m)) <= Z.max 0 n
  /\ Forall (fun kv => Js.truthy (fst kv) = true) (evict n m).
Proof.
  induction 1 as [|[k v] m Hk Hm IH].
  - cbn. split; [lia | constructor].
  - cbn [evict]. destruct (Z.gtb_spec (Z.of_nat (List.length ((k, v) :: m))) n).
    + cbn [fst] in Hk. rewrite Hk. cbn [negb]. exact IH.
    + split; [lia | now constructor].
Qed.

Lemma evict_fits n m :
  Z.of_nat (List.length m) <= n -> evict n m = m.
Proof.
  intros Hlen. destruct m as [|[k v] m]; [reflexivity|].
  cbn [evict]. destruct (Z.gtb_spec (Z.of_nat (List.length ((k, v) :: m))) n);
    [lia | reflexivity].
Qed.

Lemma map_delete_absent k m : keys_differ k m -> map_delete m k = m.
Proof.
  unfold map_delete. induction 1 as [|kv m Hkv Hm IH]; [reflexivity|].
  cbn [filter]. rewrite Hkv. cbn [negb]. now rewrite IH.
Qed.

Lemma map_get_other k k' v m :
  String.eqb k k' = false ->
  map_get (map_delete m k ++ [(k, v)]) k' = map_get m k'.
Proof.
  intros Hne. unfold map_get, map_delete.
  induction m as [|[k0 v0] m IH]; cbn [filter app find fst snd].
  - now rewrite Hne.
  - destruct (String.eqb k0 k) eqn:Hk0; cbn [negb app find fst].
    + apply String.eqb_eq in Hk0. subst k0. rewrite Hne. exact IH.
    + destruct (String.eqb k0 k'); [reflexivity | exact IH].
Qed.

(** A [set] keeps the bound and the shape of the keys. *)
Lemma set_bounded (s : InMemoryStore) (k : string) (v : ThreadTitleState) :
  Forall (fun kv => Js.truthy (fst kv) = true) (stateMap s) ->
  Js.truthy k = true ->
  Z.of_nat (List.length (stateMap (store_set s k v))) <= Z.max 0 (maxEntries s)
  /\ Forall (fun kv => Js.truthy (fst kv) = true) (stateMap (store_set s k v)).
Proof.
  intros Hkeys Hk. cbn [store_set InMemory]. unfold inMemory_set. cbn [stateMap].
  apply evict_bounded. apply Forall_app. split.
  - unfold map_delete. apply Forall_forall. intros kv Hin.
    apply filter_In in Hin. destruct Hin as [Hin _].
    now apply (proj1 (Forall_forall _ _) Hkeys).
  - now repeat constructor.
Qed.

End StoreBounds.

(** X1. Insert then look up: in a store created with room for at least
    one entry, [get] after [set] on the same key returns the state that
    was set, whatever the store held and however full it was. *)
Theorem store_get_after_set (s : InMemoryStore) (k : string) (v : ThreadTitleState) :
  1 <= maxEntries s -> store_get (store_set s k v) k = Some v.
Proof. apply StoreFacts.inMemory_get_set. Qed.

Lemma store_get_after_set_witness :
  store_get
    (store_set
       (mkStore [(Samples.slackKey, Samples.retryState unknown "Old" 1000 2000);
                 ("slack:C9:1", Samples.retryState unknown "Old" 1 2)] 1)
       "slack:C7:2" (Samples.retryState rate_limit "New" 5 6)) "slack:C7:2"
  = Some (Samples.retryState rate_limit "New" 5 6).
Proof.
  apply (store_get_after_set
           (mkStore [(Samples.slackKey, Samples.retryState unknown "Old" 1000 2000);
                     ("slack:C9:1", Samples.retryState unknown "Old" 1 2)] 1)
           "slack:C7:2" (Samples.retryState rate_limit "New" 5 6)).
  vm_compute. discriminate.
Defined.

(** X2. The store is bounded: when the keys it holds are non-empty strings,
    a [set] with a non-empty key leaves at most max(0, maxEntries)
    entries, whatever the number of entries before, and the keys are still
    non-empty. In particular a store created with [maxEntries] at most 0
    keeps nothing. *)
Theorem store_size_bounded (s : InMemoryStore) (k : string) (v : ThreadTitleState) :
  Forall (fun kv => Js.truthy (fst kv) = true) (stateMap s) ->
  Js.truthy k = true ->
  Z.of_nat (List.length (stateMap (store_set s k v))) <= Z.max 0 (maxEntries s)
  /\ Forall (fun kv => Js.truthy (fst kv) = true) (stateMap (store_set s k v)).
Proof.
  intros Hkeys Hk.
  destruct (StoreBounds.set_bounded s k v Hkeys Hk) as [Hlen Hkeys'].
  split; [exact Hlen | exact Hkeys'].
Qed.

Lemma store_size_bounded_witness :
  Z.of_nat (List.length
              (stateMap (store_set
                           (mkStore [(Samples.slackKey,
                                      Samples.retryState unknown "Old" 1000 2000);
                                     ("slack:C9:1", Samples.retryState unknown "Old" 1 2)] 1)
                           "slack:C7:2" (Samples.retryState rate_limit "New" 5 6))))
  <= Z.max 0 1
  /\ Forall (fun kv => Js.truthy (fst kv) = true)
       (stateMap (store_set
                    (mkStore [(Samples.slackKey,
                               Samples.retryState unknown "Old" 1000 2000);
                              ("slack:C9:1", Samples.retryState unknown "Old" 1 2)] 1)
                    "slack:C7:2" (Samples.retryState rate_limit "New" 5 6))).
Proof.
  apply (store_size_bounded
           (mkStore [(Samples.slackKey, Samples.retryState unknown "Old" 1000 2000);
                     ("slack:C9:1", Samples.retryState unknown "Old" 1 2)] 1)
           "slack:C7:2" (Samples.retryState rate_limit "New" 5 6)).
  - repeat constructor.
  - reflexivity.
Defined.

(** X3. A [set] with room to spare touches one key only: when the entries
    under the other keys, with the new one, do not exceed [maxEntries], the
    binding of the key becomes the newest one, the bindings of the other
    keys keep their order, and a [get] on another key returns what it
    returned before. *)
Theorem store_set_with_room (s : InMemoryStore) (k : string) (v : ThreadTitleState) :
  Z.of_nat (List.length (map_delete (stateMap s) k)) < maxEntries s ->
  stateMap (store_set s k v) = (map_delete (stateMap s) k ++ [(k, v)])%list
  /\ forall k', String.eqb k k' = false ->
                store_get (store_set s k v) k' = store_get s k'.
Proof.
  intros Hroom.
  assert (Hmap : stateMap (store_set s k v)
                 = (map_delete (stateMap s) k ++ [(k, v)])%list).
  { cbn [store_set InMemory]. unfold inMemory_set. cbn [stateMap].
    apply StoreBounds.evict_fits. rewrite length_app. cbn [List.length]. lia. }
  split; [exact Hmap|].
  intros k' Hne. cbn [store_get InMemory]. unfold inMemory_get.
  change (stateMap (inMemory_set s k v)) with (stateMap (store_set s k v)).
  rewrite Hmap. now apply StoreBounds.map_get_other.
Qed.

Lemma store_set_with_room_witness :
  stateMap (store_set (store (Samples.runWith (Samples.retryState unknown "Old" 1 2)))
              "slack:C7:2" (Samples.retryState rate_limit "New" 5 6))
  = (map_delete (stateMap (store (Samples.runWith (Samples.retryState unknown "Old" 1 2))))
       "slack:C7:2"
     ++ [("slack:C7:2", Samples.retryState rate_limit "New" 5 6)])%list
  /\ forall k', String.eqb "slack:C7:2" k' = false ->
                store_get
                  (store_set (store (Samples.runWith (Samples.retryState unknown "Old" 1 2)))
                     "slack:C7:2" (Samples.retryState rate_limit "New" 5 6)) k'
                = store_get (store (Samples.runWith (Samples.retryState unknown "Old" 1 2))) k'.
Proof.
  apply (store_set_with_room
           (store (Samples.runWith (Samples.retryState unknown "Old" 1 2)))
           "slack:C7:2" (Samples.retryState rate_limit "New" 5 6)).
  vm_compute. reflexivity.
Defined.

(** X4. A full store evicts its oldest entry: when the store holds exactly
    [maxEntries] entries, the oldest key is a non-empty string and the key
    that is set is new, the oldest binding goes, the others keep their
    order and the new binding is the newest. *)
Theorem store_evicts_oldest (s : InMemoryStore) (k0 : string) (v0 : ThreadTitleState)
  (older : list (string * ThreadTitleState)) (k : string) (v : ThreadTitleState) :
  stateMap s = (k0, v0) :: older ->
  Z.of_nat (List.length (stateMap s)) = maxEntries s ->
  Js.truthy k0 = true ->
  keys_differ k (stateMap s) ->
  stateMap (store_set s k v) = (older ++ [(k, v)])%list.
Proof.
  intros Hmap Hfull Hk0 Hnew. cbn [store_set InMemory]. unfold inMemory_set.
  cbn [stateMap]. rewrite (StoreBounds.map_delete_absent k (stateMap s) Hnew).
  rewrite Hmap in *. cbn [app evict].
  destruct (Z.gtb_spec (Z.of_nat (List.length ((k0, v0) :: older ++ [(k, v)])))
              (maxEntries s)) as [_|Hle].
  - rewrite Hk0. cbn [negb]. apply StoreBounds.evict_fits.
    rewrite length_app. cbn [List.length] in *. lia.
  - cbn [List.length] in *. rewrite length_app in Hle. cbn [List.length] in Hle. lia.
Qed.

Lemma store_evicts_oldest_witness :
  stateMap (store_set
              (mkStore [(Samples.slackKey, Samples.retryState unknown "Old" 1000 2000);
                        ("slack:C9:1", Samples.retryState unknown "Old" 1 2)] 2)
              "slack:C7:2" (Samples.retryState rate_limit "New" 5 6))
  = ([("slack:C9:1", Samples.retryState unknown "Old" 1 2)]
     ++ [("slack:C7:2", Samples.retryState rate_limit "New" 5 6)])%list.
Proof.
  apply (store_evicts_oldest
           (mkStore [(Samples.slackKey, Samples.retryState unknown "Old" 1000 2000);
                     ("slack:C9:1", Samples.retryState unknown "Old" 1 2)] 2)
           Samples.slackKey (Samples.retryState unknown "Old" 1000 2000)
           [("slack:C9:1", Samples.retryState unknown "Old" 1 2)]
           "slack:C7:2" (Samples.retryState rate_limit "New" 5 6)).
  - reflexivity.
  - reflexivity.
  - reflexivity.
  - repeat constructor.
Defined.

(* ===================================================================== *)
(** * More on [applyThreadTitle] *)
(* ===================================================================== *)

(** X5. A call that is skipped for any reason other than an existing title
    leaves no trace: the store, the platform and the log of calls are what
    they were, so neither [getCurrentTitle] nor [setTitle] was called and
    no state was written. *)
Theorem skipped_call_leaves_no_trace
  (W : Type) (isCtl : string -> bool) (params : Params W)
  (st : Run InMemoryStore W) (r : ThreadTitleResult) (st' : Run InMemoryStore W) :
  applyThreadTitle isCtl params st = (r, st') ->
  outcome r = outcome_skipped ->
  reason r <> "existing_title_present" ->
  st' = st.
Proof.
  intros Happly Hout Hreason. apply EngineFacts.apply_shape in Happly.
  destruct Happly as [[Hst _] | (k & title & base & _ & _ & _ & _ & _ & _ & Hshape)];
    [exact Hst|].
  destruct Hshape as [(g & current & w' & _ & _ & _ & _ & Hr & _)
                     | (probe & w1 & completion & w' & _ & _ & Hr & _)].
  - subst r. now destruct Hreason.
  - subst r. destruct completion as [[]|e]; discriminate Hout.
Qed.

Lemma skipped_call_leaves_no_trace_witness :
  snd (applyThreadTitle Samples.isControl
         (Samples.request Samples.okProvider "/status" 1000) Samples.emptyRun)
  = Samples.emptyRun.
Proof.
  apply (skipped_call_leaves_no_trace unit Samples.isControl
           (Samples.request Samples.okProvider "/status" 1000) Samples.emptyRun
           (fst (applyThreadTitle Samples.isControl
                   (Samples.request Samples.okProvider "/status" 1000)
                   Samples.emptyRun))).
  - apply surjective_pairing.
  - vm_compute. reflexivity.
  - vm_compute. discriminate.
Defined.

(** X6. [setTitle] is called once by a call whose outcome is [applied] or
    [failed], and not at all by a call that is skipped. *)
Theorem setTitle_calls_follow_the_outcome
  (W : Type) (isCtl : string -> bool) (params : Params W)
  (st : Run InMemoryStore W) (r : ThreadTitleResult) (st' : Run InMemoryStore W) :
  applyThreadTitle isCtl params st = (r, st') ->
  count_setTitle (calls st')
  = (count_setTitle (calls st)
     + match outcome r with outcome_skipped => 0 | _ => 1 end)%nat.
Proof.
  intros Happly. apply EngineFacts.apply_shape in Happly.
  destruct Happly as [[Hst (reason & key & Hr & _)]
                     | (k & title & base & _ & _ & _ & _ & _ & _ & Hshape)].
  - subst. cbn. lia.
  - destruct Hshape as [(g & current & w' & _ & _ & _ & _ & Hr & Hst)
                       | (probe & w1 & completion & w' & Hprobe & _ & Hr & Hst)];
      subst r st'; cbn [calls].
    + rewrite EngineFacts.count_setTitle_app. unfold count_setTitle. cbn. lia.
    + rewrite !EngineFacts.count_setTitle_app.
      destruct Hprobe as [-> | ->]; destruct completion as [[]|e];
        unfold count_setTitle; cbn; lia.
Qed.

Lemma setTitle_calls_follow_the_outcome_witness :
  count_setTitle
    (calls (snd (applyThreadTitle Samples.isControl
                   (Samples.request (Samples.plainFailingProvider rate_limit)
                      "Investigate queue timeout in worker" 1000) Samples.emptyRun)))
  = (count_setTitle (calls Samples.emptyRun)
     + match outcome (fst (applyThreadTitle Samples.isControl
                             (Samples.request (Samples.plainFailingProvider rate_limit)
                                "Investigate queue timeout in worker" 1000)
                             Samples.emptyRun)) with
       | outcome_skipped => 0
       | _ => 1
       end)%nat.
Proof.
  apply (setTitle_calls_follow_the_outcome unit Samples.isControl
           (Samples.request (Samples.plainFailingProvider rate_limit)
              "Investigate queue timeout in worker" 1000) Samples.emptyRun).
  apply surjective_pairing.
Defined.

(** X7. Attempts are counted: a call whose outcome is [applied] or
    [failed] leaves, under the thread key, a state whose [attempts] is one
    more than the stored count (one when nothing was stored), whose
    [lastAttemptAt] is the clock reading of the call and whose
    [lastProposedTitle] is the title of the result. *)
Theorem attempts_are_counted
  (W : Type) (isCtl : string -> bool) (params : Params W)
  (st : Run InMemoryStore W) (r : ThreadTitleResult) (st' : Run InMemoryStore W) :
  1 <= maxEntries (store st) ->
  applyThreadTitle isCtl params st = (r, st') ->
  outcome r <> outcome_skipped ->
  exists k written proposed,
    threadKeyOf params = Some k
    /\ title r = Some proposed
    /\ store_get (store st') k = Some written
    /\ attempts written
       = Some (match opt_bind (store_get (store st) k) attempts with
               | Some n => n
               | None => 0
               end + 1)
    /\ lastAttemptAt written = Some (now params)
    /\ lastProposedTitle written = Some proposed.
Proof.
  intros Hcap Happly Hout. apply EngineFacts.apply_shape in Happly.
  destruct Happly as [[_ (reason & key & -> & _)]
                     | (k & proposed & base & _ & Hk & _ & _ & _ & Hbase & Hshape)];
    [now destruct Hout|].
  destruct Hshape as [(g & current & w' & _ & _ & _ & _ & -> & _)
                     | (probe & w1 & completion & w' & _ & _ & -> & ->)];
    [now destruct Hout|].
  exists k, (writtenOf (provider params) base (now params) proposed completion), proposed.
  split; [exact Hk|]. split; [now destruct completion as [[]|e]|].
  split.
  - cbn [store]. apply StoreFacts.inMemory_get_set.
    now rewrite StoreFacts.maxEntries_set.
  - subst base. destruct completion as [[]|e]; cbn [writtenOf].
    + repeat split.
    + unfold failureState. destruct (_ || _); repeat split.
Qed.

Lemma attempts_are_counted_witness :
  exists k written proposed,
    threadKeyOf (Samples.request (Samples.plainFailingProvider rate_limit)
                   "Investigate queue timeout in worker" 5000) = Some k
    /\ title (fst (applyThreadTitle Samples.isControl
                     (Samples.request (Samples.plainFailingProvider rate_limit)
                        "Investigate queue timeout in worker" 5000)
                     (Samples.runWith (Samples.retryState unknown "Old" 1000 2000))))
       = Some proposed
    /\ store_get
         (store (snd (applyThreadTitle Samples.isControl
                        (Samples.request (Samples.plainFailingProvider rate_limit)
                           "Investigate queue timeout in worker" 5000)
                        (Samples.runWith (Samples.retryState unknown "Old" 1000 2000)))))
         k = Some written
    /\ attempts written
       = Some (match opt_bind
                       (store_get
                          (store (Samples.runWith
                                    (Samples.retryState unknown "Old" 1000 2000))) k)
                       attempts with
               | Some n => n
               | None => 0
               end + 1)
    /\ lastAttemptAt written = Some 5000
    /\ lastProposedTitle written = Some proposed.
Proof.
  apply (attempts_are_counted unit Samples.isControl
           (Samples.request (Samples.plainFailingProvider rate_limit)
              "Investigate queue timeout in worker" 5000)
           (Samples.runWith (Samples.retryState unknown "Old" 1000 2000))
           (fst (applyThreadTitle Samples.isControl
                   (Samples.request (Samples.plainFailingProvider rate_limit)
                      "Investigate queue timeout in worker" 5000)
                   (Samples.runWith (Samples.retryState unknown "Old" 1000 2000))))).
  - vm_compute. discriminate.
  - apply surjective_pairing.
  - vm_compute. discriminate.
Defined.

(** X8. The look at the current title is best effort: when
    [getCurrentTitle] rejects, the call is never skipped for an existing
    title; either it stopped at one of the earlier checks and changed
    nothing, or it went on and called [setTitle] once. *)
Theorem failing_title_probe_is_ignored
  (W : Type) (isCtl : string -> bool) (params : Params W)
  (g : ThreadTitleTarget -> W -> Completion (option string) * W)
  (st : Run InMemoryStore W) (r : ThreadTitleResult) (st' : Run InMemoryStore W) :
  getCurrentTitle (provider params) = Some g ->
  (exists e w', g (target params) (world st) = (Thrown e, w')) ->
  applyThreadTitle isCtl params st = (r, st') ->
  reason r <> "existing_title_present"
  /\ (st' = st
      \/ (outcome r <> outcome_skipped
          /\ count_setTitle (calls st') = S (count_setTitle (calls st)))).
Proof.
  intros Hg (e & w0 & Hthrown) Happly. apply EngineFacts.apply_shape in Happly.
  destruct Happly as [[Hst (why & key & -> & Hin)]
                     | (k & title & base & _ & _ & _ & _ & _ & _ & Hshape)].
  - split; [|now left]. cbn [reason skipped]. cbn [In] in Hin.
    intros ->. repeat destruct Hin as [Hin|Hin]; try discriminate Hin. exact Hin.
  - destruct Hshape as [(g' & current & w' & Hg' & Hgw & _)
                       | (probe & w1 & completion & w' & Hprobe & _ & -> & ->)].
    + rewrite Hg in Hg'. inversion Hg'; subst g'. rewrite Hthrown in Hgw.
      discriminate Hgw.
    + split; [now destruct completion as [[]|?]|]. right. split.
      * now destruct completion as [[]|?].
      * cbn [calls]. rewrite !EngineFacts.count_setTitle_app.
        destruct Hprobe as [-> | ->]; unfold count_setTitle; cbn; lia.
Qed.

Lemma failing_title_probe_is_ignored_witness :
  reason (fst (applyThreadTitle Samples.isControl
                 (Samples.request MoreSamples.blindProvider
                    "Investigate queue timeout in worker" 1000) Samples.emptyRun))
  <> "existing_title_present"
  /\ (snd (applyThreadTitle Samples.isControl
             (Samples.request MoreSamples.blindProvider
                "Investigate queue timeout in worker" 1000) Samples.emptyRun)
      = Samples.emptyRun
      \/ (outcome (fst (applyThreadTitle Samples.isControl
                          (Samples.request MoreSamples.blindProvider
                             "Investigate queue timeout in worker" 1000)
                          Samples.emptyRun)) <> outcome_skipped
          /\ count_setTitle
               (calls (snd (applyThreadTitle Samples.isControl
                              (Samples.request MoreSamples.blindProvider
                                 "Investigate queue timeout in worker" 1000)
                              Samples.emptyRun)))
             = S (count_setTitle (calls Samples.emptyRun)))).
Proof.
  apply (failing_title_probe_is_ignored unit Samples.isControl
           (Samples.request MoreSamples.blindProvider
              "Investigate queue timeout in worker" 1000)
           (fun _ w => (Thrown "conversations.info failed", w))
           Samples.emptyRun).
  - reflexivity.
  - exists "conversations.info failed", tt. reflexivity.
  - apply surjective_pairing.
Defined.

(** X30. A store without room remembers nothing: with [maxEntries] at most
    0 (and non-empty keys in the store), a call of [applyThreadTitle] that
    reached the platform leaves the store empty, so that the next call,
    whatever it asks, is not skipped as [already_applied], [disabled] or in
    [cooldown]: the idempotence of the engine needs room for one entry. *)
Theorem store_without_room_forgets
  (W : Type) (isCtl : string -> bool) (params params2 : Params W)
  (st : Run InMemoryStore W) (r : ThreadTitleResult) (st' : Run InMemoryStore W)
  (w2 : W) :
  maxEntries (store st) <= 0 ->
  Forall (fun kv => Js.truthy (fst kv) = true) (stateMap (store st)) ->
  applyThreadTitle isCtl params st = (r, st') ->
  outcome r <> outcome_skipped ->
  stateMap (store st') = []
  /\ ~ In (reason (fst (applyThreadTitle isCtl params2
                          (mkRun (store st') w2 (calls st')))))
         ["already_applied"; "disabled"; "cooldown"]%string.
Proof.
  intros Hmax Hkeys Happly Hout.
  assert (Hempty : stateMap (store st') = []).
  { apply EngineFacts.apply_shape in Happly.
    destruct Happly as [[_ (why & key & -> & _)]
                       | (k & proposed & base & _ & _ & Hk & _ & _ & _ & Hshape)];
      [now destruct Hout|].
    destruct Hshape as [(g & current & w' & _ & _ & _ & _ & -> & _)
                       | (probe & w1 & completion & w' & _ & _ & _ & ->)];
      [now destruct Hout|].
    cbn [store].
    destruct (StoreBounds.set_bounded (store st) k base Hkeys Hk) as [_ Hkeys1].
    destruct (StoreBounds.set_bounded (store_set (store st) k base) k
                (writtenOf (provider params) base (now params) proposed completion)
                Hkeys1 Hk) as [Hlen _].
    cbn [store_set InMemory] in *. rewrite !StoreFacts.maxEntries_set in Hlen.
    match goal with
    | |- ?m = [] => destruct m; [reflexivity|]
    end.
    cbn [List.length] in Hlen. lia. }
  split; [exact Hempty|].
  assert (Hget : forall k, store_get (store st') k = None).
  { intros k. cbn [store_get InMemory]. unfold inMemory_get. now rewrite Hempty. }
  destruct (applyThreadTitle isCtl params2 (mkRun (store st') w2 (calls st')))
    as [r2 st2] eqn:Hsecond.
  cbn [fst]. unfold applyThreadTitle in Hsecond. cbn [store] in Hsecond.
  destruct (negb (channelsMatch params2));
    [inversion Hsecond; cbn; intuition discriminate|].
  destruct (threadKeyOf params2) as [k2|];
    [|inversion Hsecond; cbn; intuition discriminate].
  destruct (negb (Js.truthy k2)) eqn:Hk2;
    [inversion Hsecond; cbn; intuition discriminate|].
  rewrite Hget in Hsecond. cbn [is_status in_cooldown] in Hsecond.
  destruct (ConversationTitle.deriveConversationTitle isCtl _ _ _) as [title2|];
    [|inversion Hsecond; cbn; intuition discriminate].
  destruct (negb (Js.truthy title2));
    [inversion Hsecond; cbn; intuition discriminate|].
  apply negb_false_iff in Hk2.
  change (checkCurrentTitleThenSet (provider params2) (target params2)
            (baseStateOf None k2 title2 (now params2)) (now params2) title2
            (threadKey (baseStateOf None k2 title2 (now params2)))
            (storeState (baseStateOf None k2 title2 (now params2))
               (mkRun (store st') w2 (calls st'))) = (r2, st2)) in Hsecond.
  apply EngineFacts.check_shape in Hsecond; [|exact Hk2].
  destruct Hsecond as [(g & current & w' & _ & _ & _ & _ & -> & _)
                      | (probe & w1 & completion & w' & _ & _ & -> & _)].
  - cbn. intuition discriminate.
  - destruct completion as [[]|e]; cbn; intuition discriminate.
Qed.

Lemma store_without_room_forgets_witness :
  stateMap (store (snd (applyThreadTitle Samples.isControl
                          (Samples.request Samples.okProvider
                             "Please summarize deployment checklist" 1000)
                          (mkRun (createInMemoryThreadTitleStateStore 0) tt []))))
  = []
  /\ ~ In (reason
             (fst (applyThreadTitle Samples.isControl
                     (Samples.request Samples.okProvider
                        "Please summarize deployment checklist" 2000)
                     (mkRun
                        (store (snd (applyThreadTitle Samples.isControl
                                       (Samples.request Samples.okProvider
                                          "Please summarize deployment checklist" 1000)
                                       (mkRun (createInMemoryThreadTitleStateStore 0)
                                          tt []))))
                        tt
                        (calls (snd (applyThreadTitle Samples.isControl
                                       (Samples.request Samples.okProvider
                                          "Please summarize deployment checklist" 1000)
                                       (mkRun (createInMemoryThreadTitleStateStore 0)
                                          tt []))))))))
         ["already_applied"; "disabled"; "cooldown"]%string.
Proof.
  apply (store_without_room_forgets unit Samples.isControl
           (Samples.request Samples.okProvider "Please summarize deployment checklist" 1000)
           (Samples.request Samples.okProvider "Please summarize deployment checklist" 2000)
           (mkRun (createInMemoryThreadTitleStateStore 0) tt [])
           (fst (applyThreadTitle Samples.isControl
                   (Samples.request Samples.okProvider
                      "Please summarize deployment checklist" 1000)
                   (mkRun (createInMemoryThreadTitleStateStore 0) tt [])))).
  - vm_compute. discriminate.
  - constructor.
  - apply surjective_pairing.
  - vm_compute. discriminate.
Defined.

(* ===================================================================== *)
(** * More on the persisted rename state of [thread-title-manager.ts] *)
(* ===================================================================== *)

Module ManagerProperties.
Import ThreadTitleManager.

(** X9. The retry delay is bounded and never shrinks: for every error
    class and every number of attempts it lies between 0 and one hour
    (3600000 ms), and more attempts never give a shorter delay. *)
Theorem retry_delay_is_bounded_and_grows (c : NativeThreadTitleErrorClass) (n m : Z) :
  n <= m ->
  0 <= resolveRetryDelayMs c n <= 3600000
  /\ resolveRetryDelayMs c n <= resolveRetryDelayMs c m.
Proof.
  intros Hnm. destruct c; cbn [resolveRetryDelayMs];
    unfold RATE_LIMIT_RETRY_MS, NOT_FOUND_RETRY_MS; try lia.
  assert (Hpos : forall k, 0 < 2 ^ Z.max 0 (k - 1))
    by (intros k; apply Z.pow_pos_nonneg; lia).
  assert (Hmono : 2 ^ Z.max 0 (n - 1) <= 2 ^ Z.max 0 (m - 1))
    by (apply Z.pow_le_mono_r; lia).
  pose proof (Hpos n). pose proof (Hpos m). cbv zeta. lia.
Qed.

Lemma retry_delay_is_bounded_and_grows_witness :
  0 <= resolveRetryDelayMs unknown 3 <= 3600000
  /\ resolveRetryDelayMs unknown 3 <= resolveRetryDelayMs unknown 40.
Proof.
  apply (retry_delay_is_bounded_and_grows unknown 3 40). lia.
Defined.

(** X10. [applied] and [disabled] are final: once [markRenameResult] has
    recorded a success, or a failure classified as [permission], the update
    of [markRenameAttempt] writes nothing for that thread key, whatever the
    proposed title and the clock. *)
Theorem applied_and_disabled_are_final
  (key title : string) (attempts : Z) (errorClass : option NativeThreadTitleErrorClass)
  (nowAttempt nowApplied nowRetry : Z) (entry entry' : SessionEntry)
  (title' : string) (now : Z) :
  errorClass = None \/ errorClass = Some permission ->
  markRenameResult_update key title attempts errorClass nowAttempt nowApplied nowRetry
    entry = Some entry' ->
  markRenameAttempt_update key title' now entry' = None.
Proof.
  intros Hclass Hresult. unfold markRenameResult_update in Hresult.
  destruct (nativeThreadTitle entry) as [state|]; [|discriminate].
  destruct (String.eqb (threadKey state) key) eqn:Hkey; [|discriminate].
  cbn [negb] in Hresult.
  destruct Hclass as [-> | ->]; inversion Hresult; subst entry';
    unfold markRenameAttempt_update; cbn [nativeThreadTitle threadKey status].
  - now rewrite String.eqb_refl.
  - now rewrite Hkey.
Qed.

Lemma applied_and_disabled_are_final_witness :
  markRenameAttempt_update Samples.managerKey "Another Title" 999999
    (mkEntry (Some (mkState Samples.managerKey applied (Some 1) (Some 2000) (Some 2001)
                      (Some "Better Thread Title") (Some "Better Thread Title")
                      None None)))
  = None.
Proof.
  apply (applied_and_disabled_are_final Samples.managerKey "Better Thread Title" 1 None
           2000 2001 2002 Samples.pendingEntry).
  - left. reflexivity.
  - reflexivity.
Defined.

(** X11. Rate limits and missing threads wait out their delay: after
    [markRenameResult] has recorded a failure classified as [rate_limit] or
    [not_found] at a clock reading that is not negative, the update of
    [markRenameAttempt] writes nothing while the clock is before the retry
    time, even for a different title; from the retry time on it writes a
    pending state with one more attempt. *)
Theorem rate_limit_and_not_found_wait
  (key title : string) (tries : Z) (c : NativeThreadTitleErrorClass)
  (nowAttempt nowApplied nowRetry : Z) (entry entry' : SessionEntry)
  (title' : string) (now : Z) :
  c = rate_limit \/ c = not_found ->
  0 <= nowRetry ->
  markRenameResult_update key title tries (Some c) nowAttempt nowApplied nowRetry
    entry = Some entry' ->
  markRenameAttempt_update key title' now entry'
  = if now <? nowRetry + resolveRetryDelayMs c tries
    then None
    else Some (mkEntry (Some (mkState key pending (Some (tries + 1)) (Some now)
                                None None (Some title') None None))).
Proof.
  intros Hclass Hnow Hresult. unfold markRenameResult_update in Hresult.
  destruct (nativeThreadTitle entry) as [state|]; [|discriminate].
  destruct (String.eqb (threadKey state) key) eqn:Hkey; [|discriminate].
  cbn [negb] in Hresult.
  assert (Hdelay : 0 < resolveRetryDelayMs c tries)
    by (destruct Hclass as [-> | ->]; cbn; unfold RATE_LIMIT_RETRY_MS,
          NOT_FOUND_RETRY_MS; lia).
  assert (Hentry : entry'
                   = mkEntry (Some (mkState (threadKey state) retry_after (Some tries)
                                      (Some nowAttempt) (appliedAt state)
                                      (appliedTitle state) (lastProposedTitle state)
                                      (Some (nowRetry + resolveRetryDelayMs c tries))
                                      (Some c))))
    by (destruct Hclass as [-> | ->]; now inversion Hresult).
  subst entry'. unfold markRenameAttempt_update.
  cbn [nativeThreadTitle threadKey status retryAfter lastErrorClass attempts
         Status_eqb truthy_num gt_opt].
  rewrite Hkey.
  replace (match c with unknown => true | _ => false end) with false
    by (now destruct Hclass as [-> | ->]).
  assert (Hc : ErrorClass_eqb c unknown = false) by (now destruct Hclass as [-> | ->]).
  rewrite Hc. cbn [andb negb].
  replace (nowRetry + resolveRetryDelayMs c tries =? 0) with false
    by (symmetry; apply Z.eqb_neq; lia).
  cbn [negb andb]. rewrite Z.gtb_ltb. rewrite andb_true_r.
  destruct (now <? nowRetry + resolveRetryDelayMs c tries); reflexivity.
Qed.

Lemma rate_limit_and_not_found_wait_witness :
  markRenameAttempt_update Samples.managerKey "Another Title" 5000
    (mkEntry (Some (mkState Samples.managerKey retry_after (Some 1) (Some 2000) None
                      None (Some "Better Thread Title")
                      (Some (2002 + resolveRetryDelayMs rate_limit 1))
                      (Some rate_limit))))
  = if 5000 <? 2002 + resolveRetryDelayMs rate_limit 1
    then None
    else Some (mkEntry (Some (mkState Samples.managerKey pending (Some (1 + 1))
                                (Some 5000) None None (Some "Another Title")
                                None None))).
Proof.
  apply (rate_limit_and_not_found_wait Samples.managerKey "Better Thread Title" 1
           rate_limit 2000 2001 2002 Samples.pendingEntry).
  - left. reflexivity.
  - lia.
  - reflexivity.
Defined.

(** X12. A pending attempt holds a lease of one minute: after the update
    of [markRenameAttempt] has written a pending state at a clock reading
    [t] other than 0, a second update for the same key writes nothing
    while less than 60000 ms have passed since [t], and writes a pending
    state with one more attempt once they have. *)
Theorem second_attempt_waits_for_the_lease
  (key title : string) (t : Z) (entry entry' : SessionEntry)
  (title' : string) (now : Z) :
  t <> 0 ->
  markRenameAttempt_update key title t entry = Some entry' ->
  exists n,
    entry' = mkEntry (Some (mkState key pending (Some n) (Some t) None None
                              (Some title) None None))
    /\ markRenameAttempt_update key title' now entry'
       = if now - t <? PENDING_LEASE_MS
         then None
         else Some (mkEntry (Some (mkState key pending (Some (n + 1)) (Some now)
                                     None None (Some title') None None))).
Proof.
  intros Ht Hfirst.
  assert (Hshape : exists n,
             entry' = mkEntry (Some (mkState key pending (Some n) (Some t) None None
                                       (Some title) None None))).
  { unfold markRenameAttempt_update in Hfirst.
    repeat match type of Hfirst with
           | context [match ?x with _ => _ end] => destruct x
           end;
      try discriminate Hfirst; inversion Hfirst; eexists; reflexivity. }
  destruct Hshape as [n ->]. exists n. split; [reflexivity|].
  unfold markRenameAttempt_update.
  cbn [nativeThreadTitle threadKey status retryAfter lastAttemptAt attempts
         Status_eqb truthy_num gt_opt andb].
  rewrite String.eqb_refl.
  replace (t =? 0) with false by (symmetry; now apply Z.eqb_neq).
  cbn [negb andb].
  destruct (now - t <? PENDING_LEASE_MS); reflexivity.
Qed.

Lemma second_attempt_waits_for_the_lease_witness :
  exists n,
    mkEntry (Some (mkState Samples.managerKey pending (Some 1) (Some 1000) None None
                     (Some "Better Thread Title") None None))
    = mkEntry (Some (mkState Samples.managerKey pending (Some n) (Some 1000) None None
                       (Some "Better Thread Title") None None))
    /\ markRenameAttempt_update Samples.managerKey "Another Title" 30000
         (mkEntry (Some (mkState Samples.managerKey pending (Some 1) (Some 1000) None
                           None (Some "Better Thread Title") None None)))
       = if 30000 - 1000 <? PENDING_LEASE_MS
         then None
         else Some (mkEntry (Some (mkState Samples.managerKey pending (Some (n + 1))
                                     (Some 30000) None None (Some "Another Title")
                                     None None))).
Proof.
  apply (second_attempt_waits_for_the_lease Samples.managerKey "Better Thread Title"
           1000 (mkEntry None)).
  - lia.
  - reflexivity.
Defined.

(** X29. Permission wins in [classifyRenameError]: a message that
    contains one of the texts [missing_scope], [not enough rights],
    [forbidden], [permission], [can_manage_topics] or [not authorized] is
    classified as [permission], whatever comes before and after it, also
    when the rest of the message speaks of a rate limit or of a thread that
    was not found. *)
Theorem permission_messages_are_permission (before tok after : string) :
  In tok ["missing_scope"; "not enough rights"; "forbidden"; "permission";
          "can_manage_topics"; "not authorized"]%string ->
  classifyRenameError (before ++ tok ++ after) = permission.
Proof.
  intros Htok. unfold classifyRenameError.
  replace (Re.test true PERMISSION_RE (before ++ tok ++ after)) with true; [reflexivity|].
  symmetry. unfold Re.test. apply RegexFacts.test_found_behind.
  intros p. unfold Re.match_at, PERMISSION_RE.
  apply (RegexFacts.alts_found true _ _ (Re.lit tok)).
  - cbn [In] in Htok. cbn [In].
    repeat destruct Htok as [Htok|Htok]; try contradiction; subst tok; auto 10.
  - rewrite RegexFacts.lit_match. discriminate.
Qed.

Lemma permission_messages_are_permission_witness :
  classifyRenameError ("429 Too Many Requests: " ++ "missing_scope" ++ ", chat not found")
  = permission.
Proof.
  apply (permission_messages_are_permission "429 Too Many Requests: " "missing_scope"
           ", chat not found").
  left. reflexivity.
Defined.

End ManagerProperties.

(* ===================================================================== *)
(** * More on [thread-title-llm.ts] *)
(* ===================================================================== *)

Module LlmProperties.
Import ThreadTitleLlm.

Lemma nonblank_truthy v : (0 <? Js.len (Js.trim v)) = true -> Js.truthy (Js.trim v) = true.
Proof. destruct (Js.trim v); [discriminate | reflexivity]. Qed.

Lemma lookup_In m key v : lookup m key = Some v -> In (key, v) m.
Proof.
  unfold lookup. destruct (find _ m) as [[k w]|] eqn:Hfind; [|discriminate].
  intros Hv. inversion Hv; subst w. apply find_some in Hfind.
  destruct Hfind as [Hin Hk]. cbn [fst] in Hk. apply String.eqb_eq in Hk. now subst k.
Qed.

(** X13. The timeout of the settings is clamped: whatever the configuration
    and the environment say, it lies between 3000 and 60000 ms in the
    snapshot that runs the embedded agent and between 1 and 60000 ms in the
    snapshot that calls the providers over HTTP. *)
Theorem timeout_is_clamped (cfg : option OpenClawConfig) (env : ProcessEnv) :
  3000 <= timeoutMs (ThreadTitleLlmAgent.resolveThreadTitleLlmSettings cfg env) <= 60000
  /\ 1 <= timeoutMs (ThreadTitleLlmFetch.resolveThreadTitleLlmSettings cfg env) <= 60000.
Proof.
  unfold ThreadTitleLlmAgent.resolveThreadTitleLlmSettings,
    ThreadTitleLlmFetch.resolveThreadTitleLlmSettings, resolveThreadTitleLlmSettings,
    ThreadTitleLlmAgent.DEFAULT_TIMEOUT_MS, ThreadTitleLlmFetch.DEFAULT_TIMEOUT_MS.
  cbn [timeoutMs].
  destruct (parseInt10 _) as [n|]; [|lia].
  destruct (Z.gtb_spec n 0); lia.
Qed.

(** X14. A setting that is resolved is never blank and comes from one of
    the three places that are read: [env.vars] of the configuration, the
    entries of [env] itself, or the environment of the process. *)
Theorem env_value_is_never_blank
  (cfg : option OpenClawConfig) (env : ProcessEnv) (key v : string) :
  resolveThreadTitleEnvValue cfg env key = Some v ->
  Js.truthy (Js.trim v) = true
  /\ ((exists c, cfg = Some c
                 /\ (In (key, v) (envVars c) \/ In (key, v) (envSugar c)))
      \/ In (key, v) env).
Proof.
  unfold resolveThreadTitleEnvValue, resolveConfigEnvVar. intros Hv.
  destruct cfg as [c|].
  - destruct (lookup (envVars c) key) as [nested|] eqn:Hnested.
    + destruct (0 <? Js.len (Js.trim nested)) eqn:Hn.
      * assert (Ht : Js.truthy nested = true) by (destruct nested; [discriminate Hn | reflexivity]).
        cbn [Js.truthy_opt] in Hv. rewrite Ht in Hv. inversion Hv; subst v.
        split; [now apply nonblank_truthy|]. left. exists c. split; [reflexivity|].
        left. now apply lookup_In.
      * destruct (lookup (envSugar c) key) as [sugar|] eqn:Hsugar.
        -- destruct (0 <? Js.len (Js.trim sugar)) eqn:Hs.
           ++ assert (Ht : Js.truthy sugar = true)
                by (destruct sugar; [discriminate Hs | reflexivity]).
              cbn [Js.truthy_opt] in Hv. rewrite Ht in Hv. inversion Hv; subst v.
              split; [now apply nonblank_truthy|]. left. exists c.
              split; [reflexivity|]. right. now apply lookup_In.
           ++ cbn [Js.truthy_opt] in Hv.
              destruct (lookup env key) as [p|] eqn:Hp; [|discriminate].
              destruct (0 <? Js.len (Js.trim p)) eqn:Hb; [|discriminate].
              inversion Hv; subst v. split; [now apply nonblank_truthy|].
              right. now apply lookup_In.
        -- cbn [Js.truthy_opt] in Hv.
           destruct (lookup env key) as [p|] eqn:Hp; [|discriminate].
           destruct (0 <? Js.len (Js.trim p)) eqn:Hb; [|discriminate].
           inversion Hv; subst v. split; [now apply nonblank_truthy|].
           right. now apply lookup_In.
    + destruct (lookup (envSugar c) key) as [sugar|] eqn:Hsugar.
      * destruct (0 <? Js.len (Js.trim sugar)) eqn:Hs.
        -- assert (Ht : Js.truthy sugar = true)
             by (destruct sugar; [discriminate Hs | reflexivity]).
           cbn [Js.truthy_opt] in Hv. rewrite Ht in Hv. inversion Hv; subst v.
           split; [now apply nonblank_truthy|]. left. exists c.
           split; [reflexivity|]. right. now apply lookup_In.
        -- cbn [Js.truthy_opt] in Hv.
           destruct (lookup env key) as [p|] eqn:Hp; [|discriminate].
           destruct (0 <? Js.len (Js.trim p)) eqn:Hb; [|discriminate].
           inversion Hv; subst v. split; [now apply nonblank_truthy|].
           right. now apply lookup_In.
      * cbn [Js.truthy_opt] in Hv.
        destruct (lookup env key) as [p|] eqn:Hp; [|discriminate].
        destruct (0 <? Js.len (Js.trim p)) eqn:Hb; [|discriminate].
        inversion Hv; subst v. split; [now apply nonblank_truthy|].
        right. now apply lookup_In.
  - cbn [Js.truthy_opt] in Hv.
    destruct (lookup env key) as [p|] eqn:Hp; [|discriminate].
    destruct (0 <? Js.len (Js.trim p)) eqn:Hb; [|discriminate].
    inversion Hv; subst v. split; [now apply nonblank_truthy|].
    right. now apply lookup_In.
Qed.

Lemma env_value_is_never_blank_witness :
  Js.truthy (Js.trim "llm") = true
  /\ ((exists c, Some (mkConfig [("OPENCLAW_THREAD_TITLE_STRATEGY", "  ")]
                         [("OPENCLAW_THREAD_TITLE_STRATEGY", "llm")] None) = Some c
                 /\ (In ("OPENCLAW_THREAD_TITLE_STRATEGY", "llm") (envVars c)
                     \/ In ("OPENCLAW_THREAD_TITLE_STRATEGY", "llm") (envSugar c)))
      \/ In ("OPENCLAW_THREAD_TITLE_STRATEGY", "llm")
           [("OPENCLAW_THREAD_TITLE_STRATEGY", "hybrid")]).
Proof.
  apply (env_value_is_never_blank
           (Some (mkConfig [("OPENCLAW_THREAD_TITLE_STRATEGY", "  ")]
                    [("OPENCLAW_THREAD_TITLE_STRATEGY", "llm")] None))
           [("OPENCLAW_THREAD_TITLE_STRATEGY", "hybrid")]
           "OPENCLAW_THREAD_TITLE_STRATEGY" "llm").
  vm_compute. reflexivity.
Defined.

(** X15. Normalising a model reference twice is normalising it once: the
    reference that [normalizeThreadTitleModelRef] returns is trimmed, is not
    empty, and is returned as it is when it is given back to the function. *)
Theorem model_ref_normalisation_is_stable (raw : option string) (ref : string) :
  normalizeThreadTitleModelRef raw = Some ref ->
  Js.truthy ref = true
  /\ Js.trim ref = ref
  /\ normalizeThreadTitleModelRef (Some ref) = Some ref.
Proof.
  unfold normalizeThreadTitleModelRef at 1. destruct raw as [r|]; [|discriminate].
  destruct (Js.truthy (Js.trim r)) eqn:Ht; cbn [negb]; [|discriminate].
  assert (Hne : Js.trim r <> EmptyString) by (destruct (Js.trim r); [discriminate | congruence]).
  assert (Hprefixed : forall p,
             p <> EmptyString -> Js.trimStart p = p -> Js.includes "/" p = true ->
             Js.truthy (p ++ Js.trim r) = true
             /\ Js.trim (p ++ Js.trim r) = p ++ Js.trim r
             /\ normalizeThreadTitleModelRef (Some (p ++ Js.trim r)) = Some (p ++ Js.trim r)).
  { intros p Hp Hstart Hslash.
    assert (Htrim : Js.trim (p ++ Js.trim r) = p ++ Js.trim r).
    { unfold Js.trim at 1.
      assert (Hs : Js.trimStart (p ++ Js.trim r) = p ++ Js.trim r).
      { destruct p as [|c p]; [congruence|]. cbn [append Js.trimStart] in *.
        destruct (Js.is_space c); [|reflexivity].
        exfalso. pose proof (JsFacts.length_trimStart p) as Hlen.
        rewrite Hstart in Hlen. cbn in Hlen. lia. }
      rewrite Hs. apply JsFacts.trimEnd_behind; [apply JsFacts.trimEnd_of_trim | exact Hne]. }
    assert (Htruthy : Js.truthy (p ++ Js.trim r) = true)
      by (destruct p; [congruence | reflexivity]).
    split; [exact Htruthy|]. split; [exact Htrim|].
    unfold normalizeThreadTitleModelRef. rewrite Htrim, Htruthy. cbn [negb].
    assert (Hin : Js.includes "/" (p ++ Js.trim r) = true).
    { clear - Hslash. induction p as [|c p IH]; [discriminate Hslash|].
      cbn [append Js.includes] in *.
      destruct (prefix "/" (String c p)) eqn:Hpre.
      - destruct c as [[] [] [] [] [] [] [] []]; cbn in Hpre; try discriminate Hpre.
        cbn. now destruct (p ++ Js.trim r).
      - destruct (prefix "/" (String c (p ++ Js.trim r))); [reflexivity|].
        now apply IH. }
    now rewrite Hin. }
  destruct (Js.includes "/" (Js.trim r)) eqn:Hslash.
  - intros Href. inversion Href; subst ref. split; [exact Ht|].
    split; [apply JsFacts.trim_idempotent|].
    unfold normalizeThreadTitleModelRef. rewrite JsFacts.trim_idempotent, Ht.
    cbn [negb]. now rewrite Hslash.
  - destruct (Js.includes "gemini" (Js.toLowerCase (Js.trim r))) eqn:Hg.
    + intros Href. inversion Href; subst ref. apply (Hprefixed "google/"); try reflexivity.
      discriminate.
    + destruct (Js.includes "claude" (Js.toLowerCase (Js.trim r))) eqn:Hc.
      * intros Href. inversion Href; subst ref.
        apply (Hprefixed "anthropic/"); try reflexivity. discriminate.
      * intros Href. inversion Href; subst ref. split; [exact Ht|].
        split; [apply JsFacts.trim_idempotent|].
        unfold normalizeThreadTitleModelRef. rewrite JsFacts.trim_idempotent, Ht.
        cbn [negb]. now rewrite Hslash, Hg, Hc.
Qed.

Lemma model_ref_normalisation_is_stable_witness :
  Js.truthy "google/gemini-3-flash" = true
  /\ Js.trim "google/gemini-3-flash" = "google/gemini-3-flash"
  /\ normalizeThreadTitleModelRef (Some "google/gemini-3-flash")
     = Some "google/gemini-3-flash".
Proof.
  apply (model_ref_normalisation_is_stable (Some "  gemini-3-flash ")).
  vm_compute. reflexivity.
Defined.

(** X16. A sanitised title is never empty and never padded: what
    [sanitizeLlmTitleCandidate] returns is a non-empty text that [trim]
    leaves as it is. *)
Theorem sanitized_title_is_trimmed (raw title : string) :
  sanitizeLlmTitleCandidate raw = Some title ->
  Js.truthy title = true /\ Js.trim title = title.
Proof.
  unfold sanitizeLlmTitleCandidate. destruct (find _ _) as [firstLine|]; [|discriminate].
  destruct (negb (Js.truthy firstLine)); [discriminate|].
  unfold Js.or_undefined.
  destruct (Js.truthy (Js.trim _)) eqn:Ht; [|discriminate].
  intros Htitle. inversion Htitle; subst title. split; [exact Ht|].
  apply JsFacts.trim_idempotent.
Qed.

Lemma sanitized_title_is_trimmed_witness :
  Js.truthy "Fix Deploy" = true /\ Js.trim "Fix Deploy" = "Fix Deploy".
Proof.
  apply (sanitized_title_is_trimmed (String LF "## `Fix   Deploy` ")).
  vm_compute. reflexivity.
Defined.

End LlmProperties.

(* ===================================================================== *)
(** * What the title generators do outside themselves *)
(* ===================================================================== *)

Module GeneratorEffects.
Import ThreadTitleLlm.
Local Open Scope list_scope.



(** X18. The timer never outlives the call and one request at most is
    sent: in the snapshot that calls the providers over HTTP, either the
    call only wrote to the debug log (no timer, no request), or it set
    the timer, sent exactly one request, and the last thing it did was to
    clear the timer, whether the request resolved, rejected or timed out
    and whatever the response held. *)
Theorem timer_is_always_cleared (env : ThreadTitleLlmFetch.Env) (params : Params) :
  (forall e,
      In e (snd (ThreadTitleLlmFetch.generateThreadTitleViaLLM env params [])) ->
      exists message, e = ThreadTitleLlmFetch.LoggedDebug message)
  \/ exists ms request notes,
      snd (ThreadTitleLlmFetch.generateThreadTitleViaLLM env params [])
      = ThreadTitleLlmFetch.SetTimeout ms :: ThreadTitleLlmFetch.Fetched request
        :: notes ++ [ThreadTitleLlmFetch.ClearedTimeout]
      /\ forall e, In e notes -> exists message, e = ThreadTitleLlmFetch.LoggedDebug message.
Proof.
  unfold ThreadTitleLlmFetch.generateThreadTitleViaLLM.
  repeat match goal with
         | |- context [if negb ?b then _ else _] => destruct b; cbn [negb]
         | |- context [if negb ?b && _ then _ else _] => destruct b; cbn [negb andb]
         | |- context [match ?x with Some _ => _ | None => _ end] =>
             lazymatch x with
             | paramTimeoutMs _ => fail
             | _ => destruct x
             end
         end;
    try (left; unfold Eff.ret, Eff.bind, ThreadTitleLlmFetch.emit, Eff.modify;
         cbn [snd app In]; intros e He;
         repeat destruct He as [He|He]; try contradiction;
         subst e; eexists; reflexivity).
  all: right.
  all: unfold Eff.try_finally, Eff.try_catch, ThreadTitleLlmFetch.tryBody,
    ThreadTitleLlmFetch.onError, ThreadTitleLlmFetch.fetchGoogleTitle,
    ThreadTitleLlmFetch.fetchAnthropicTitle, Eff.bind, Eff.await, Eff.ret,
    ThreadTitleLlmFetch.emit, Eff.modify, Eff.caught.
  all: cbn [app].
  all: destruct (String.eqb (refProvider _) "google").
  all: repeat match goal with
         | |- context [match ?c with Returned _ => _ | Thrown _ => _ end] => destruct c
         | |- context [if ?b then _ else _] => destruct b
         | |- context [match ?x with Some _ => _ | None => _ end] => destruct x
         end; cbn [snd app negb].
  all: eexists _, _.
  all: match goal with
       | |- exists notes, _ :: _ :: ?rest = _ /\ _ => exists (removelast rest)
       end; cbn [removelast app]; (split; [reflexivity|]);
    intros ? He; cbn [In] in He; repeat destruct He as [He|He]; try contradiction;
    rewrite <- He; eexists; reflexivity.
Qed.

End GeneratorEffects.

(* ===================================================================== *)
(** * More on [deriveConversationTitle] *)
(* ===================================================================== *)

Module TitleBounds.
Import Re ConversationTitle.

Lemma length_stripTrailingPunctuation v :
  (String.length (stripTrailingPunctuation v) <= String.length v)%nat.
Proof.
  unfold stripTrailingPunctuation, replace_first.
  pose proof (JsFacts.length_trim
                (replace_first_from false TRAILING_PUNCTUATION_RE (const "") None v)).
  pose proof (RegexFacts.length_replace_first_const false TRAILING_PUNCTUATION_RE v None).
  lia.
Qed.

Lemma stripTrailingPunctuation_trimmed v :
  Js.trim (stripTrailingPunctuation v) = stripTrailingPunctuation v.
Proof. unfold stripTrailingPunctuation. apply JsFacts.trim_idempotent. Qed.

Lemma length_substring0 n s : (String.length (substring 0 n s) <= n)%nat.
Proof.
  revert s. induction n as [|n IH]; intros s.
  - destruct s; cbn; lia.
  - destruct s as [|c s]; cbn [substring String.length]; [lia|].
    specialize (IH s). lia.
Qed.

Lemma finishTitle_bounds isCtl maxChars v t :
  1 <= maxChars ->
  finishTitle isCtl maxChars v = Some t ->
  3 <= Js.len t <= maxChars /\ Js.trim t = t.
Proof.
  intros Hmax. unfold finishTitle.
  destruct (negb (Js.truthy v) || isCtl v); [discriminate|].
  set (cut := if Js.len v >? maxChars then Js.trim (Js.slice0 maxChars v) else v).
  assert (Hcut : Js.len cut <= maxChars).
  { unfold cut. destruct (Z.gtb_spec (Js.len v) maxChars) as [Hlong|Hfits]; [|exact Hfits].
    unfold Js.len, Js.slice0.
    pose proof (JsFacts.length_trim (substring 0 (Z.to_nat maxChars) v)).
    pose proof (length_substring0 (Z.to_nat maxChars) v). lia. }
  destruct (Z.ltb_spec (Js.len (stripTrailingPunctuation cut)) 3) as [|Hlen];
    [discriminate|].
  intros Ht. inversion Ht; subst t. split.
  - pose proof (length_stripTrailingPunctuation cut). unfold Js.len in *. lia.
  - apply stripTrailingPunctuation_trimmed.
Qed.

Lemma firstCandidate_bounds isCtl normalize maxChars sources t :
  1 <= maxChars ->
  firstCandidate isCtl normalize maxChars sources = Some t ->
  3 <= Js.len t <= maxChars /\ Js.trim t = t.
Proof.
  intros Hmax. induction sources as [|source more IH]; cbn [firstCandidate];
    [discriminate|].
  destruct (candidateTitle isCtl normalize maxChars source) as [t'|] eqn:Hc; [|exact IH].
  intros Ht. inversion Ht; subst t'. unfold candidateTitle in Hc.
  destruct (normalizedTitle normalize source) as [v|]; [|discriminate].
  now apply (finishTitle_bounds isCtl maxChars v).
Qed.

End TitleBounds.

(** X19. A derived title fits: in both snapshots of
    [deriveConversationTitle], a title that is returned has at least 3
    characters and at most [maxChars], and [trim] leaves it as it is. So
    nothing is returned when [maxChars] is below 3. *)
Theorem derived_title_fits
  (isCtl : string -> bool) (primaryText fallbackText : option string)
  (maxChars : Z) (t : string) :
  ConversationTitle.deriveConversationTitle isCtl primaryText fallbackText maxChars
  = Some t
  \/ ConversationTitleStrip.deriveConversationTitle isCtl primaryText fallbackText
       maxChars = Some t ->
  3 <= Js.len t <= maxChars /\ Js.trim t = t.
Proof.
  unfold ConversationTitle.deriveConversationTitle,
    ConversationTitleStrip.deriveConversationTitle.
  intros [Ht|Ht]; apply TitleBounds.firstCandidate_bounds in Ht; try lia;
    destruct Ht as [Hlen Htrim]; (split; [lia | exact Htrim]).
Qed.

Lemma derived_title_fits_witness :
  3 <= Js.len "Build openclaw slack rename" <= 80
  /\ Js.trim "Build openclaw slack rename" = "Build openclaw slack rename".
Proof.
  apply (derived_title_fits Samples.isControl
           (Some "  Build   openclaw  slack rename  ") None 80).
  left. vm_compute. reflexivity.
Defined.

(* ===================================================================== *)
(** * Messages that consist of placeholder tokens *)
(* ===================================================================== *)

Module PlaceholderFacts.
Import Re ConversationTitle Placeholders RegexFacts TextShape PlaceholderShape.
Local Open Scope string_scope.
Local Open Scope nat_scope.

Lemma plain_facts c :
  plainChar c = true ->
  Js.is_space c = false
  /\ chr_eq true "<" c = false /\ chr_eq true "[" c = false
  /\ chr_eq true "]" c = false /\ chr_eq true ">" c = false
  /\ chr_eq true ":" c = false /\ chr_eq true " " c = false
  /\ chr_eq false "<" c = false /\ chr_eq false "@" c = false.
Proof.
  destruct c as [[] [] [] [] [] [] [] []]; vm_compute; intros H;
    try discriminate H; repeat split.
Qed.

Lemma mention_no_match p s :
  all_chars notAt s = true -> match_at false MENTION_RE p s = None.
Proof.
  intros Hall. unfold match_at, MENTION_RE. cbn [seqs lit rmatch].
  unfold step_char. cbn [rest prev cap].
  destruct s as [|c1 s]; [reflexivity|].
  destruct (chr_eq false "<" c1); [|reflexivity].
  destruct s as [|c2 s]; [reflexivity|].
  cbn [all_chars] in Hall. apply andb_true_iff in Hall as [_ Hall].
  apply andb_true_iff in Hall as [Hc2 _]. unfold notAt in Hc2.
  apply negb_true_iff in Hc2. cbn [rest]. now rewrite Hc2.
Qed.

Lemma all_chars_suffix P s1 s2 : all_chars P (s1 ++ s2) = true -> all_chars P s2 = true.
Proof. rewrite all_chars_app. intros H. now apply andb_true_iff in H as [_ H]. Qed.

Lemma mention_identity s :
  all_chars notAt s = true ->
  replace_all false MENTION_RE (const " ") s = s.
Proof.
  intros Hall. unfold replace_all. apply replace_all_no_match.
  intros p' s1 s2 ->. apply mention_no_match. now apply all_chars_suffix in Hall.
Qed.


Lemma noIdColon_suffix s1 s2 : noIdColon (s1 ++ s2) = true -> noIdColon s2 = true.
Proof.
  induction s1 as [|c s1 IH]; cbn [append noIdColon]; [auto|].
  intros H. apply andb_true_iff in H as [_ H]. auto.
Qed.

Lemma message_id_literal_fails s :
  noIdColon s = true ->
  forall p g k,
    rmatch true (lit "message id:") (mkPos p s g) k = None.
Proof.
  intros Hno p g k. cbn [lit rmatch].
  do 8 (unfold step_char at 1; cbn [rest prev cap];
        destruct s as [|? s]; [reflexivity|];
        cbn [noIdColon] in Hno; apply andb_true_iff in Hno as [_ Hno];
        match goal with |- context [chr_eq true ?x ?c] => destruct (chr_eq true x c) end;
        [|reflexivity]).
  unfold step_char at 1; cbn [rest prev cap].
  destruct s as [|c9 s]; [reflexivity|].
  destruct (chr_eq true "i" c9) eqn:H9; [|reflexivity].
  unfold step_char at 1; cbn [rest prev cap].
  destruct s as [|c10 s]; [reflexivity|].
  destruct (chr_eq true "d" c10) eqn:H10; [|reflexivity].
  unfold step_char at 1; cbn [rest prev cap].
  destruct s as [|c11 s]; [reflexivity|].
  destruct (chr_eq true ":" c11) eqn:H11; [|reflexivity].
  cbn [noIdColon headIs tail] in Hno. rewrite H9, H10, H11 in Hno. discriminate Hno.
Qed.

Lemma message_id_no_match p s :
  noIdColon s = true -> match_at true MESSAGE_ID_RE p s = None.
Proof.
  intros Hno. unfold match_at, MESSAGE_ID_RE. cbn [seqs rmatch].
  unfold step_char at 1. cbn [rest prev cap].
  destruct s as [|c s]; [reflexivity|].
  destruct (chr_eq true "[" c); [|reflexivity].
  cbn [rest]. apply (star_loop_none (cls_mem true true [IChar "]"])).
  - reflexivity.
  - intros p' s1 s2 Hs. cbv beta. apply message_id_literal_fails.
    apply (noIdColon_suffix (String c s1)). cbn [append]. now rewrite <- Hs.
Qed.

Lemma message_id_identity s :
  noIdColon s = true ->
  replace_all true MESSAGE_ID_RE (const " ") s = s.
Proof.
  intros Hno. unfold replace_all. apply replace_all_no_match.
  intros p' s1 s2 ->. apply message_id_no_match. now apply noIdColon_suffix in Hno.
Qed.


Lemma cls_space ic c : cls_mem ic false [ISpace] c = Js.is_space c.
Proof. unfold cls_mem. cbn. now rewrite orb_false_r. Qed.

Lemma whitespace_at_space p c s :
  Js.is_space c = true -> head_not Js.is_space s ->
  match_at false WHITESPACE_RE p (String c s) = Some (mkPos (Some c) s None).
Proof.
  intros Hc Hs. unfold match_at, WHITESPACE_RE, plus, space.
  cbn [rmatch]. unfold step_char at 1. cbn [rest prev cap]. rewrite cls_space, Hc.
  rewrite (star_cls_stop (cls_mem false false [ISpace])); [reflexivity | reflexivity|].
  destruct s as [|d s]; [exact I|]. cbn [head_not] in *. now rewrite cls_space.
Qed.

Lemma whitespace_at_other p s :
  head_not Js.is_space s -> match_at false WHITESPACE_RE p s = None.
Proof.
  intros Hs. unfold match_at, WHITESPACE_RE, plus, space.
  cbn [rmatch]. unfold step_char at 1. cbn [rest prev cap].
  destruct s as [|c s]; [reflexivity|]. cbn [head_not] in Hs.
  now rewrite cls_space, Hs.
Qed.

Lemma whitespace_identity :
  forall s fuel p,
    singleSpaced s = true ->
    (String.length s < fuel)%nat ->
    replace_all_from fuel false WHITESPACE_RE (const " ") p s = s.
Proof.
  induction s as [|c s IH]; intros fuel p Hs Hfuel.
  - destruct fuel; [reflexivity|]. reflexivity.
  - destruct fuel as [|fuel]; [cbn in Hfuel; lia|].
    cbn [singleSpaced] in Hs. apply andb_true_iff in Hs as [Hc Hs].
    assert (Hrec : replace_all_from fuel false WHITESPACE_RE (const " ") (Some c) s = s)
      by (apply IH; [exact Hs | cbn in Hfuel; lia]).
    destruct (Js.is_space c) eqn:Hsp.
    + apply andb_true_iff in Hc as [Hc Hnext].
      assert (Htail : head_not Js.is_space s).
      { destruct s as [|d s']; [exact I|]. cbn [head_not headIs] in *.
        now apply negb_true_iff in Hnext. }
      change (String c s) with (String c "" ++ s).
      rewrite (replace_all_hit fuel false WHITESPACE_RE (const " ") p
                 (String c "") s (mkPos (Some c) s None));
        [| discriminate | now apply whitespace_at_space | reflexivity].
      cbn [prev cap]. unfold const at 1. rewrite Hrec.
      unfold chr_eq in Hc. apply Ascii.eqb_eq in Hc. now subst c.
    + rewrite replace_all_miss by (apply whitespace_at_other; exact Hsp).
      now rewrite Hrec.
Qed.

(** ** The shape of a message made of tokens *)

Lemma placeholdersText_cons t more :
  placeholdersText (t :: more) = placeholderText t ++ followingText more.
Proof.
  revert t. induction more as [|u more IH]; intros t.
  - cbn [placeholdersText followingText]. now rewrite string_app_empty_r.
  - change (placeholdersText (t :: u :: more))
      with (placeholderText t ++ " " ++ placeholdersText (u :: more)).
    now rewrite IH.
Qed.

Lemma token_opens t tail : opensToken (placeholderText t ++ tail) = true.
Proof. destruct t; reflexivity. Qed.

Lemma following_tokenTail more : tokenTail (followingText more) = true.
Proof. destruct more as [|u more]; [reflexivity|]. cbn [followingText]. apply token_opens. Qed.

Lemma plainName_inv x :
  plainName x = true -> exists c x', x = String c x' /\ plainChar c = true /\ allPlain x' = true.
Proof.
  unfold plainName. destruct x as [|c x']; [discriminate|]. cbn [Js.truthy allPlain andb].
  intros H. apply andb_true_iff in H as [Hc Hx]. now exists c, x'.
Qed.

Lemma plainName_allPlain x : plainName x = true -> allPlain x = true.
Proof. unfold plainName. intros H. now apply andb_true_iff in H as [_ H]. Qed.

(** *** No mention sign *)

Lemma plain_notAt x : allPlain x = true -> all_chars notAt x = true.
Proof.
  induction x as [|c x IH]; [reflexivity|]. cbn [allPlain all_chars].
  intros H. apply andb_true_iff in H as [Hc Hx]. rewrite (IH Hx), andb_true_r.
  unfold notAt. now rewrite (proj2 (proj2 (proj2 (proj2 (proj2 (proj2 (proj2
                                    (proj2 (plain_facts c Hc))))))))).
Qed.

Lemma token_notAt t :
  wellFormed t = true -> all_chars notAt (placeholderText t) = true.
Proof.
  destruct t as [kind | word name | word]; cbn [wellFormed placeholderText]; intros Hw.
  - rewrite !all_chars_app, (plain_notAt kind (plainName_allPlain kind Hw)). reflexivity.
  - rewrite !all_chars_app, (plain_notAt name (plainName_allPlain name Hw)).
    now destruct word.
  - now destruct word.
Qed.

Lemma following_notAt ts :
  forallb wellFormed ts = true -> all_chars notAt (followingText ts) = true.
Proof.
  induction ts as [|t ts IH]; [reflexivity|]. cbn [forallb followingText].
  intros H. apply andb_true_iff in H as [Ht Hts].
  now rewrite !all_chars_app, (token_notAt t Ht), (IH Hts).
Qed.

(** *** No message-id annotation *)

Lemma noIdColon_skip c s :
  chr_eq true "i" c = false -> noIdColon (String c s) = noIdColon s.
Proof. intros Hc. cbn [noIdColon]. now rewrite Hc. Qed.

Lemma noIdColon_skip_i c1 c2 s :
  chr_eq true "d" c2 = false ->
  noIdColon (String c1 (String c2 s)) = noIdColon (String c2 s).
Proof.
  intros Hc. cbn [noIdColon headIs]. rewrite Hc. cbn [andb]. now rewrite andb_false_r.
Qed.

Lemma noIdColon_plain x b :
  allPlain x = true ->
  headIs (fun c => negb (chr_eq true ":" c) && negb (chr_eq true "d" c)) b = true ->
  noIdColon (x ++ b) = noIdColon b.
Proof.
  intros Hx Hb.
  assert (Hbd : headIs (chr_eq true "d") b = false /\ headIs (chr_eq true ":") b = false).
  { destruct b as [|h b]; [discriminate|]. cbn [headIs] in *.
    apply andb_true_iff in Hb as [H1 H2].
    now apply negb_true_iff in H1; apply negb_true_iff in H2. }
  destruct Hbd as [Hd Hcolon].
  induction x as [|c1 x IH]; [reflexivity|].
  cbn [allPlain] in Hx. apply andb_true_iff in Hx as [_ Hx].
  cbn [append noIdColon]. rewrite (IH Hx).
  replace (headIs (chr_eq true "d") (x ++ b) && headIs (chr_eq true ":") (tail (x ++ b)))
    with false; [now rewrite andb_false_r|].
  symmetry. destruct x as [|c2 x]; cbn [append headIs tail].
  - now rewrite Hd.
  - destruct x as [|c3 x]; cbn [append headIs].
    + now rewrite Hcolon, andb_false_r.
    + cbn [allPlain] in Hx. apply andb_true_iff in Hx as [_ Hx].
      apply andb_true_iff in Hx as [Hc3 _].
      destruct (plain_facts c3 Hc3) as (_ & _ & _ & _ & _ & Hc & _).
      now rewrite Hc, andb_false_r.
Qed.

Ltac peel_noIdColon :=
  repeat first [ rewrite noIdColon_skip by reflexivity
               | rewrite noIdColon_skip_i by reflexivity ].

Lemma token_noIdColon t rest :
  wellFormed t = true -> noIdColon (placeholderText t ++ rest) = noIdColon rest.
Proof.
  destruct t as [kind | word name | word]; cbn [wellFormed placeholderText]; intros Hw.
  - rewrite !string_app_assoc. cbn [append]. peel_noIdColon.
    rewrite noIdColon_plain by (auto using plainName_allPlain).
    now peel_noIdColon.
  - rewrite !string_app_assoc.
    destruct word; cbn [wordText append]; peel_noIdColon;
      (rewrite noIdColon_plain by (auto using plainName_allPlain));
      now peel_noIdColon.
  - rewrite !string_app_assoc.
    destruct word; cbn [wordText append]; now peel_noIdColon.
Qed.

Lemma following_noIdColon ts :
  forallb wellFormed ts = true -> noIdColon (followingText ts) = true.
Proof.
  induction ts as [|t ts IH]; [reflexivity|]. cbn [forallb followingText].
  intros H. apply andb_true_iff in H as [Ht Hts].
  cbn [append]. rewrite noIdColon_skip by reflexivity.
  now rewrite token_noIdColon, IH.
Qed.

(** *** Single spaces only *)

Lemma singleSpaced_skip c s :
  Js.is_space c = false -> singleSpaced (String c s) = singleSpaced s.
Proof. intros Hc. cbn [singleSpaced]. now rewrite Hc. Qed.

Lemma singleSpaced_space s :
  headIs (fun d => negb (Js.is_space d)) s = true ->
  singleSpaced (String " " s) = singleSpaced s.
Proof. intros Hs. cbn [singleSpaced]. now rewrite Hs. Qed.

Lemma singleSpaced_plain x b :
  allPlain x = true -> singleSpaced (x ++ b) = singleSpaced b.
Proof.
  induction x as [|c x IH]; [reflexivity|]. cbn [allPlain append].
  intros H. apply andb_true_iff in H as [Hc Hx].
  rewrite singleSpaced_skip by (now destruct (plain_facts c Hc)). auto.
Qed.

Lemma plainName_head x b :
  plainName x = true -> headIs (fun d => negb (Js.is_space d)) (x ++ b) = true.
Proof.
  intros Hx. destruct (plainName_inv x Hx) as (c & x' & -> & Hc & _).
  cbn [append headIs]. destruct (plain_facts c Hc) as [Hs _]. now rewrite Hs.
Qed.

Ltac peel_singleSpaced :=
  repeat first [ rewrite singleSpaced_skip by reflexivity
               | rewrite singleSpaced_space by reflexivity ].

Lemma token_singleSpaced t rest :
  wellFormed t = true -> singleSpaced (placeholderText t ++ rest) = singleSpaced rest.
Proof.
  destruct t as [kind | word name | word]; cbn [wellFormed placeholderText]; intros Hw.
  - rewrite !string_app_assoc. cbn [append]. peel_singleSpaced.
    rewrite singleSpaced_plain by (auto using plainName_allPlain).
    now peel_singleSpaced.
  - rewrite !string_app_assoc.
    destruct word; cbn [wordText append]; peel_singleSpaced;
      (rewrite singleSpaced_space by (now apply plainName_head));
      (rewrite singleSpaced_plain by (auto using plainName_allPlain));
      now peel_singleSpaced.
  - rewrite !string_app_assoc.
    destruct word; cbn [wordText append]; now peel_singleSpaced.
Qed.

Lemma opens_nonspace s :
  opensToken s = true -> headIs (fun d => negb (Js.is_space d)) s = true.
Proof.
  destruct s as [|c s]; [discriminate|]. cbn [opensToken headIs].
  intros H. apply orb_true_iff in H as [H|H]; apply Ascii.eqb_eq in H; now subst c.
Qed.

Lemma following_singleSpaced ts :
  forallb wellFormed ts = true -> singleSpaced (followingText ts) = true.
Proof.
  induction ts as [|t ts IH]; [reflexivity|]. cbn [forallb followingText].
  intros H. apply andb_true_iff in H as [Ht Hts].
  cbn [append]. rewrite singleSpaced_space by (apply opens_nonspace, token_opens).
  now rewrite token_singleSpaced, IH.
Qed.

(** *** Nothing to trim *)

Lemma token_closes t :
  exists p e, placeholderText t = p ++ String e "" /\ Js.is_space e = false.
Proof.
  destruct t as [kind | word name | word]; cbn [placeholderText].
  - exists ("<media:" ++ kind), ">"%char. now rewrite !string_app_assoc.
  - exists ("[" ++ wordText word ++ ": " ++ name), "]"%char.
    now rewrite !string_app_assoc.
  - exists ("[" ++ wordText word), "]"%char. now rewrite !string_app_assoc.
Qed.

Lemma message_closes t more :
  exists p e,
    placeholderText t ++ followingText more = p ++ String e "" /\ Js.is_space e = false.
Proof.
  revert t. induction more as [|u more IH]; intros t.
  - cbn [followingText]. rewrite string_app_empty_r. apply token_closes.
  - destruct (IH u) as (p & e & Hp & He). cbn [followingText].
    exists (placeholderText t ++ " " ++ p), e. split; [|exact He].
    now rewrite Hp, !string_app_assoc.
Qed.

Lemma message_trimmed t more :
  Js.trim (placeholderText t ++ followingText more)
  = placeholderText t ++ followingText more.
Proof.
  unfold Js.trim. rewrite JsFacts.trimStart_fixed.
  - destruct (message_closes t more) as (p & e & -> & He).
    apply JsFacts.trimEnd_behind; [|discriminate]. cbn. now rewrite He.
  - pose proof (opens_nonspace _ (token_opens t (followingText more))) as H.
    destruct (placeholderText t ++ followingText more); [exact I|].
    cbn [head_not headIs] in *. now apply negb_true_iff in H.
Qed.

(** ** The first steps of the loop leave the message as it is *)

Lemma message_clean t more :
  forallb wellFormed (t :: more) = true ->
  cleanSource (placeholderText t ++ followingText more)
  = placeholderText t ++ followingText more.
Proof.
  cbn [forallb]. intros H. apply andb_true_iff in H as [Ht Hmore].
  unfold cleanSource.
  rewrite mention_identity
    by (now rewrite all_chars_app, (token_notAt t Ht), (following_notAt more Hmore)).
  rewrite message_id_identity
    by (now rewrite token_noIdColon, following_noIdColon).
  unfold replace_all at 1. rewrite whitespace_identity; [apply message_trimmed | | lia].
  now rewrite token_singleSpaced, following_singleSpaced.
Qed.

Lemma opens_not_prefixed s :
  opensToken s = true ->
  match_at true SLACK_THREAD_PREFIX_RE None s = None
  /\ match_at false LEADING_PUNCTUATION_RE None s = None.
Proof.
  destruct s as [|c s]; [discriminate|]. cbn [opensToken headIs].
  intros H. apply orb_true_iff in H as [H|H]; apply Ascii.eqb_eq in H; subst c;
    split; reflexivity.
Qed.

Lemma message_keeps_its_head t more :
  dropLeading (placeholderText t ++ followingText more)
  = placeholderText t ++ followingText more.
Proof.
  destruct (opens_not_prefixed _ (token_opens t (followingText more))) as [Hp Hl].
  unfold dropLeading.
  unfold SLACK_THREAD_PREFIX_RE, LEADING_PUNCTUATION_RE in *. cbn [seqs] in *.
  rewrite (bol_replace_first true _ _ _ Hp), (bol_replace_first false _ _ _ Hl).
  apply message_trimmed.
Qed.

(** ** The pass that removes the media markers *)

Import ConversationTitleStrip.

Lemma media_miss p c s :
  chr_eq true "<" c = false -> match_at true MEDIA_PLACEHOLDER_TOKEN_RE p (String c s) = None.
Proof.
  intros Hc. unfold match_at, MEDIA_PLACEHOLDER_TOKEN_RE, ATTACHMENT_PLACEHOLDER_TOKEN_RE.
  cbn [seqs]. rewrite rmatch_seq. now apply lit_mismatch.
Qed.

Lemma plain_not_closing x :
  allPlain x = true ->
  all_chars (cls_mem true true [IChar ">"]) x = true
  /\ all_chars (cls_mem true true [IChar "]"]) x = true.
Proof.
  induction x as [|c x IH]; [split; reflexivity|]. cbn [allPlain all_chars].
  intros H. apply andb_true_iff in H as [Hc Hx]. destruct (IH Hx) as [IH1 IH2].
  rewrite IH1, IH2, !andb_true_r.
  destruct (plain_facts c Hc) as (_ & _ & _ & Hb & Hg & _).
  unfold cls_mem. cbn [existsb item_mem]. now rewrite Hb, Hg.
Qed.

(** No parenthesised note follows a token. *)
Lemma no_note_follows tail p g k :
  tokenTail tail = true ->
  rmatch true (seqs [Star space; Chr "("; Star (none_of ")"); Chr ")"])
    (mkPos p tail g) k = None.
Proof.
  intros Htail. cbn [seqs]. rewrite rmatch_seq. unfold space.
  destruct tail as [|a rest]; [reflexivity|].
  cbn [tokenTail] in Htail. apply andb_true_iff in Htail as [Ha Hrest].
  apply Ascii.eqb_eq in Ha. subst a.
  assert (Hopen : exists b rest', rest = String b rest' /\ (b = "<" \/ b = "[")%char).
  { destruct rest as [|b rest']; [discriminate|]. exists b, rest'. split; [reflexivity|].
    cbn [opensToken headIs] in Hrest. apply orb_true_iff in Hrest as [H|H];
      apply Ascii.eqb_eq in H; auto. }
  destruct Hopen as (b & rest' & -> & Hb).
  change (String " " (String b rest')) with (" " ++ String b rest').
  apply star_cls_refused.
  - reflexivity.
  - destruct Hb as [-> | ->]; reflexivity.
  - intros x1 x2 p' Hx. rewrite rmatch_seq.
    destruct x1 as [|c1 x1]; cbn [append] in Hx.
    + subst x2. reflexivity.
    + inversion Hx as [[Hc Hx']]. destruct x1; [|discriminate Hx'].
      cbn [append] in Hx'. subst x2. cbn [append].
      destruct Hb as [-> | ->]; reflexivity.
Qed.

Lemma media_hit kind tail p :
  plainName kind = true -> tokenTail tail = true ->
  match_at true MEDIA_PLACEHOLDER_TOKEN_RE p (("<media:" ++ kind ++ ">") ++ tail)
  = Some (mkPos (Some ">"%char) tail None).
Proof.
  intros Hkind Htail.
  destruct (plainName_inv kind Hkind) as (c & x & -> & Hc & Hx).
  unfold match_at, MEDIA_PLACEHOLDER_TOKEN_RE, ATTACHMENT_PLACEHOLDER_TOKEN_RE.
  cbn [seqs]. rewrite !string_app_assoc, rmatch_seq, lit_match. cbv beta.
  rewrite rmatch_seq. unfold none_of at 1. cbn [map list_ascii_of_string].
  apply plus_cls_taken.
  - apply (plain_not_closing (String c x)). cbn [allPlain]. now rewrite Hc, Hx.
  - reflexivity.
  - rewrite rmatch_seq. cbn [append]. rewrite chr_hit by reflexivity.
    now rewrite rmatch_opt_skipped by (now apply no_note_follows).
Qed.

Lemma media_nothing_left fuel p :
  replace_all_from fuel true MEDIA_PLACEHOLDER_TOKEN_RE (const " ") p "" = "".
Proof. destruct fuel; reflexivity. Qed.

Lemma plain_not_opening x :
  allPlain x = true ->
  all_chars (fun c => negb (chr_eq true "<" c)) x = true.
Proof.
  induction x as [|c x IH]; [reflexivity|]. cbn [allPlain all_chars].
  intros H. apply andb_true_iff in H as [Hc Hx]. rewrite (IH Hx), andb_true_r.
  destruct (plain_facts c Hc) as (_ & Hlt & _). now rewrite Hlt.
Qed.

Lemma attachment_not_opening t :
  wellFormed t = true ->
  match t with MediaToken _ => True | _ =>
    all_chars (fun c => negb (chr_eq true "<" c)) (placeholderText t) = true
  end.
Proof.
  destruct t as [kind | word name | word]; cbn [wellFormed placeholderText];
    intros Hw; [exact I | |].
  - rewrite !all_chars_app, (plain_not_opening name (plainName_allPlain name Hw)).
    now destruct word.
  - now destruct word.
Qed.

Lemma length_token_pos t : exists n, String.length (placeholderText t) = S n.
Proof. destruct t as [kind | word name | word]; cbn; eexists; reflexivity. Qed.

(** One token: a media marker becomes a space, an attachment marker is
    copied. *)
Lemma media_token_pass t tail extra p :
  wellFormed t = true -> tokenTail tail = true ->
  exists extra' p',
    replace_all_from (String.length (placeholderText t ++ tail) + S extra) true
      MEDIA_PLACEHOLDER_TOKEN_RE (const " ") p (placeholderText t ++ tail)
    = mediaStripped t
      ++ replace_all_from (String.length tail + S extra') true
           MEDIA_PLACEHOLDER_TOKEN_RE (const " ") p' tail.
Proof.
  intros Hw Htail. destruct (length_token_pos t) as [n Hn].
  destruct t as [kind | word name | word].
  - exists (n + extra), (Some ">"%char). cbn [wellFormed placeholderText mediaStripped] in *.
    rewrite Nat.add_succ_r.
    rewrite (replace_all_hit _ true MEDIA_PLACEHOLDER_TOKEN_RE (const " ") p
               ("<media:" ++ kind ++ ">") tail (mkPos (Some ">"%char) tail None));
      [| discriminate | now apply media_hit | reflexivity].
    cbn [prev cap]. unfold const at 1. f_equal. f_equal.
    rewrite string_length_app, Hn. lia.
  - exists extra, (last_prev p (placeholderText (AttachmentToken word name))).
    cbn [mediaStripped].
    rewrite string_length_app, <- Nat.add_assoc.
    apply (replace_all_skip true MEDIA_PLACEHOLDER_TOKEN_RE (const " ")
             (fun c => negb (chr_eq true "<" c))).
    + intros p0 c s Hc. apply media_miss. now apply negb_true_iff in Hc.
    + exact (attachment_not_opening (AttachmentToken word name) Hw).
  - exists extra, (last_prev p (placeholderText (BareAttachment word))).
    cbn [mediaStripped].
    rewrite string_length_app, <- Nat.add_assoc.
    apply (replace_all_skip true MEDIA_PLACEHOLDER_TOKEN_RE (const " ")
             (fun c => negb (chr_eq true "<" c))).
    + intros p0 c s Hc. apply media_miss. now apply negb_true_iff in Hc.
    + exact (attachment_not_opening (BareAttachment word) Hw).
Qed.

Lemma media_pass ts :
  forall extra p,
    forallb wellFormed ts = true ->
    replace_all_from (String.length (followingText ts) + S extra) true
      MEDIA_PLACEHOLDER_TOKEN_RE (const " ") p (followingText ts)
    = followingMediaStripped ts.
Proof.
  induction ts as [|t ts IH]; intros extra p Hts.
  - apply media_nothing_left.
  - cbn [forallb] in Hts. apply andb_true_iff in Hts as [Ht Hts].
    cbn [followingText followingMediaStripped append String.length Nat.add].
    rewrite replace_all_miss by (now apply media_miss).
    destruct (media_token_pass t (followingText ts) extra (Some " "%char) Ht
                (following_tokenTail ts)) as (extra' & p' & ->).
    now rewrite IH.
Qed.

Lemma media_removed t more :
  forallb wellFormed (t :: more) = true ->
  replace_all true MEDIA_PLACEHOLDER_TOKEN_RE (const " ")
    (placeholderText t ++ followingText more)
  = mediaStripped t ++ followingMediaStripped more.
Proof.
  cbn [forallb]. intros H. apply andb_true_iff in H as [Ht Hmore].
  unfold replace_all. rewrite <- Nat.add_1_r.
  destruct (media_token_pass t (followingText more) 0 None Ht
              (following_tokenTail more)) as (extra' & p' & ->).
  now rewrite media_pass.
Qed.

(** ** The pass that removes the attachment markers *)

Lemma slack_miss p s :
  head_not (chr_eq true "[") s ->
  match_at true SLACK_MEDIA_PLACEHOLDER_TOKEN_RE p s = None.
Proof.
  intros Hs. unfold match_at, SLACK_MEDIA_PLACEHOLDER_TOKEN_RE,
    SLACK_ATTACHMENT_PLACEHOLDER_TOKEN_RE.
  cbn [seqs]. rewrite rmatch_seq. now apply chr_miss.
Qed.

Lemma words_match w p rest g k :
  rmatch true attachment_words (mkPos p (wordText w ++ rest) g) k
  = k (mkPos (last_prev p (wordText w)) rest g).
Proof.
  unfold attachment_words. cbn [map alts].
  destruct w; cbn [wordText].
  - cbn [rmatch]. rewrite lit_match.
    destruct (k _); [reflexivity|]. cbn [append].
    now rewrite !lit_mismatch by reflexivity.
  - cbn [rmatch]. rewrite lit_match. cbn [append].
    rewrite lit_mismatch by reflexivity.
    destruct (k _); [reflexivity|]. now rewrite lit_mismatch by reflexivity.
  - cbn [rmatch]. rewrite lit_match. cbn [append].
    now rewrite !lit_mismatch by reflexivity.
Qed.

Lemma slack_hit_named w name tail p :
  plainName name = true ->
  match_at true SLACK_MEDIA_PLACEHOLDER_TOKEN_RE p
    (("[" ++ wordText w ++ ": " ++ name ++ "]") ++ tail)
  = Some (mkPos (Some "]"%char) tail None).
Proof.
  intros Hname. destruct (plainName_inv name Hname) as (c & x & -> & Hc & Hx).
  unfold match_at, SLACK_MEDIA_PLACEHOLDER_TOKEN_RE,
    SLACK_ATTACHMENT_PLACEHOLDER_TOKEN_RE.
  cbn [seqs]. rewrite !string_app_assoc. cbn [append].
  rewrite rmatch_seq, chr_hit by reflexivity.
  rewrite rmatch_seq, words_match. rewrite rmatch_seq.
  apply rmatch_opt_taken. cbn [append].
  rewrite rmatch_seq, chr_hit by reflexivity. rewrite rmatch_seq.
  change (String " " (String c (x ++ String "]" tail)))
    with (" " ++ String c (x ++ String "]" tail)).
  unfold space. apply star_cls_taken.
  - reflexivity.
  - cbn [head_not]. rewrite cls_space. now destruct (plain_facts c Hc).
  - unfold none_of. cbn [map list_ascii_of_string].
    change (String c (x ++ String "]" tail)) with (String c x ++ String "]" tail).
    apply plus_cls_taken.
    + apply (plain_not_closing (String c x)). cbn [allPlain]. now rewrite Hc, Hx.
    + reflexivity.
    + now rewrite chr_hit by reflexivity.
Qed.

Lemma slack_hit_bare w tail p :
  match_at true SLACK_MEDIA_PLACEHOLDER_TOKEN_RE p (("[" ++ wordText w ++ "]") ++ tail)
  = Some (mkPos (Some "]"%char) tail None).
Proof.
  unfold match_at, SLACK_MEDIA_PLACEHOLDER_TOKEN_RE,
    SLACK_ATTACHMENT_PLACEHOLDER_TOKEN_RE.
  cbn [seqs]. rewrite !string_app_assoc. cbn [append].
  rewrite rmatch_seq, chr_hit by reflexivity.
  rewrite rmatch_seq, words_match. rewrite rmatch_seq. cbn [append].
  rewrite rmatch_opt_skipped.
  - now rewrite chr_hit by reflexivity.
  - rewrite rmatch_seq. now apply chr_miss.
Qed.

Lemma slack_nothing_left fuel p :
  replace_all_from fuel true SLACK_MEDIA_PLACEHOLDER_TOKEN_RE (const " ") p "" = "".
Proof. destruct fuel; reflexivity. Qed.

(** One token: what the first pass left of it becomes one space. *)
Lemma slack_token_pass t tail extra p :
  wellFormed t = true ->
  exists extra' p',
    replace_all_from (String.length (mediaStripped t ++ tail) + S extra) true
      SLACK_MEDIA_PLACEHOLDER_TOKEN_RE (const " ") p (mediaStripped t ++ tail)
    = " " ++ replace_all_from (String.length tail + S extra') true
               SLACK_MEDIA_PLACEHOLDER_TOKEN_RE (const " ") p' tail.
Proof.
  intros Hw. destruct (length_token_pos t) as [n Hn].
  destruct t as [kind | word name | word];
    cbn [wellFormed placeholderText mediaStripped] in *.
  - exists extra, (Some " "%char). cbn [append String.length Nat.add].
    now rewrite replace_all_miss by (now apply slack_miss).
  - exists (n + extra), (Some "]"%char). rewrite Nat.add_succ_r.
    rewrite (replace_all_hit _ true SLACK_MEDIA_PLACEHOLDER_TOKEN_RE (const " ") p
               ("[" ++ wordText word ++ ": " ++ name ++ "]") tail
               (mkPos (Some "]"%char) tail None));
      [| discriminate | now apply slack_hit_named | reflexivity].
    cbn [prev cap]. unfold const at 1. f_equal. f_equal.
    rewrite string_length_app, Hn. lia.
  - exists (n + extra), (Some "]"%char). rewrite Nat.add_succ_r.
    rewrite (replace_all_hit _ true SLACK_MEDIA_PLACEHOLDER_TOKEN_RE (const " ") p
               ("[" ++ wordText word ++ "]") tail
               (mkPos (Some "]"%char) tail None));
      [| discriminate | now apply slack_hit_bare | reflexivity].
    cbn [prev cap]. unfold const at 1. f_equal. f_equal.
    rewrite string_length_app, Hn. lia.
Qed.

Lemma slack_pass ts :
  forall extra p,
    forallb wellFormed ts = true ->
    replace_all_from (String.length (followingMediaStripped ts) + S extra) true
      SLACK_MEDIA_PLACEHOLDER_TOKEN_RE (const " ") p (followingMediaStripped ts)
    = blanks ts.
Proof.
  induction ts as [|t ts IH]; intros extra p Hts.
  - apply slack_nothing_left.
  - cbn [forallb] in Hts. apply andb_true_iff in Hts as [Ht Hts].
    cbn [followingMediaStripped blanks append String.length Nat.add].
    rewrite replace_all_miss by (now apply slack_miss).
    destruct (slack_token_pass t (followingMediaStripped ts) extra (Some " "%char) Ht)
      as (extra' & p' & ->).
    now rewrite IH.
Qed.

Lemma attachments_removed t more :
  forallb wellFormed (t :: more) = true ->
  replace_all true SLACK_MEDIA_PLACEHOLDER_TOKEN_RE (const " ")
    (mediaStripped t ++ followingMediaStripped more)
  = " " ++ blanks more.
Proof.
  cbn [forallb]. intros H. apply andb_true_iff in H as [Ht Hmore].
  unfold replace_all. rewrite <- Nat.add_1_r.
  destruct (slack_token_pass t (followingMediaStripped more) 0 None Ht)
    as (extra' & p' & ->).
  now rewrite slack_pass.
Qed.

(** ** What is left is white space *)

Lemma blanks_are_spaces ts : all_chars Js.is_space (blanks ts) = true.
Proof. induction ts as [|t ts IH]; [reflexivity|]. cbn [blanks append all_chars]. exact IH. Qed.

Lemma spaces_collapse c x :
  all_chars Js.is_space (String c x) = true ->
  Js.trim (replace_all false WHITESPACE_RE (const " ") (String c x)) = "".
Proof.
  intros Hall. unfold replace_all.
  rewrite <- (string_app_empty_r (String c x)) at 2.
  rewrite (replace_all_hit _ false WHITESPACE_RE (const " ") None (String c x) ""
             (mkPos (last_prev None (String c x)) "" None));
    [| discriminate | | reflexivity].
  - cbn [prev cap]. unfold const at 1.
    now destruct (String.length (String c x)).
  - unfold match_at, WHITESPACE_RE, space. apply plus_cls_taken.
    + clear - Hall. revert Hall. generalize (String c x) as s.
      induction s as [|d s IH]; [reflexivity|]. cbn [all_chars].
      intros H. apply andb_true_iff in H as [Hd Hs].
      now rewrite cls_space, Hd, IH.
    + exact I.
    + reflexivity.
Qed.

(** ** The whole of [stripMediaPlaceholderTokens] *)

Lemma message_stripped t more :
  forallb wellFormed (t :: more) = true ->
  stripMediaPlaceholderTokens (placeholderText t ++ followingText more) = "".
Proof.
  intros Hts. unfold stripMediaPlaceholderTokens. rewrite message_trimmed.
  destruct (negb (Js.truthy _)); [reflexivity|].
  destruct (test true STICKER_PLACEHOLDER_RE _); [reflexivity|].
  rewrite media_removed, attachments_removed by exact Hts.
  apply spaces_collapse. cbn [append all_chars]. apply blanks_are_spaces.
Qed.

Lemma message_yields_nothing isCtl maxChars t more :
  forallb wellFormed (t :: more) = true ->
  candidateTitle isCtl stripMediaPlaceholderTokens maxChars
    (Some (placeholderText t ++ followingText more)) = None.
Proof.
  intros Hts. unfold candidateTitle, normalizedTitle.
  destruct (negb (Js.truthy (Js.trim _))); [reflexivity|].
  rewrite message_clean by exact Hts.
  destruct (negb (Js.truthy _)); [reflexivity|].
  destruct (test true SLASH_COMMAND_RE _); [reflexivity|].
  rewrite message_keeps_its_head.
  destruct (negb (Js.truthy _) || test true LOW_SIGNAL_RE _); [reflexivity|].
  now rewrite message_stripped.
Qed.

End PlaceholderFacts.

(** X20. A message made of placeholder tokens yields no title: in the
    snapshot with [stripMediaPlaceholderTokens], when the primary text
    consists of media markers ([<media:kind>]) and attachment markers
    ([[Slack file: name]], [[Forwarded image: name]], [[attached: name]],
    with or without a name) separated by one space, where kinds and names
    are non-empty and hold no white space and none of the characters that
    delimit a token, and there is no fallback text,
    [deriveConversationTitle] returns nothing, whatever the number of tokens,
    [maxChars] and the command detection. *)
Theorem placeholders_alone_give_no_title
  (isCtl : string -> bool) (ts : list Placeholders.Placeholder) (maxChars : Z) :
  forallb Placeholders.wellFormed ts = true ->
  ConversationTitleStrip.deriveConversationTitle isCtl
    (Some (Placeholders.placeholdersText ts)) None maxChars = None.
Proof.
  intros Hts. unfold ConversationTitleStrip.deriveConversationTitle.
  destruct ts as [|t more]; [reflexivity|].
  rewrite PlaceholderFacts.placeholdersText_cons.
  cbn [ConversationTitle.firstCandidate].
  now rewrite PlaceholderFacts.message_yields_nothing.
Qed.

Lemma placeholders_alone_give_no_title_witness :
  ConversationTitleStrip.deriveConversationTitle Samples.isControl
    (Some (Placeholders.placeholdersText
             [Placeholders.AttachmentToken Placeholders.SlackFile "report.pdf";
              Placeholders.MediaToken "image";
              Placeholders.BareAttachment Placeholders.Attached]))
    None 80 = None.
Proof.
  apply (placeholders_alone_give_no_title Samples.isControl
           [Placeholders.AttachmentToken Placeholders.SlackFile "report.pdf";
            Placeholders.MediaToken "image";
            Placeholders.BareAttachment Placeholders.Attached] 80).
  vm_compute. reflexivity.
Defined.

(* ===================================================================== *)
(** * Placeholder tokens in the two snapshots of the extractor *)
(* ===================================================================== *)




(* ===================================================================== *)
(** * The two snapshots of conversation-title.ts on plain text *)
(* ===================================================================== *)

Module SnapshotFacts.
Import Re RegexFacts.

Lemma noMarkup_chr ic c :
  TextShape.noMarkup c = true ->
  chr_eq ic "<" c = false /\ chr_eq ic "[" c = false /\ chr_eq ic ":" c = false.
Proof.
  destruct c as [[] [] [] [] [] [] [] []]; destruct ic; cbv; intros H;
    repeat split; try reflexivity; discriminate H.
Qed.

Lemma noMarkup_head ic s :
  all_chars TextShape.noMarkup s = true ->
  head_not (chr_eq ic "<") s /\ head_not (chr_eq ic "[") s.
Proof.
  destruct s as [|c s]; [now split|]. cbn [all_chars head_not]. intros H.
  apply andb_true_iff in H as [Hc _]. now apply (noMarkup_chr ic) in Hc.
Qed.

Lemma noMarkup_inside ic x d y :
  all_chars TextShape.noMarkup (x ++ String d y) = true -> chr_eq ic ":" d = false.
Proof.
  intros H. apply all_chars_behind in H. cbn [all_chars] in H.
  apply andb_true_iff in H as [Hd _]. now apply (noMarkup_chr ic) in Hd.
Qed.

Lemma lit_miss ic a w s p g k :
  head_not (chr_eq ic a) s -> rmatch ic (lit (String a w)) (mkPos p s g) k = None.
Proof.
  intros Hs. destruct s as [|c s].
  - destruct w; cbn [lit rmatch]; unfold step_char; reflexivity.
  - now apply lit_mismatch.
Qed.

Lemma wordb_step ic st k :
  rmatch ic WordB st k
  = if xorb (word_opt (prev st)) (word_opt (next_char (rest st))) then k st else None.
Proof. reflexivity. Qed.

(** A replacement leaves a text alone when no match is found in a text of
    its kind. *)
Lemma replace_all_plain ic r f :
  (forall p s, all_chars TextShape.noMarkup s = true -> match_at ic r p s = None) ->
  forall s, all_chars TextShape.noMarkup s = true -> replace_all ic r f s = s.
Proof.
  intros Hno s Hs. unfold replace_all. apply replace_all_no_match.
  intros p' s1 s2 ->. apply Hno. now apply all_chars_behind in Hs.
Qed.

Ltac head_miss :=
  intros p s Hs; unfold match_at;
  destruct (noMarkup_head true s Hs) as [Hlt Hbr];
  cbn [seqs]; rewrite ?rmatch_seq;
  first [ now apply chr_miss | now apply lit_miss ].

Lemma file_open_miss p s :
  all_chars TextShape.noMarkup s = true ->
  match_at true ConversationTitle.FILE_OPEN_TAG_RE p s = None.
Proof. revert p s. unfold ConversationTitle.FILE_OPEN_TAG_RE. head_miss. Qed.

Lemma file_close_miss p s :
  all_chars TextShape.noMarkup s = true ->
  match_at true ConversationTitle.FILE_CLOSE_TAG_RE p s = None.
Proof. revert p s. unfold ConversationTitle.FILE_CLOSE_TAG_RE. head_miss. Qed.

Lemma section_token_miss p s :
  all_chars TextShape.noMarkup s = true ->
  match_at true ConversationTitle.ATTACHMENT_SECTION_TOKEN_RE p s = None.
Proof. revert p s. unfold ConversationTitle.ATTACHMENT_SECTION_TOKEN_RE. head_miss. Qed.

Lemma section_label_miss p s :
  all_chars TextShape.noMarkup s = true ->
  match_at true ConversationTitle.ATTACHMENT_SECTION_LABEL_RE p s = None.
Proof.
  intros Hs. unfold match_at, ConversationTitle.ATTACHMENT_SECTION_LABEL_RE.
  cbn [seqs]. rewrite rmatch_seq.
  match goal with |- ?m = None => destruct m as [res|] eqn:Hm; [|reflexivity] end.
  exfalso. rewrite wordb_step in Hm.
  destruct (xorb _ _); [|discriminate].
  apply needs_last_char in Hm. destruct Hm as (x & d & y & Hx & Hd).
  cbn [rest] in Hx. rewrite Hx in Hs.
  apply (noMarkup_inside true) in Hs. congruence.
Qed.

Lemma note_header_miss p s :
  all_chars TextShape.noMarkup s = true ->
  match_at true ConversationTitle.ATTACHMENT_NOTE_HEADER_RE p s = None.
Proof. revert p s. unfold ConversationTitle.ATTACHMENT_NOTE_HEADER_RE. head_miss. Qed.

Lemma note_entry_miss p s :
  all_chars TextShape.noMarkup s = true ->
  match_at true ConversationTitle.ATTACHMENT_NOTE_ENTRY_RE p s = None.
Proof. revert p s. unfold ConversationTitle.ATTACHMENT_NOTE_ENTRY_RE. head_miss. Qed.

Lemma slack_name_miss p s :
  all_chars TextShape.noMarkup s = true ->
  match_at true ConversationTitle.SLACK_ATTACHMENT_NAME_TOKEN_RE p s = None.
Proof. revert p s. unfold ConversationTitle.SLACK_ATTACHMENT_NAME_TOKEN_RE. head_miss. Qed.

Lemma placeholder_miss p s :
  all_chars TextShape.noMarkup s = true ->
  match_at true ConversationTitle.ATTACHMENT_PLACEHOLDER_TOKEN_RE p s = None.
Proof. revert p s. unfold ConversationTitle.ATTACHMENT_PLACEHOLDER_TOKEN_RE. head_miss. Qed.

Lemma slack_placeholder_miss p s :
  all_chars TextShape.noMarkup s = true ->
  match_at true ConversationTitle.SLACK_ATTACHMENT_PLACEHOLDER_TOKEN_RE p s = None.
Proof.
  revert p s. unfold ConversationTitle.SLACK_ATTACHMENT_PLACEHOLDER_TOKEN_RE. head_miss.
Qed.

(** On a text without markup the two normalisers are the same function. *)
Lemma normalizers_agree v :
  all_chars TextShape.noMarkup v = true ->
  ConversationTitle.normalizeAttachmentTokens v
  = ConversationTitleStrip.stripMediaPlaceholderTokens v.
Proof.
  intros Hv. apply (JsFacts.all_chars_trim TextShape.noMarkup) in Hv.
  unfold ConversationTitle.normalizeAttachmentTokens,
    ConversationTitleStrip.stripMediaPlaceholderTokens,
    ConversationTitleStrip.MEDIA_PLACEHOLDER_TOKEN_RE,
    ConversationTitleStrip.SLACK_MEDIA_PLACEHOLDER_TOKEN_RE.
  cbv zeta.
  rewrite (replace_all_plain true _ _ file_open_miss _ Hv).
  rewrite (replace_all_plain true _ _ file_close_miss _ Hv).
  rewrite (replace_all_plain true _ _ section_token_miss _ Hv).
  rewrite (replace_all_plain true _ _ section_label_miss _ Hv).
  rewrite (replace_all_plain true _ _ note_header_miss _ Hv).
  rewrite (replace_all_plain true _ _ note_entry_miss _ Hv).
  rewrite (replace_all_plain true _ _ slack_name_miss _ Hv).
  reflexivity.
Qed.

(** The head of the loop body keeps a text free of markup. *)
Lemma cleanSource_plain s :
  all_chars TextShape.noMarkup s = true ->
  all_chars TextShape.noMarkup (ConversationTitle.cleanSource s) = true.
Proof.
  intros Hs. unfold ConversationTitle.cleanSource, replace_all.
  apply JsFacts.all_chars_trim.
  repeat (apply all_chars_replace_all; [reflexivity|]). exact Hs.
Qed.

Lemma dropLeading_plain s :
  all_chars TextShape.noMarkup s = true ->
  all_chars TextShape.noMarkup (ConversationTitle.dropLeading s) = true.
Proof.
  intros Hs. unfold ConversationTitle.dropLeading, replace_first.
  apply JsFacts.all_chars_trim.
  repeat (apply all_chars_replace_first; [reflexivity|]). exact Hs.
Qed.

Lemma candidates_agree isCtl maxChars source :
  TextShape.plainSource source = true ->
  ConversationTitle.candidateTitle isCtl ConversationTitle.normalizeAttachmentTokens
    maxChars source
  = ConversationTitle.candidateTitle isCtl
      ConversationTitleStrip.stripMediaPlaceholderTokens maxChars source.
Proof.
  intros Hs. unfold ConversationTitle.candidateTitle, ConversationTitle.normalizedTitle.
  destruct source as [text|]; [|reflexivity]. cbn [TextShape.plainSource] in Hs.
  cbv zeta.
  rewrite (normalizers_agree (ConversationTitle.dropLeading (ConversationTitle.cleanSource text)))
    by now apply dropLeading_plain, cleanSource_plain.
  reflexivity.
Qed.

End SnapshotFacts.

(** X28. Where the sources of the title hold no opening angle or square
    bracket and no colon, the snapshot of [deriveConversationTitle] that
    rewrites attachment tokens and the one that strips media placeholders
    return the same result, for every limit and every command detector. *)
Theorem snapshots_agree_on_plain_text :
  forall isControlCommandMessage primaryText fallbackText maxChars,
    TextShape.plainSource primaryText = true ->
    TextShape.plainSource fallbackText = true ->
    ConversationTitle.deriveConversationTitle isControlCommandMessage
      primaryText fallbackText maxChars
    = ConversationTitleStrip.deriveConversationTitle isControlCommandMessage
        primaryText fallbackText maxChars.
Proof.
  intros isCtl primaryText fallbackText maxChars Hp Hf.
  unfold ConversationTitle.deriveConversationTitle,
    ConversationTitleStrip.deriveConversationTitle.
  cbv zeta. cbn [ConversationTitle.firstCandidate].
  now rewrite !SnapshotFacts.candidates_agree.
Qed.

Lemma snapshots_agree_on_plain_text_witness :
  ConversationTitle.deriveConversationTitle (fun _ => false)
    (Some "  please fix the deploy pipeline, thanks!  "%string) None 40
  = ConversationTitleStrip.deriveConversationTitle (fun _ => false)
      (Some "  please fix the deploy pipeline, thanks!  "%string) None 40.
Proof.
  apply (snapshots_agree_on_plain_text (fun _ => false)
           (Some "  please fix the deploy pipeline, thanks!  "%string) None 40);
    reflexivity.
Defined.

(* ===================================================================== *)
(** * The providers of Slack and Telegram *)
(* ===================================================================== *)

Module ProviderFacts.

Lemma includes_nonempty tok text :
  Js.truthy tok = true -> Js.includes tok text = true -> Js.truthy text = true.
Proof.
  destruct tok as [|a tok]; [discriminate|]. intros _.
  destruct text as [|c text]; [|reflexivity]. cbn. discriminate.
Qed.

Lemma mentions_intro tokens values tok value :
  In tok tokens -> In value values -> Js.includes tok value = true ->
  SlackProvider.mentions tokens values = true.
Proof.
  intros Htok Hvalue Hinc. unfold SlackProvider.mentions.
  apply existsb_exists. exists value. split; [exact Hvalue|].
  apply existsb_exists. now exists tok.
Qed.

End ProviderFacts.

(** X21. The retry hooks answer in whole seconds: what
    [resolveRetryAfterMs] of the Slack provider or [retryAfterMs] of the
    Telegram provider returns, when it returns a delay, is a positive
    number of seconds in milliseconds, so at least 1000; the Telegram hook
    answers for rate limits only. *)
Theorem retry_hooks_answer_in_seconds
  (error : JsValues.JsValue) (errorClass : TelegramProvider.ErrorClass) (delay : Z) :
  SlackProvider.resolveRetryAfterMs error = Some delay
  \/ TelegramProvider.retryAfterMs error errorClass = Some delay ->
  (exists seconds, 1 <= seconds /\ delay = seconds * 1000)
  /\ (TelegramProvider.retryAfterMs error errorClass = Some delay ->
      errorClass = TelegramProvider.rate_limit).
Proof.
  intros Hdelay. split.
  - destruct Hdelay as [Hs|Ht].
    + unfold SlackProvider.resolveRetryAfterMs in Hs.
      destruct (ThreadTitleLlm.parseInt10 _) as [seconds|]; [|discriminate].
      destruct (Z.leb_spec seconds 0); [discriminate|].
      inversion Hs. exists seconds. split; [lia | reflexivity].
    + unfold TelegramProvider.retryAfterMs in Ht.
      destruct (negb _); [discriminate|].
      destruct (TelegramProvider.exec _ _ _) as [m|]; [|discriminate].
      destruct (Re.cap m) as [digits|]; [|discriminate].
      destruct (negb _); [discriminate|].
      destruct (ThreadTitleLlm.parseInt10 digits) as [seconds|]; [|discriminate].
      destruct (Z.gtb_spec seconds 0); [|discriminate].
      inversion Ht. exists seconds. split; [lia | reflexivity].
  - unfold TelegramProvider.retryAfterMs.
    destruct errorClass; cbn [TelegramProvider.ErrorClass_eqb negb];
      try discriminate. reflexivity.
Qed.

Lemma retry_hooks_answer_in_seconds_witness :
  (exists seconds, 1 <= seconds /\ 30000 = seconds * 1000)
  /\ (TelegramProvider.retryAfterMs
        (JsValues.VObj [("data", JsValues.VObj
                                   [("headers", JsValues.VObj
                                                  [("retry-after", JsValues.VStr " 30 ")])])])
        TelegramProvider.unknown = Some 30000 ->
      TelegramProvider.unknown = TelegramProvider.rate_limit).
Proof.
  apply (retry_hooks_answer_in_seconds
           (JsValues.VObj [("data", JsValues.VObj
                                      [("headers", JsValues.VObj
                                                     [("retry-after", JsValues.VStr " 30 ")])])])
           TelegramProvider.unknown 30000).
  left. vm_compute. reflexivity.
Defined.

(** X22. Permission errors of Slack are recognised wherever they are
    reported and win over every other class: when one of the fields
    [data.error], [data.needed], [code] or [message] of the thrown value
    holds a text that contains, in any letter case, one of the permission
    tokens ([missing_scope], [not_authed], [invalid_auth], ...), the error is
    classified as [permission], whatever else the value holds. *)
Theorem slack_permission_errors_win
  (error : JsValues.JsValue) (path : list string) (text tok : string) :
  In path [["data"; "error"]; ["data"; "needed"]; ["code"]; ["message"]] ->
  SlackProvider.readNestedString error path = Some text ->
  In tok SlackProvider.PERMISSION_TOKENS ->
  Js.includes tok (Js.toLowerCase text) = true ->
  SlackProvider.classifySlackTitleError error = SlackProvider.permission.
Proof.
  intros Hpath Hread Htok Hinc. unfold SlackProvider.classifySlackTitleError.
  assert (Htruthy : Js.truthy text = true).
  { rewrite <- JsFacts.truthy_toLowerCase. apply (ProviderFacts.includes_nonempty tok);
      [|exact Hinc].
    cbn [SlackProvider.PERMISSION_TOKENS In] in Htok.
    repeat destruct Htok as [Htok|Htok]; try contradiction; now subst tok. }
  rewrite (ProviderFacts.mentions_intro SlackProvider.PERMISSION_TOKENS
             (SlackProvider.candidates error) tok (Js.toLowerCase text) Htok);
    [reflexivity | | exact Hinc].
  unfold SlackProvider.candidates. apply in_map. apply in_flat_map.
  exists (Some text). split; [|now rewrite Htruthy; left].
  cbn [In] in Hpath.
  repeat destruct Hpath as [Hpath|Hpath]; try contradiction; subst path;
    rewrite Hread; cbn [In]; auto.
Qed.

Lemma slack_permission_errors_win_witness :
  SlackProvider.classifySlackTitleError
    (JsValues.VObj [("message", JsValues.VStr "An API error occurred: ratelimited");
                    ("data", JsValues.VObj [("error", JsValues.VStr "Missing_Scope");
                                            ("needed", JsValues.VStr "assistant:write")])])
  = SlackProvider.permission.
Proof.
  apply (slack_permission_errors_win
           (JsValues.VObj [("message", JsValues.VStr "An API error occurred: ratelimited");
                           ("data", JsValues.VObj [("error", JsValues.VStr "Missing_Scope");
                                                   ("needed", JsValues.VStr "assistant:write")])])
           ["data"; "error"] "Missing_Scope" "missing_scope").
  - left. reflexivity.
  - reflexivity.
  - left. reflexivity.
  - reflexivity.
Defined.

(** X23. The Slack provider sets a title only where it has a key: a
    call of [setTitle] either leaves the client alone, or makes exactly one
    call, for a target that [resolveThreadKey] gives a key, with the
    trimmed channel and thread ids that make up this key and with the
    trimmed title, which is not empty. *)
Theorem slack_setTitle_calls_match_the_key
  (client : SlackProvider.Client) (botToken : string)
  (target : ThreadTitle.ThreadTitleTarget) (title : string)
  (log : list SlackProvider.ApiCall) (r : Completion unit)
  (log' : list SlackProvider.ApiCall) :
  SlackProvider.setTitle client botToken target title log = (r, log') ->
  log' = log
  \/ exists call,
      log' = (log ++ [call])%list
      /\ SlackProvider.resolveThreadKey target
         = Some ("slack:" ++ SlackProvider.channel_id (SlackProvider.payloadOf call)
                   ++ ":" ++ SlackProvider.thread_ts (SlackProvider.payloadOf call))
      /\ SlackProvider.payloadTitle (SlackProvider.payloadOf call) = Js.trim title
      /\ Js.truthy (Js.trim title) = true
      /\ SlackProvider.token (SlackProvider.payloadOf call) = botToken.
Proof.
  unfold SlackProvider.setTitle, SlackProvider.resolveThreadKey.
  destruct (SlackProvider.channelIdOf target) as [channelId|];
    [|intros H; inversion H; now left].
  destruct (Js.truthy channelId); cbn [negb orb];
    [|intros H; inversion H; now left].
  destruct (Js.truthy (SlackProvider.threadTsOf target)); cbn [negb orb];
    [|intros H; inversion H; now left].
  destruct (Js.truthy (Js.trim title)) eqn:Htitle; cbn [negb];
    [|intros H; inversion H; now left].
  destruct (SlackProvider.assistantThreadsSetTitle client) as [call|].
  - unfold Eff.bind, Eff.modify, Eff.await. intros H. inversion H. right.
    eexists. split; [reflexivity|]. cbn. auto.
  - destruct (SlackProvider.apiCall client) as [call|].
    + unfold Eff.bind, Eff.modify, Eff.await. intros H. inversion H. right.
      eexists. split; [reflexivity|]. cbn. auto.
    + unfold Eff.throw. intros H. inversion H. now left.
Qed.

Lemma slack_setTitle_calls_match_the_key_witness :
  snd (SlackProvider.setTitle
         (SlackProvider.mkClient None (Some (fun _ _ => Thrown "ratelimited")))
         "xoxb-1" Samples.slackTarget "  Fix Deploy " [])
  = []
  \/ exists call,
      snd (SlackProvider.setTitle
             (SlackProvider.mkClient None (Some (fun _ _ => Thrown "ratelimited")))
             "xoxb-1" Samples.slackTarget "  Fix Deploy " [])
      = ([] ++ [call])%list
      /\ SlackProvider.resolveThreadKey Samples.slackTarget
         = Some ("slack:" ++ SlackProvider.channel_id (SlackProvider.payloadOf call)
                   ++ ":" ++ SlackProvider.thread_ts (SlackProvider.payloadOf call))
      /\ SlackProvider.payloadTitle (SlackProvider.payloadOf call)
         = Js.trim "  Fix Deploy "
      /\ Js.truthy (Js.trim "  Fix Deploy ") = true
      /\ SlackProvider.token (SlackProvider.payloadOf call) = "xoxb-1".
Proof.
  apply (slack_setTitle_calls_match_the_key
           (SlackProvider.mkClient None (Some (fun _ _ => Thrown "ratelimited")))
           "xoxb-1" Samples.slackTarget "  Fix Deploy " []
           (fst (SlackProvider.setTitle
                   (SlackProvider.mkClient None (Some (fun _ _ => Thrown "ratelimited")))
                   "xoxb-1" Samples.slackTarget "  Fix Deploy " []))).
  apply surjective_pairing.
Defined.

(* ===================================================================== *)
(** * More on the AI titles of [thread-title-manager.ts] *)
(* ===================================================================== *)

Module ManagerTitleFacts.
Import Re ManagerTitles.
Local Open Scope list_scope.

Lemma placeholders_not_normalized isCtl ts :
  forallb Placeholders.wellFormed ts = true ->
  normalizeTitlePromptSource isCtl (Some (Placeholders.placeholdersText ts)) = None.
Proof.
  intros Hts. destruct ts as [|t more]; [reflexivity|].
  rewrite PlaceholderFacts.placeholdersText_cons. unfold normalizeTitlePromptSource.
  rewrite PlaceholderFacts.message_clean by exact Hts.
  destruct (negb (Js.truthy _)); [reflexivity|].
  destruct (_ || _ || _); [reflexivity|].
  destruct (test true ConversationTitle.STICKER_PLACEHOLDER_RE _); [reflexivity|].
  rewrite PlaceholderFacts.media_removed, PlaceholderFacts.attachments_removed
    by exact Hts.
  change (" " ++ PlaceholderShape.blanks more)%string
    with (String " " (PlaceholderShape.blanks more)).
  rewrite PlaceholderFacts.spaces_collapse; [reflexivity|].
  cbn [all_chars]. apply PlaceholderFacts.blanks_are_spaces.
Qed.

Lemma promptSeed_truthy isCtl primary fallback seed :
  promptSeedOf isCtl primary fallback = Some seed -> Js.truthy seed = true.
Proof.
  unfold promptSeedOf. destruct (find _ _) as [[s|]|] eqn:Hfind; try discriminate.
  intros Hs. inversion Hs; subst s. apply find_some in Hfind.
  destruct Hfind as [_ Hlen]. destruct seed; [discriminate Hlen | reflexivity].
Qed.

Lemma applied_get_last k title m :
  Forall (fun kv => String.eqb (fst kv) k = false) m ->
  applied_get (m ++ [(k, title)]) k = Some title.
Proof.
  unfold applied_get. induction 1 as [|kv m Hkv Hm IH]; cbn [app find fst snd].
  - now rewrite String.eqb_refl.
  - rewrite Hkv. exact IH.
Qed.

Lemma applied_delete_differs k m :
  Forall (fun kv => String.eqb (fst kv) k = false) (applied_delete m k).
Proof.
  unfold applied_delete. apply Forall_forall. intros kv Hin.
  apply filter_In in Hin. destruct Hin as [_ Hne]. now apply negb_true_iff in Hne.
Qed.

Lemma applied_delete_keeps (P : string * string -> Prop) k m :
  Forall P m -> Forall P (applied_delete m k).
Proof.
  intros Hm. unfold applied_delete. apply Forall_forall. intros kv Hin.
  apply filter_In in Hin. destruct Hin as [Hin _].
  now apply (proj1 (Forall_forall _ _) Hm).
Qed.

Lemma length_applied_delete k m :
  (List.length (applied_delete m k) <= List.length m)%nat.
Proof. unfold applied_delete. apply filter_length_le. Qed.

Lemma applied_get_delete_other k k0 m :
  String.eqb k0 k = false ->
  applied_get (applied_delete m k0) k = applied_get m k.
Proof.
  intros Hne. unfold applied_get, applied_delete.
  induction m as [|[k1 v1] m IH]; [reflexivity|]. cbn [filter find fst].
  destruct (String.eqb k1 k0) eqn:H10; cbn [negb find fst].
  - apply String.eqb_eq in H10. subst k1. rewrite Hne. exact IH.
  - destruct (String.eqb k1 k); [reflexivity | exact IH].
Qed.

Lemma key_is_not_empty ref : Js.truthy (buildNativeThreadKey ref) = true.
Proof. destruct ref; reflexivity. Qed.

End ManagerTitleFacts.

(** X24. A message made of placeholder tokens never reaches the model: in
    the manager, when the primary text consists of well-formed placeholder
    tokens separated by one space and there is no fallback text,
    [maybeGenerateAiThreadTitle] resolves to nothing and does nothing: no
    temporary directory, no agent run, no log line, and the module state is
    what it was. *)
Theorem placeholders_never_reach_the_model
  (isCtl : string -> bool) (env : ManagerAi.Env) (params : ManagerAi.Params)
  (s : ManagerAi.AiState) (ts : list Placeholders.Placeholder) :
  forallb Placeholders.wellFormed ts = true ->
  ManagerAi.primaryText params = Some (Placeholders.placeholdersText ts) ->
  ManagerAi.fallbackText params = None ->
  ManagerAi.maybeGenerateAiThreadTitle isCtl env params s = (Returned None, s).
Proof.
  intros Hts Hprimary Hfallback. unfold ManagerAi.maybeGenerateAiThreadTitle.
  unfold Eff.bind at 1, Eff.get at 1.
  destruct (ManagerAi.now env <? ManagerAi.aiTitleDisabledUntil s); [reflexivity|].
  unfold ManagerTitles.promptSeedOf. rewrite Hprimary, Hfallback. cbn [map].
  rewrite ManagerTitleFacts.placeholders_not_normalized by exact Hts.
  reflexivity.
Qed.

Lemma placeholders_never_reach_the_model_witness :
  ManagerAi.maybeGenerateAiThreadTitle Samples.isControl AiSamples.failingEnv
    (ManagerAi.mkParams "main" Samples.managerKey
       (Some (Placeholders.placeholdersText
                [Placeholders.MediaToken "image";
                 Placeholders.AttachmentToken Placeholders.ForwardedImage "chart.png"]))
       None 80)
    (ManagerAi.mkAiState 0 None [])
  = (Returned None, ManagerAi.mkAiState 0 None []).
Proof.
  apply (placeholders_never_reach_the_model Samples.isControl AiSamples.failingEnv
           (ManagerAi.mkParams "main" Samples.managerKey
              (Some (Placeholders.placeholdersText
                       [Placeholders.MediaToken "image";
                        Placeholders.AttachmentToken Placeholders.ForwardedImage
                          "chart.png"]))
              None 80)
           (ManagerAi.mkAiState 0 None [])
           [Placeholders.MediaToken "image";
            Placeholders.AttachmentToken Placeholders.ForwardedImage "chart.png"]).
  - reflexivity.
  - reflexivity.
  - reflexivity.
Defined.

(** X25. A title that [sanitizeAiTitle] lets through is short and clean: it
    has at least 2 characters and, when [maxChars] is not negative, at most
    [maxChars]; [trim] leaves it as it is; it has between 1 and 8 words; and
    it is not one of the default thread placeholders. *)
Theorem sanitized_ai_title_is_short_and_clean
  (rawTitle : option string) (maxChars : Z) (sourceText : option string) (t : string) :
  ManagerTitles.sanitizeAiTitle rawTitle maxChars sourceText = Some t ->
  2 <= Js.len t
  /\ (0 <= maxChars -> Js.len t <= maxChars)
  /\ Js.trim t = t
  /\ 1 <= ManagerTitles.wordCount t <= 8
  /\ ConversationTitle.isDefaultThreadPlaceholder (Some t) = false.
Proof.
  unfold ManagerTitles.sanitizeAiTitle. destruct rawTitle as [raw|]; [|discriminate].
  destruct (find _ _) as [firstLine|]; [|discriminate].
  destruct (negb (Js.truthy firstLine)); [discriminate|].
  destruct (negb (Js.truthy (Js.trim _))); [discriminate|].
  set (stripped := Js.trim (Re.replace_all false ConversationTitle.TRAILING_PUNCTUATION_RE
                              (Re.const "") _)).
  set (cut := if Js.len stripped >? maxChars
              then Js.trim (ManagerTitles.slice0 maxChars stripped) else stripped).
  destruct (negb (Js.truthy cut)); cbn [orb]; [discriminate|].
  destruct (Z.ltb_spec (Js.len cut) 2) as [|Hlen]; [discriminate|].
  destruct (ConversationTitle.isDefaultThreadPlaceholder (Some cut)) eqn:Hdefault;
    [discriminate|].
  destruct (Z.ltb_spec (ManagerTitles.wordCount cut) 1) as [|Hw1]; cbn [orb];
    [discriminate|].
  destruct (Z.gtb_spec (ManagerTitles.wordCount cut) 8) as [|Hw8]; [discriminate|].
  destruct (_ && _); [discriminate|].
  intros Ht. inversion Ht; subst t.
  split; [exact Hlen|]. split; [|split; [|split; [lia | exact Hdefault]]].
  - intros Hmax. unfold cut.
    destruct (Z.gtb_spec (Js.len stripped) maxChars) as [Hlong|Hfits]; [|exact Hfits].
    unfold ManagerTitles.slice0.
    replace (maxChars <? 0) with false by (symmetry; apply Z.ltb_ge; lia).
    pose proof (JsFacts.length_trim (substring 0 (Z.to_nat maxChars) stripped)).
    pose proof (TitleBounds.length_substring0 (Z.to_nat maxChars) stripped).
    unfold Js.len. lia.
  - unfold cut. destruct (Js.len stripped >? maxChars);
      [apply JsFacts.trim_idempotent | apply JsFacts.trim_idempotent].
Qed.

Lemma sanitized_ai_title_is_short_and_clean_witness :
  2 <= Js.len "Fix Deploy Pipeline"
  /\ (0 <= 40 -> Js.len "Fix Deploy Pipeline" <= 40)
  /\ Js.trim "Fix Deploy Pipeline" = "Fix Deploy Pipeline"
  /\ 1 <= ManagerTitles.wordCount "Fix Deploy Pipeline" <= 8
  /\ ConversationTitle.isDefaultThreadPlaceholder (Some "Fix Deploy Pipeline") = false.
Proof.
  apply (sanitized_ai_title_is_short_and_clean
           (Some (String ThreadTitleLlm.LF "`Fix  Deploy Pipeline!`"))
           40 (Some "the deploy pipeline is broken")).
  vm_compute. reflexivity.
Defined.

(** X26. The titles remembered by the process are looked up by the key
    of the thread and stay bounded: after
    [rememberAppliedThreadTitleWithTitle] for the key that
    [buildNativeThreadKey] builds (which is never empty), the map returns
    the title for this key; and when the map held at most 5000 entries
    under non-empty keys, it still does. *)
Theorem remembered_titles_are_bounded
  (m : ManagerTitles.AppliedTitles) (ref : ManagerTitles.NativeThreadRef)
  (title : string) :
  Forall (fun kv => Js.truthy (fst kv) = true) m ->
  Z.of_nat (List.length m) <= ManagerTitles.MAX_PENDING_ATTEMPTS ->
  ManagerTitles.applied_get
    (ManagerTitles.rememberAppliedThreadTitleWithTitle m
       (ManagerTitles.buildNativeThreadKey ref) title)
    (ManagerTitles.buildNativeThreadKey ref) = Some title
  /\ Z.of_nat (List.length
                 (ManagerTitles.rememberAppliedThreadTitleWithTitle m
                    (ManagerTitles.buildNativeThreadKey ref) title))
     <= ManagerTitles.MAX_PENDING_ATTEMPTS
  /\ Forall (fun kv => Js.truthy (fst kv) = true)
       (ManagerTitles.rememberAppliedThreadTitleWithTitle m
          (ManagerTitles.buildNativeThreadKey ref) title).
Proof.
  intros Hkeys Hsize. set (k := ManagerTitles.buildNativeThreadKey ref).
  assert (Hk : Js.truthy k = true) by apply ManagerTitleFacts.key_is_not_empty.
  unfold ManagerTitles.rememberAppliedThreadTitleWithTitle.
  pose proof (ManagerTitleFacts.applied_delete_differs k m) as Hdiff.
  pose proof (ManagerTitleFacts.length_applied_delete k m) as Hlen.
  pose proof (ManagerTitleFacts.applied_delete_keeps _ k m Hkeys) as Hkept.
  set (m0 := ManagerTitles.applied_delete m k) in *.
  assert (Hall : Forall (fun kv => Js.truthy (fst kv) = true) (m0 ++ [(k, title)])%list)
    by (apply Forall_app; split; [exact Hkept | now repeat constructor]).
  destruct (Z.leb_spec (Z.of_nat (List.length (m0 ++ [(k, title)])%list))
              ManagerTitles.MAX_PENDING_ATTEMPTS) as [Hfits|Hfull].
  - split; [now apply ManagerTitleFacts.applied_get_last|]. split; assumption.
  - destruct m0 as [|[k0 v0] m1] eqn:Hm0.
    + cbn in Hfull. unfold ManagerTitles.MAX_PENDING_ATTEMPTS in Hfull. lia.
    + cbn [app]. inversion Hkept as [|? ? Hk0 Hkept1]. subst. cbn [fst] in Hk0.
      rewrite Hk0.
      inversion Hdiff as [|? ? Hne Hdiff1]. subst. cbn [fst] in Hne.
      split; [|split].
      * rewrite ManagerTitleFacts.applied_get_delete_other by exact Hne.
        change ((k0, v0) :: (m1 ++ [(k, title)])%list)
          with (((k0, v0) :: m1) ++ [(k, title)])%list.
        now apply ManagerTitleFacts.applied_get_last.
      * unfold ManagerTitles.applied_delete at 1. cbn [filter fst].
        rewrite String.eqb_refl. cbn [negb].
        pose proof (ManagerTitleFacts.length_applied_delete k0 (m1 ++ [(k, title)])%list)
          as Hle.
        unfold ManagerTitles.applied_delete in Hle.
        rewrite length_app in *. cbn [List.length] in *. lia.
      * apply ManagerTitleFacts.applied_delete_keeps. exact Hall.
Qed.

Lemma remembered_titles_are_bounded_witness :
  ManagerTitles.applied_get
    (ManagerTitles.rememberAppliedThreadTitleWithTitle
       [("slack:default:C1:123", "Old Title")]
       (ManagerTitles.buildNativeThreadKey
          (ManagerTitles.TelegramRef "default" "123" 55 ManagerTitles.dm))
       "Better Thread Title")
    (ManagerTitles.buildNativeThreadKey
       (ManagerTitles.TelegramRef "default" "123" 55 ManagerTitles.dm))
  = Some "Better Thread Title"
  /\ Z.of_nat (List.length
                 (ManagerTitles.rememberAppliedThreadTitleWithTitle
                    [("slack:default:C1:123", "Old Title")]
                    (ManagerTitles.buildNativeThreadKey
                       (ManagerTitles.TelegramRef "default" "123" 55 ManagerTitles.dm))
                    "Better Thread Title"))
     <= ManagerTitles.MAX_PENDING_ATTEMPTS
  /\ Forall (fun kv => Js.truthy (fst kv) = true)
       (ManagerTitles.rememberAppliedThreadTitleWithTitle
          [("slack:default:C1:123", "Old Title")]
          (ManagerTitles.buildNativeThreadKey
             (ManagerTitles.TelegramRef "default" "123" 55 ManagerTitles.dm))
          "Better Thread Title").
Proof.
  apply (remembered_titles_are_bounded [("slack:default:C1:123", "Old Title")]
           (ManagerTitles.TelegramRef "default" "123" 55 ManagerTitles.dm)
           "Better Thread Title").
  - repeat constructor.
  - vm_compute. discriminate.
Defined.

(** X27. A failed generation switches the AI titles off for ten minutes:
    when the agent run rejects (the call was not already switched off and
    the texts give a prompt), the call sets [aiTitleDisabledUntil] to the
    clock reading of the failure plus 600000 ms, whether or not the other
    helpers, the log and the removal of the directory fail too; and a later
    call whose clock is before that time resolves to nothing and does
    nothing: no directory, no agent run. *)
Theorem failed_generation_backs_off
  (isCtl : string -> bool) (env : ManagerAi.Env) (params : ManagerAi.Params)
  (s : ManagerAi.AiState) (seed : string) (e : JsError)
  (env2 : ManagerAi.Env) (params2 : ManagerAi.Params) :
  ManagerAi.aiTitleDisabledUntil s <= ManagerAi.now env ->
  ManagerTitles.promptSeedOf isCtl (ManagerAi.primaryText params)
    (ManagerAi.fallbackText params) = Some seed ->
  (forall run, ManagerAi.runEmbeddedPiAgent env run = Thrown e) ->
  ManagerAi.now env2 < ManagerAi.nowFailure env + ManagerTitles.AI_FAILURE_BACKOFF_MS ->
  ManagerAi.aiTitleDisabledUntil
    (snd (ManagerAi.maybeGenerateAiThreadTitle isCtl env params s))
  = ManagerAi.nowFailure env + ManagerTitles.AI_FAILURE_BACKOFF_MS
  /\ ManagerAi.maybeGenerateAiThreadTitle isCtl env2 params2
       (snd (ManagerAi.maybeGenerateAiThreadTitle isCtl env params s))
     = (Returned None, snd (ManagerAi.maybeGenerateAiThreadTitle isCtl env params s)).
Proof.
  intros Hon Hseed Hrun Hsoon.
  assert (Hoff : ManagerAi.aiTitleDisabledUntil
                   (snd (ManagerAi.maybeGenerateAiThreadTitle isCtl env params s))
                 = ManagerAi.nowFailure env + ManagerTitles.AI_FAILURE_BACKOFF_MS).
  { unfold ManagerAi.maybeGenerateAiThreadTitle.
    unfold Eff.bind at 1, Eff.get at 1.
    replace (ManagerAi.now env <? ManagerAi.aiTitleDisabledUntil s) with false
      by (symmetry; apply Z.ltb_ge; lia).
    rewrite Hseed, (ManagerTitleFacts.promptSeed_truthy _ _ _ _ Hseed). cbn [negb].
    unfold Eff.try_finally, Eff.try_catch, ManagerAi.tryBody, ManagerAi.onError,
      ManagerAi.cleanup, Eff.bind, Eff.await, Eff.ret, Eff.get, ManagerAi.emit,
      ManagerAi.set_tempDir, ManagerAi.set_disabledUntil, Eff.modify, Eff.caught.
    cbn [ManagerAi.tempDir ManagerAi.effects ManagerAi.aiTitleDisabledUntil].
    rewrite ?Hrun.
    repeat match goal with
           | |- context [match ?c with Returned _ => _ | Thrown _ => _ end] =>
               destruct c;
               cbn [ManagerAi.tempDir ManagerAi.effects ManagerAi.aiTitleDisabledUntil];
               rewrite ?Hrun
           | |- context [match ?x with Some _ => _ | None => _ end] =>
               destruct x;
               cbn [ManagerAi.tempDir ManagerAi.effects ManagerAi.aiTitleDisabledUntil]
           | |- context [if ?b then _ else _] =>
               destruct b;
               cbn [ManagerAi.tempDir ManagerAi.effects ManagerAi.aiTitleDisabledUntil]
           end;
      reflexivity. }
  split; [exact Hoff|].
  unfold ManagerAi.maybeGenerateAiThreadTitle at 1.
  unfold Eff.bind at 1, Eff.get at 1. rewrite Hoff.
  replace (ManagerAi.now env2
           <? ManagerAi.nowFailure env + ManagerTitles.AI_FAILURE_BACKOFF_MS)
    with true by (symmetry; apply Z.ltb_lt; lia).
  reflexivity.
Qed.

Lemma failed_generation_backs_off_witness :
  ManagerAi.aiTitleDisabledUntil
    (snd (ManagerAi.maybeGenerateAiThreadTitle Samples.isControl AiSamples.failingEnv
            (ManagerAi.mkParams "main" Samples.managerKey
               (Some "the deploy pipeline is broken") None 80)
            (ManagerAi.mkAiState 0 None [])))
  = ManagerAi.nowFailure AiSamples.failingEnv + ManagerTitles.AI_FAILURE_BACKOFF_MS
  /\ ManagerAi.maybeGenerateAiThreadTitle Samples.isControl AiSamples.failingEnv
       (ManagerAi.mkParams "main" Samples.managerKey (Some "another request") None 80)
       (snd (ManagerAi.maybeGenerateAiThreadTitle Samples.isControl
               AiSamples.failingEnv
               (ManagerAi.mkParams "main" Samples.managerKey
                  (Some "the deploy pipeline is broken") None 80)
               (ManagerAi.mkAiState 0 None [])))
     = (Returned None,
        snd (ManagerAi.maybeGenerateAiThreadTitle Samples.isControl AiSamples.failingEnv
               (ManagerAi.mkParams "main" Samples.managerKey
                  (Some "the deploy pipeline is broken") None 80)
               (ManagerAi.mkAiState 0 None []))).
Proof.
  apply (failed_generation_backs_off Samples.isControl AiSamples.failingEnv
           (ManagerAi.mkParams "main" Samples.managerKey
              (Some "the deploy pipeline is broken") None 80)
           (ManagerAi.mkAiState 0 None []) "the deploy pipeline is broken"
           "agent run timed out" AiSamples.failingEnv
           (ManagerAi.mkParams "main" Samples.managerKey (Some "another request") None 80)).
  - vm_compute. discriminate.
  - vm_compute. reflexivity.
  - reflexivity.
  - vm_compute. reflexivity.
Defined.
